(** * ASF_STAC: filename decoding and STAC item assembly

    A shallow embedding of the Sentinel-1 global coherence STAC tooling:
    - [collections/sentinel-1-global-coherence/create_coherence_items.py]
      (module [Items] below): one STAC item per S3 key;
    - [src/coherence_stac.py] (module [Coherence] below): one STAC item per
      tile and season, grouped in one collection per tile;
    - [collections/ingest_data.py] (module [Ingest] below): the
      transactional publisher.

    Python text is modelled as ASCII [string]; integers as [Z]; exceptions
    as the [Raise] branch of [res]; dictionaries as [gmap string _]. *)

From Stdlib Require Import ZArith Ascii String List Lia.
From stdpp Require Import base option strings pretty gmap list.

Local Open Scope string_scope.
Local Open Scope Z_scope.

(** ** Exceptions *)

Inductive py_error : Type :=
  | ValueError
  | IndexError
  | KeyError
  | AssertionError
  | HTTPError.

Inductive res (A : Type) : Type :=
  | Ok (a : A)
  | Raise (e : py_error).
Arguments Ok {A} a.
Arguments Raise {A} e.

Definition rbind {A B} (m : res A) (k : A -> res B) : res B :=
  match m with
  | Ok a => k a
  | Raise e => Raise e
  end.

Notation "'let!' x ':=' m 'in' k" := (rbind m (fun x => k))
  (at level 10, x name, m at level 100, k at level 200).

Definition is_ok {A} (m : res A) : bool :=
  match m with Ok _ => true | Raise _ => false end.

Definition from_option {A} (e : py_error) (o : option A) : res A :=
  match o with Some a => Ok a | None => Raise e end.

(** [[f(x) for x in l]] where [f] may raise: the first exception wins. *)
Fixpoint rmap {A B} (f : A -> res B) (l : list A) : res (list B) :=
  match l with
  | [] => Ok []
  | x :: l' => let! y := f x in let! ys := rmap f l' in Ok (y :: ys)
  end.

(** ** Python string primitives *)

Module Py.

(** C-locale [isspace], which is what [int()] skips on ASCII text. *)
Definition is_space (c : ascii) : bool :=
  let n := nat_of_ascii c in
  (Nat.eqb n 32 || (Nat.leb 9 n && Nat.leb n 13))%bool.

Definition digit_of (c : ascii) : option Z :=
  let n := nat_of_ascii c in
  if (Nat.leb 48 n && Nat.leb n 57)%bool then Some (Z.of_nat n - 48) else None.

Definition is_digit (c : ascii) : bool :=
  match digit_of c with Some _ => true | None => false end.

Definition upper_char (c : ascii) : ascii :=
  let n := nat_of_ascii c in
  if (Nat.leb 97 n && Nat.leb n 122)%bool then ascii_of_nat (n - 32) else c.

Definition lower_char (c : ascii) : ascii :=
  let n := nat_of_ascii c in
  if (Nat.leb 65 n && Nat.leb n 90)%bool then ascii_of_nat (n + 32) else c.

Fixpoint smap (f : ascii -> ascii) (s : string) : string :=
  match s with
  | EmptyString => EmptyString
  | String c s' => String (f c) (smap f s')
  end.

(** [s.upper()] and [s.lower()] *)
Definition upper : string -> string := smap upper_char.
Definition lower : string -> string := smap lower_char.

Fixpoint sdrop (n : nat) (s : string) : string :=
  match n, s with
  | O, _ => s
  | S n', String _ s' => sdrop n' s'
  | S _, EmptyString => EmptyString
  end.

Fixpoint stake (n : nat) (s : string) : string :=
  match n, s with
  | S n', String c s' => String c (stake n' s')
  | _, _ => EmptyString
  end.

(** [s[i:j]] for literal non-negative bounds: clamped, never raises. *)
Definition slice (i j : nat) (s : string) : string :=
  stake (j - i) (sdrop i s).

(** [s[-n:]] *)
Definition suffix (n : nat) (s : string) : string :=
  sdrop (String.length s - n) s.

(** [s[i]] raises [IndexError] out of range. *)
Definition index (i : nat) (s : string) : res ascii :=
  from_option IndexError (String.get i s).

Fixpoint prefixb (p s : string) : bool :=
  match p, s with
  | EmptyString, _ => true
  | String a p', String b s' => (Ascii.eqb a b && prefixb p' s')%bool
  | String _ _, EmptyString => false
  end.

(** [sub in s] *)
Fixpoint contains (sub s : string) : bool :=
  (prefixb sub s ||
   match s with
   | EmptyString => false
   | String _ s' => contains sub s'
   end)%bool.

(** [s.split(sep)] for a one-character separator: never empty. *)
Fixpoint split (sep : ascii) (s : string) : list string :=
  match s with
  | EmptyString => [EmptyString]
  | String c s' =>
      if Ascii.eqb c sep then EmptyString :: split sep s'
      else match split sep s' with
           | w :: ws => String c w :: ws
           | [] => [String c EmptyString]
           end
  end.

Fixpoint lstrip (s : string) : string :=
  match s with
  | String c s' => if is_space c then lstrip s' else s
  | EmptyString => EmptyString
  end.

Fixpoint rstrip (s : string) : string :=
  match s with
  | EmptyString => EmptyString
  | String c s' =>
      match rstrip s' with
      | EmptyString => if is_space c then EmptyString else String c EmptyString
      | r => String c r
      end
  end.

(** The digit part of an integer literal: digits, with single underscores
    allowed between two digits. [prev] tells whether the previous
    character was a digit. *)
Fixpoint digits (acc : Z) (prev : bool) (s : string) : option Z :=
  match s with
  | EmptyString => if prev then Some acc else None
  | String c s' =>
      match digit_of c with
      | Some d => digits (10 * acc + d) true s'
      | None =>
          if (Ascii.eqb c "_" && prev)%bool then digits acc false s' else None
      end
  end.

(** [int(s)], base 10: surrounding whitespace, an optional sign, digits. *)
Definition int (s : string) : res Z :=
  from_option ValueError
    match rstrip (lstrip s) with
    | String "-" r => Z.opp <$> digits 0 false r
    | String "+" r => digits 0 false r
    | r => digits 0 false r
    end.

(** [str(n)] for an integer, as an f-string prints it. *)
Definition str_int (n : Z) : string := pretty n.

End Py.

(** ** Geometry: [shapely.geometry.box(minx, miny, maxx, maxy)] *)

Record box : Type := Box {
  min_x : Z;
  min_y : Z;
  max_x : Z;
  max_y : Z
}.

(** The tile token pattern [[NS]\d\d[EW]\d\d\d] of the data set. *)
Definition tile_pattern (t : string) : bool :=
  match t with
  | String ns (String a (String b (String ew (String c (String d (String e EmptyString)))))) =>
      ((Ascii.eqb ns "N" || Ascii.eqb ns "S") &&
       Py.is_digit a && Py.is_digit b &&
       (Ascii.eqb ew "E" || Ascii.eqb ew "W") &&
       Py.is_digit c && Py.is_digit d && Py.is_digit e)%bool
  | _ => false
  end.

(** ** The two tile decoders *)

(** [create_coherence_items.bounding_box_from_tile_id] *)
Definition bounding_box_from_tile_id (tileid : string) : res box :=
  let! lat := Py.index 0 tileid in
  let! latval := Py.int (Py.slice 1 3 tileid) in
  let! lon := Py.index 3 tileid in
  let! lonval := Py.int (Py.slice 4 7 tileid) in
  let max_y := if Ascii.eqb lat "N" then latval else - latval in
  let min_y := max_y - 1 in
  let min_x := if Ascii.eqb lon "E" then lonval else - lonval in
  let max_x := min_x + 1 in
  Ok (Box min_x min_y max_x max_y).

(** [coherence_stac.tileid_to_bbox] *)
Definition tileid_to_bbox (tileid : string) : res box :=
  let! north := Py.int (Py.slice 1 3 tileid) in
  let! c0 := Py.index 0 tileid in
  let north := if Ascii.eqb c0 "S" then north * -1 else north in
  let south := north - 1 in
  let! west := Py.int (Py.slice 4 7 tileid) in
  let! c3 := Py.index 3 tileid in
  let west := if Ascii.eqb c3 "W" then west * -1 else west in
  let east := west + 1 in
  Ok (Box west south east north).

(** ** [datetime.datetime] and [datetime.timedelta] *)

Module Dt.

Record datetime : Type := Datetime {
  year : Z;
  month : Z;
  day : Z;
  hour : Z;
  minute : Z;
  second : Z;
  microsecond : Z
}.

(** [datetime(y, m, d)] and [datetime(y, m, d, h)] *)
Definition date (y m d : Z) : datetime := Datetime y m d 0 0 0 0.
Definition date_h (y m d h : Z) : datetime := Datetime y m d h 0 0 0.

Definition is_leap (y : Z) : bool :=
  ((y mod 4 =? 0) && (negb (y mod 100 =? 0) || (y mod 400 =? 0)))%bool.

Definition days_in_month_tbl : list Z :=
  [-1; 31; 28; 31; 30; 31; 30; 31; 31; 30; 31; 30; 31].

Definition days_before_month_tbl : list Z :=
  [-1; 0; 31; 59; 90; 120; 151; 181; 212; 243; 273; 304; 334].

Definition days_before_year (y : Z) : Z :=
  let y := y - 1 in y * 365 + y / 4 - y / 100 + y / 400.

Definition days_before_month (y m : Z) : Z :=
  nth (Z.to_nat m) days_before_month_tbl 0 +
  (if ((2 <? m) && is_leap y)%bool then 1 else 0).

Definition ymd2ord (y m d : Z) : Z :=
  days_before_year y + days_before_month y m + d.

Definition DI400Y : Z := days_before_year 401.
Definition DI100Y : Z := days_before_year 101.
Definition DI4Y : Z := days_before_year 5.

Definition ord2ymd (n : Z) : Z * Z * Z :=
  let n := n - 1 in
  let n400 := n / DI400Y in let n := n mod DI400Y in
  let y := n400 * 400 + 1 in
  let n100 := n / DI100Y in let n := n mod DI100Y in
  let n4 := n / DI4Y in let n := n mod DI4Y in
  let n1 := n / 365 in let n := n mod 365 in
  let y := y + n100 * 100 + n4 * 4 + n1 in
  if ((n1 =? 4) || (n100 =? 4))%bool then (y - 1, 12, 31)
  else
    let leapyear := ((n1 =? 3) && (negb (n4 =? 24) || (n100 =? 3)))%bool in
    let m := Z.shiftr (n + 50) 5 in
    let preceding :=
      nth (Z.to_nat m) days_before_month_tbl 0 +
      (if ((2 <? m) && leapyear)%bool then 1 else 0) in
    if n <? preceding then
      let m := m - 1 in
      let preceding :=
        preceding - (nth (Z.to_nat m) days_in_month_tbl 0 +
                     (if ((m =? 2) && leapyear)%bool then 1 else 0)) in
      (y, m, n - preceding + 1)
    else (y, m, n - preceding + 1).

(** A [timedelta] is its total number of microseconds. *)
Definition timedelta : Type := Z.

Definition us_per_day : Z := 86400 * 1000000.

(** Microseconds since ordinal day 0. *)
Definition to_us (t : datetime) : Z :=
  (((ymd2ord (year t) (month t) (day t) * 24 + hour t) * 60 + minute t) * 60
   + second t) * 1000000 + microsecond t.

Definition of_us (us : Z) : datetime :=
  let '(y, m, d) := ord2ymd (us / us_per_day) in
  let r := us mod us_per_day in
  let secs := r / 1000000 in
  Datetime y m d (secs / 3600) (secs / 60 mod 60) (secs mod 60) (r mod 1000000).

(** [a - b] on two datetimes *)
Definition sub (a b : datetime) : timedelta := to_us a - to_us b.

(** [t + d] *)
Definition add (t : datetime) (d : timedelta) : datetime := of_us (to_us t + d).

(** [d / n] for a positive integer [n]: rounds half to even
    ([_divide_and_round]). *)
Definition div (d : timedelta) (n : Z) : timedelta :=
  let q := d / n in
  let r := d mod n in
  if (n <? 2 * r) || ((2 * r =? n) && Z.odd q) then q + 1 else q.

Fixpoint zeros (n : nat) : string :=
  match n with
  | O => EmptyString
  | S n' => String "0" (zeros n')
  end.

(** [%0<width>d] for a non-negative field *)
Definition fmt (width : nat) (n : Z) : string :=
  let s := pretty n in zeros (width - String.length s) +:+ s.

(** [t.isoformat()] *)
Definition isoformat (t : datetime) : string :=
  fmt 4 (year t) +:+ "-" +:+ fmt 2 (month t) +:+ "-" +:+ fmt 2 (day t) +:+ "T" +:+
  fmt 2 (hour t) +:+ ":" +:+ fmt 2 (minute t) +:+ ":" +:+ fmt 2 (second t) +:+
  (if microsecond t =? 0 then "" else "." +:+ fmt 6 (microsecond t)).

End Dt.

(** ** JSON-like Python values *)

Local Set Warnings "-register-all".

(** [JFloat m e] is the decimal literal [m * 10^e]. *)
Inductive json : Type :=
  | JNull
  | JBool (b : bool)
  | JInt (n : Z)
  | JFloat (m e : Z)
  | JStr (s : string)
  | JList (l : list json)
  | JDict (d : gmap string json).

(** [d.update(e)]: the entries of [e] win. *)
Definition dict_update {V} (d e : gmap string V) : gmap string V := e ∪ d.

(** [geometry.mapping(box)]: the GeoJSON polygon of a box, a closed ring
    that starts at the lower right corner and runs counter-clockwise. *)
Definition mapping (b : box) : json :=
  let pt (x y : Z) := JList [JFloat x 0; JFloat y 0] in
  JDict {[ "type" := JStr "Polygon";
           "coordinates" :=
             JList [JList [pt (max_x b) (min_y b); pt (max_x b) (max_y b);
                           pt (min_x b) (max_y b); pt (min_x b) (min_y b);
                           pt (max_x b) (min_y b)]] ]}.

(** [box.bounds] as a JSON array *)
Definition bounds_json (b : box) : json :=
  JList [JFloat (min_x b) 0; JFloat (min_y b) 0; JFloat (max_x b) 0; JFloat (max_y b) 0].

(** ** [create_coherence_items.py]: one item per S3 key *)

Module Items.

Definition SEASON_DATE_RANGES : gmap string (Dt.datetime * Dt.datetime) :=
  {[ "WINTER" := (Dt.date 2019 12 1, Dt.date 2020 2 28);
     "SPRING" := (Dt.date 2020 3 1, Dt.date 2020 5 31);
     "SUMMER" := (Dt.date 2020 6 1, Dt.date 2020 8 31);
     "FALL" := (Dt.date 2020 9 1, Dt.date 2020 11 30) ]}.

Definition SEASON_DATETIME_AVERAGES : gmap string Dt.datetime :=
  {[ "WINTER" := Dt.date_h 2020 1 14 12;
     "SPRING" := Dt.date_h 2020 4 15 12;
     "SUMMER" := Dt.date_h 2020 7 16 12;
     "FALL" := Dt.date_h 2020 10 16 0 ]}.

Definition COLLECTION_ID : string := "sentinel-1-global-coherence".
Definition SAR_INSTRUMENT_MODE : string := "IW".
Definition SAR_FREQUENCY_BAND : string := "C".
Definition SAR_CENTER_FREQUENCY : json := JFloat 5405 (-3).
Definition SAR_LOOKS_RANGE : Z := 12.
Definition SAR_LOOKS_AZIMUTH : Z := 3.
Definition SAR_OBSERVATION_DIRECTION : string := "right".

Record ExtraItemMetadata : Type := {
  extra_season : string;
  extra_date_range : Dt.datetime * Dt.datetime;
  extra_datetime : Dt.datetime;
  extra_polarization : string
}.

Record ItemMetadata : Type := {
  meta_id : string;
  meta_bbox : box;
  meta_tileid : string;
  meta_product : string;
  meta_extra : option ExtraItemMetadata
}.

Definition datetime_to_str (dt : Dt.datetime) : string :=
  Dt.isoformat dt +:+ "Z".

Definition item_id_from_s3_key (s3_key : string) : string :=
  let basename := List.last (Py.split "/" s3_key) "" in
  List.hd "" (Py.split "." basename).

Definition parse_s3_key (s3_key : string) : res ItemMetadata :=
  let item_id := item_id_from_s3_key s3_key in
  let parts := Py.split "_" (Py.upper item_id) in
  match parts with
  | [tileid; _; product] =>
      let! bbox := bounding_box_from_tile_id tileid in
      Ok {| meta_id := item_id; meta_bbox := bbox; meta_tileid := tileid;
            meta_product := product; meta_extra := None |}
  | [tileid; season; polarization; product] =>
      let! bbox := bounding_box_from_tile_id tileid in
      let! date_range := from_option KeyError (SEASON_DATE_RANGES !! season) in
      let! avg := from_option KeyError (SEASON_DATETIME_AVERAGES !! season) in
      Ok {| meta_id := item_id; meta_bbox := bbox; meta_tileid := tileid;
            meta_product := product;
            meta_extra := Some {| extra_season := season;
                                  extra_date_range := date_range;
                                  extra_datetime := avg;
                                  extra_polarization := polarization |} |}
  | _ => Raise ValueError
  end.

Section CreateItem.

(** [urllib.parse.urljoin(base, url)]: the joined URL, or the exception
    that the call raises on text it cannot split (ValueError, for instance
    on a bracket without its pair in the host part). *)
Variable urljoin : string -> string -> res string.

Definition create_stac_item (s3_key s3_url : string) : res (gmap string json) :=
  let! metadata := parse_s3_key s3_key in
  let! winter := from_option KeyError (SEASON_DATE_RANGES !! "WINTER") in
  let! fall := from_option KeyError (SEASON_DATE_RANGES !! "FALL") in
  let properties : gmap string json :=
    {[ "tileid" := JStr (meta_tileid metadata);
       "sar:instrument_mode" := JStr SAR_INSTRUMENT_MODE;
       "sar:frequency_band" := JStr SAR_FREQUENCY_BAND;
       "sar:product_type" := JStr (meta_product metadata);
       "sar:center_frequency" := SAR_CENTER_FREQUENCY;
       "sar:looks_range" := JInt SAR_LOOKS_RANGE;
       "sar:looks_azimuth" := JInt SAR_LOOKS_AZIMUTH;
       "sar:observation_direction" := JStr SAR_OBSERVATION_DIRECTION;
       "start_datetime" := JStr (datetime_to_str (fst winter));
       "end_datetime" := JStr (datetime_to_str (snd fall)) ]} in
  let! href := urljoin s3_url s3_key in
  let properties :=
    match meta_extra metadata with
    | Some extra =>
        dict_update properties
          {[ "season" := JStr (extra_season extra);
             "start_datetime" := JStr (datetime_to_str (fst (extra_date_range extra)));
             "end_datetime" := JStr (datetime_to_str (snd (extra_date_range extra)));
             "datetime" := JStr (datetime_to_str (extra_datetime extra));
             "sar:polarizations" := JList [JStr (extra_polarization extra)] ]}
    | None => properties
    end in
  Ok ({[ "type" := JStr "Feature";
         "stac_version" := JStr "1.0.0";
         "id" := JStr (meta_id metadata);
         "properties" := JDict properties;
         "geometry" := mapping (meta_bbox metadata);
         "assets" :=
           JDict {[ "DATA" :=
                      JDict {[ "href" := JStr href;
                               "type" := JStr "image/tiff; application=geotiff" ]} ]};
         "bbox" := bounds_json (meta_bbox metadata);
         "stac_extensions" :=
           JList [JStr "https://stac-extensions.github.io/sar/v1.0.0/schema.json"];
         "collection" := JStr COLLECTION_ID ]} : gmap string json).

End CreateItem.

(** [os.path.join(a, b)] on POSIX paths *)
Fixpoint ends_with_slash (s : string) : bool :=
  match s with
  | EmptyString => false
  | String c EmptyString => Ascii.eqb c "/"
  | String _ s' => ends_with_slash s'
  end.

Definition os_path_join (a b : string) : string :=
  if Py.prefixb "/" b then b
  else if (String.eqb a "" || ends_with_slash a)%bool then a +:+ b
  else a +:+ "/" +:+ b.

(** What a run of [write_stac_items] does outside: directories made, lines
    printed, items dumped to files (a dump that the file system refuses is
    logged as well). *)
Inductive fs_event : Type :=
  | Mkdir (path : string)
  | Progress (text : string)
  | Dumped (path : string) (item : gmap string json).

(** [item['id'] + '.json']: the entry must exist and be a string; Python
    raises TypeError for another value, for which [ValueError] stands here
    (the builder always stores a string). *)
Definition json_file_name (item : gmap string json) : res string :=
  match item !! "id" with
  | Some (JStr id) => Ok (id +:+ ".json")
  | Some _ => Raise ValueError
  | None => Raise KeyError
  end.

Section WriteItems.

Variable urljoin : string -> string -> res string.

(** The file system: [os.path.exists], [os.mkdir], and opening a file for
    writing and dumping an item into it. *)
Variable FS : Type.
Variable path_exists : string -> FS -> bool.
Variable mkdir : string -> FS -> res unit * FS.
Variable dump : string -> gmap string json -> FS -> res unit * FS.

Record run_state : Type := RunState {
  disk : FS;
  log : list fs_event
}.

Definition progress_line (count total : nat) : string :=
  "Creating STAC items: " +:+ Py.str_int (Z.of_nat count) +:+ "/" +:+
  Py.str_int (Z.of_nat total) +:+ String (ascii_of_nat 13) "".

(** The loop over [enumerate(s3_keys, start=1)], from position [count]. *)
Fixpoint write_loop (dirname : string) (total count : nat) (s3_keys : list string)
    (s3_url : string) (st : run_state) : res unit * run_state :=
  match s3_keys with
  | [] => (Ok tt, st)
  | s3_key :: rest =>
      let st := {| disk := disk st;
                   log := log st ++ [Progress (progress_line count total)] |} in
      match create_stac_item urljoin s3_key s3_url with
      | Raise e => (Raise e, st)
      | Ok item =>
          match json_file_name item with
          | Raise e => (Raise e, st)
          | Ok name =>
              let path := os_path_join dirname name in
              let '(r, d) := dump path item (disk st) in
              let st := {| disk := d; log := log st ++ [Dumped path item] |} in
              match r with
              | Raise e => (Raise e, st)
              | Ok _ => write_loop dirname total (S count) rest s3_url st
              end
          end
      end
  end.

Definition write_stac_items (s3_keys : list string) (s3_url : string)
    (st : run_state) : res unit * run_state :=
  let dirname := "stac-items" in
  let '(r, st) :=
    if path_exists dirname (disk st) then (Ok tt, st)
    else
      let '(r, d) := mkdir dirname (disk st) in
      (r, {| disk := d; log := log st ++ [Mkdir dirname] |}) in
  match r with
  | Raise e => (Raise e, st)
  | Ok _ => write_loop dirname (length s3_keys) 1 s3_keys s3_url st
  end.

End WriteItems.

Arguments RunState {FS} disk log.
Arguments disk {FS} r.
Arguments log {FS} r.

End Items.

(** ** [coherence_stac.py]: one item per tile and season, one collection per tile *)

(** The order in which [list(set(l))] enumerates a set is not specified:
    any duplicate-free enumeration of the elements of [l]. *)
Record set_order : Type := SetOrder {
  as_list :> list string -> list string;
  as_list_NoDup : forall l, NoDup (as_list l);
  as_list_elem : forall l x, x ∈ as_list l <-> x ∈ l
}.

(** The two calls made on the [boto3] S3 client. [list_objects_v2] answers
    [None] when the response carries no ['Contents'] entry. *)
Record s3_client : Type := S3Client {
  get_bucket_location : string -> res string;
  list_objects_v2 : string -> string -> bool -> res (option (list string))
}.

Module Coherence.

Definition SENTINEL1_CENTER_FREQUENCY : json := JFloat 5405 (-3).

Definition SEASONS : gmap string (Dt.datetime * Dt.datetime) :=
  {[ "WINTER" := (Dt.date 2019 12 1, Dt.date 2020 2 28);
     "SPRING" := (Dt.date 2020 3 1, Dt.date 2020 5 31);
     "SUMMER" := (Dt.date 2020 6 1, Dt.date 2020 8 31);
     "FALL" := (Dt.date 2020 9 1, Dt.date 2020 11 30) ]}.

Definition GEOTIFF : string := "image/tiff; application=geotiff".

(** The metadata dictionary built by [parse_url]; the last three keys
    exist only for seasonal files. *)
Record asset_dict : Type := {
  url : string;
  bbox : box;
  tileid : string;
  product : string;
  date_range : option (Dt.datetime * Dt.datetime);
  season : option string;
  polarization : option string
}.

(** [d[key]] on an optional key *)
Definition getitem {A} (o : option A) : res A := from_option KeyError o.

(** [pystac.Asset] *)
Record Asset : Type := {
  href : string;
  media_type : string;
  extra_fields : gmap string json
}.

(** [pystac.Item] *)
Record Item : Type := {
  item_id : string;
  item_geometry : json;
  item_bbox : json;
  item_datetime : Dt.datetime;
  item_properties : gmap string json;
  item_assets : gmap string Asset
}.

(** [pystac.Collection] with its extent and the items added to it *)
Record Collection : Type := {
  coll_id : string;
  coll_description : string;
  coll_spatial_extent : json;
  coll_temporal_extent : Dt.datetime * Dt.datetime;
  coll_items : list Item
}.

Definition add_asset (key : string) (a : Asset) (item : Item) : Item :=
  {| item_id := item_id item; item_geometry := item_geometry item;
     item_bbox := item_bbox item; item_datetime := item_datetime item;
     item_properties := item_properties item;
     item_assets := <[key := a]> (item_assets item) |}.

(** [Path(p).name]: the last component, empty and ['.'] components dropped *)
Definition path_name (p : string) : string :=
  List.last
    (List.filter (fun c => negb (String.eqb c "" || String.eqb c "."))
       (Py.split "/" p)) "".

Fixpoint rfind (c : ascii) (s : string) : option nat :=
  match s with
  | EmptyString => None
  | String a s' =>
      match rfind c s' with
      | Some i => Some (S i)
      | None => if Ascii.eqb a c then Some O else None
      end
  end.

(** [Path(p).stem]: the name without its last suffix *)
Definition path_stem (p : string) : string :=
  let name := path_name p in
  match rfind "." name with
  | Some i =>
      if (Nat.ltb 0 i && Nat.ltb i (String.length name - 1))%bool
      then Py.stake i name else name
  | None => name
  end.

(** [sar.Polarization(x)]: the enumeration rejects any other value *)
Definition Polarization (x : string) : res string :=
  if existsb (String.eqb x) ["HH"; "VV"; "HV"; "VH"] then Ok x else Raise ValueError.

Definition construct_url (s3 : s3_client) (bucket key : string) : res string :=
  let! location := get_bucket_location s3 bucket in
  Ok ("https://" +:+ bucket +:+ ".s3." +:+ location +:+ ".amazonaws.com/" +:+ key).

Definition get_object_urls (s3 : s3_client) (bucket prefix : string)
    (requester_pays : bool) : res (list string) :=
  let! response := list_objects_v2 s3 bucket prefix requester_pays in
  let! keys := getitem response in
  rmap (construct_url s3 bucket) keys.

Definition parse_url (u : string) : res asset_dict :=
  let parts := Py.split "_" (path_stem (Py.upper u)) in
  match parts with
  | [tile; orbit; prod] =>
      let! b := tileid_to_bbox tile in
      Ok {| url := u; bbox := b; tileid := tile; product := prod;
            date_range := None; season := None; polarization := None |}
  | [tile; seas; pol; prod] =>
      let! b := tileid_to_bbox tile in
      let! range := getitem (SEASONS !! seas) in
      Ok {| url := u; bbox := b; tileid := tile; product := prod;
            date_range := Some range; season := Some seas;
            polarization := Some pol |}
  | _ => Raise ValueError
  end.

(** [start_date + (end_date - start_date) / 2] *)
Definition mid_date (range : Dt.datetime * Dt.datetime) : Dt.datetime :=
  Dt.add (fst range) (Dt.div (Dt.sub (snd range) (fst range)) 2).

(** The asset added for one seasonal file *)
Definition seasonal_asset (a : asset_dict) : res (string * Asset) :=
  let! pol := getitem (polarization a) in
  let key := product a +:+ "_" +:+ pol in
  let asset_properties : gmap string json := {[ "polarization" := JStr pol ]} in
  let! asset_properties :=
    if Py.contains "COH" (product a) then
      let asset_properties := <["product" := JStr "COH"]> asset_properties in
      let! days := Py.int (Py.suffix 2 (product a)) in
      Ok (<["temporal_separation" := JStr (Py.str_int days +:+ " days")]> asset_properties)
    else Ok (<["product" := JStr (product a)]> asset_properties) in
  Ok (key, {| href := url a; media_type := GEOTIFF; extra_fields := asset_properties |}).

Fixpoint add_seasonal_assets (l : list asset_dict) (item : Item) : res Item :=
  match l with
  | [] => Ok item
  | a :: l' =>
      let! ka := seasonal_asset a in
      add_seasonal_assets l' (add_asset (fst ka) (snd ka) item)
  end.

Definition add_yearly_assets (l : list asset_dict) (item : Item) : Item :=
  fold_left
    (fun it a =>
       add_asset (product a)
         {| href := url a; media_type := GEOTIFF; extra_fields := ∅ |} it)
    l item.

Section Assemble.

Variable set_list : set_order.

Definition create_stac_item (yearly_assets seasonal_assets : list asset_dict) : res Item :=
  let! ex_asset := from_option IndexError (head seasonal_assets) in
  let! ex_season := getitem (season ex_asset) in
  let id := tileid ex_asset +:+ "_" +:+ ex_season in
  let! range := getitem (date_range ex_asset) in
  let start_date := fst range in
  let end_date := snd range in
  let mid := mid_date range in
  let! pols := rmap (fun x => let! p := getitem (polarization x) in Ok (Py.upper p))
      seasonal_assets in
  let polarizations := set_list pols in
  let properties : gmap string json :=
    {[ "tileid" := JStr (tileid ex_asset);
       "season" := JStr ex_season;
       "start_datetime" := JStr (Dt.isoformat start_date);
       "end_datetime" := JStr (Dt.isoformat end_date) ]} in
  let! sar_pols := rmap Polarization polarizations in
  let properties : gmap string json :=
    <["sar:observation_direction" := JStr "right"]>
    (<["sar:looks_azimuth" := JInt 3]>
    (<["sar:looks_range" := JInt 12]>
    (<["sar:center_frequency" := SENTINEL1_CENTER_FREQUENCY]>
    (<["sar:product_type" := JStr "COH"]>
    (<["sar:polarizations" := JList (JStr <$> sar_pols)]>
    (<["sar:frequency_band" := JStr "C"]>
    (<["sar:instrument_mode" := JStr "IW"]> properties))))))) in
  let item :=
    {| item_id := id;
       item_geometry := mapping (bbox ex_asset);
       item_bbox := bounds_json (bbox ex_asset);
       item_datetime := mid;
       item_properties := properties;
       item_assets := ∅ |} in
  add_seasonal_assets seasonal_assets (add_yearly_assets yearly_assets item).

Definition is_yearly (x : asset_dict) : bool :=
  (Py.contains "inc" (url x) || Py.contains "lsmap" (url x))%bool.

Definition default_date_interval : Dt.datetime * Dt.datetime :=
  (Dt.date 2019 12 1, Dt.date 2020 11 30).

Definition create_tile_stac_collection (s3 : s3_client) (bucket prefix : string)
    (date_interval : Dt.datetime * Dt.datetime) : res Collection :=
  let! urls := get_object_urls s3 bucket prefix true in
  let! asset_dicts := rmap parse_url urls in
  let yearly_assets := List.filter is_yearly asset_dicts in
  let! seasons :=
    rmap (fun x => getitem (season x))
      (List.filter (fun x => negb (is_yearly x)) asset_dicts) in
  let seasons := set_list seasons in
  let! items :=
    rmap (fun s =>
            let seasonal_assets :=
              List.filter (fun x => Py.contains (Py.lower s) (url x)) asset_dicts in
            create_stac_item yearly_assets seasonal_assets)
      seasons in
  let! first := from_option IndexError (head asset_dicts) in
  let tile := tileid first in
  let! item0 := from_option IndexError (head items) in
  Ok {| coll_id := tile;
        coll_description := "Sentinel-1 Coherence Tile " +:+ tile;
        coll_spatial_extent := item_bbox item0;
        coll_temporal_extent := date_interval;
        coll_items := items |}.

(** The result of the safe builder: a collection, or the prefix itself. *)
Inductive tile_result : Type :=
  | Built (c : Collection)
  | Placeholder (prefix : string).

Definition safe_create_tile_stac_collection (s3 : s3_client) (bucket prefix : string)
    : tile_result :=
  match create_tile_stac_collection s3 bucket prefix default_date_interval with
  | Ok collection => Built collection
  | Raise _ => Placeholder prefix
  end.

(** The batch of [__main__]: one safe call per prefix, results in the order
    of the prefixes; then the split into catalog children and invalid tiles. *)
Definition main_results (s3 : s3_client) (bucket : string) (prefixes : list string)
    : list tile_result :=
  List.map (safe_create_tile_stac_collection s3 bucket) prefixes.

Fixpoint main_split (results : list tile_result) : list Collection * list string :=
  match results with
  | [] => ([], [])
  | Built c :: rs => let '(cs, bad) := main_split rs in (c :: cs, bad)
  | Placeholder p :: rs => let '(cs, bad) := main_split rs in (cs, p :: bad)
  end.

End Assemble.

(** Whitespace for [str.strip()] on ASCII text: tab to carriage return,
    the four separators 28 to 31, and the space. *)
Definition is_str_space (c : ascii) : bool :=
  let n := nat_of_ascii c in
  ((Nat.leb 9 n && Nat.leb n 13) || (Nat.leb 28 n && Nat.leb n 32))%bool.

Fixpoint str_lstrip (s : string) : string :=
  match s with
  | String c s' => if is_str_space c then str_lstrip s' else s
  | EmptyString => EmptyString
  end.

Fixpoint str_rstrip (s : string) : string :=
  match s with
  | EmptyString => EmptyString
  | String c s' =>
      match str_rstrip s' with
      | EmptyString => if is_str_space c then EmptyString else String c EmptyString
      | r => String c r
      end
  end.

(** [s.strip()] *)
Definition strip (s : string) : string := str_rstrip (str_lstrip s).



Section Listing.

Variable set_list : set_order.



(** [parse_france_list], on the lines of the file *)
Definition parse_france_list (lines : list string) : res (list string) :=
  let urls := List.map strip lines in
  let! tileids := rmap (fun x => let! a := parse_url x in Ok (tileid a)) urls in
  Ok (set_list tileids).

End Listing.

End Coherence.

(** One such enumeration order: the one of stdpp's [gset]. *)
Definition gset_order : set_order.
Proof.
  refine (SetOrder (fun l => elements (list_to_set l : gset string)) _ _).
  - intros l. apply NoDup_elements.
  - intros l x. rewrite elem_of_elements, elem_of_list_to_set. reflexivity.
Defined.

(** A bucket with a fixed region and a fixed listing. *)
Definition fixed_bucket (location : string) (keys : list string) : s3_client :=
  S3Client (fun _ => Ok location) (fun _ _ _ => Ok (Some keys)).

(** ** [ingest_data.py]: the transactional publisher *)

(** How an f-string prints a value: a string prints as itself; the printed
    form of the other values is left open. *)
Record formatter : Type := Formatter {
  format_value :> json -> string;
  format_str : forall s, format_value (JStr s) = s
}.

Definition str_formatter : formatter.
Proof.
  refine (Formatter (fun v => match v with JStr s => s | _ => "" end) _).
  intros s. reflexivity.
Defined.

Module Ingest.

Inductive method : Type := POST | PUT.

Record request : Type := Request {
  req_method : method;
  req_url : string;
  req_json : gmap string json
}.

(** What the run does to the outside: lines printed and requests sent. *)
Inductive event : Type :=
  | Printed (v : json)
  | Sent (r : request).

Definition get_endpoint (fmt : formatter) (stac_object : gmap string json) : res string :=
  let! ty := from_option KeyError (stac_object !! "type") in
  match ty with
  | JStr "Catalog" | JStr "Collection" => Ok "/collections"
  | JStr "Feature" =>
      let! c := from_option KeyError (stac_object !! "collection") in
      Ok ("/collections/" +:+ fmt c +:+ "/items")
  | _ => Raise AssertionError
  end.

(** [response.raise_for_status()]: client and server errors raise. *)
Definition raise_for_status (status : Z) : res unit :=
  if ((400 <=? status) && (status <? 600))%bool then Raise HTTPError else Ok tt.

Section Session.

(** [urllib.parse.urljoin(base, url)]: the joined URL, or the exception
    that the call raises on text it cannot split. *)
Variable urljoin : string -> string -> res string.
Variable fmt : formatter.

(** The STAC API behind the session: a state, and the status code (or the
    connection error) with which it answers a request. *)
Variable Server : Type.
Variable respond : request -> Server -> res Z * Server.

Record world : Type := World {
  server : Server;
  trace : list event
}.

Definition io (A : Type) : Type := world -> res A * world.

Definition io_ret {A} (a : A) : io A := fun w => (Ok a, w).

Definition io_bind {A B} (m : io A) (k : A -> io B) : io B :=
  fun w =>
    match m w with
    | (Ok a, w') => k a w'
    | (Raise e, w') => (Raise e, w')
    end.

Definition lift {A} (r : res A) : io A := fun w => (r, w).

Notation "'do!' x ':=' m 'in' k" := (io_bind m (fun x => k))
  (at level 10, x name, m at level 100, k at level 200).

Definition print (v : json) : io unit :=
  fun w => (Ok tt, {| server := server w; trace := trace w ++ [Printed v] |}).

(** [session.post] and [session.put]: the status code of the response *)
Definition send (r : request) : io Z :=
  fun w =>
    let '(status, srv) := respond r (server w) in
    (status, {| server := srv; trace := trace w ++ [Sent r] |}).

Definition add_stac_object (stac_object : gmap string json) (api_url : string) : io unit :=
  do! id := lift (from_option KeyError (stac_object !! "id")) in
  do! _ := print id in
  do! endpoint := lift (get_endpoint fmt stac_object) in
  do! url := lift (urljoin api_url endpoint) in
  do! status := send (Request POST url stac_object) in
  do! status :=
    (if status =? 409 then send (Request PUT url stac_object) else io_ret status) in
  lift (raise_for_status status).

(** The loop of [main] over the objects loaded from the JSON files. *)
Fixpoint main (api_url : string) (objects : list (gmap string json)) : io unit :=
  match objects with
  | [] => io_ret tt
  | stac_object :: rest =>
      do! _ := add_stac_object stac_object api_url in
      main api_url rest
  end.

End Session.

Arguments World {Server} server trace.
Arguments server {Server} w.
Arguments trace {Server} w.

(** A server that answers every request with the same status. *)
Definition constant_server (status : Z) : request -> unit -> res Z * unit :=
  fun _ s => (Ok status, s).

(** A server that answers 409 to every POST and [status] to every PUT. *)
Definition conflict_server (status : Z) : request -> unit -> res Z * unit :=
  fun r s =>
    match req_method r with
    | POST => (Ok 409, s)
    | PUT => (Ok status, s)
    end.

End Ingest.

(** ** Reference definitions used in the statements *)

(** The value of a string of decimal digits, most significant first. *)
Fixpoint decimal (acc : Z) (s : string) : option Z :=
  match s with
  | EmptyString => Some acc
  | String c s' =>
      match Py.digit_of c with
      | Some d => decimal (10 * acc + d) s'
      | None => None
      end
  end.

(** The box the data set's labelling rule assigns to hemisphere letters
    [ns], [ew] and magnitudes [latval], [lonval]. *)
Definition tile_box (ns ew : ascii) (latval lonval : Z) : box :=
  let max_y := if Ascii.eqb ns "N" then latval else - latval in
  let min_y := max_y - 1 in
  let min_x := if Ascii.eqb ew "E" then lonval else - lonval in
  let max_x := min_x + 1 in
  Box min_x min_y max_x max_y.

Definition token (ns a b ew c d e : ascii) (rest : string) : string :=
  String ns (String a (String b (String ew (String c (String d (String e rest)))))).
Arguments token (ns a b ew c d e)%_char rest%_string.

(** The longest suffix of [s] made of decimal digits. *)
Fixpoint trailing_digits (s : string) : string :=
  match s with
  | EmptyString => EmptyString
  | String c s' =>
      let t := trailing_digits s' in
      if (Py.is_digit c && Nat.eqb (String.length t) (String.length s'))%bool
      then String c t else t
  end.

(** Whether the character [c] occurs in [s]. *)
Fixpoint has_char (c : ascii) (s : string) : bool :=
  match s with
  | EmptyString => false
  | String a s' => (Ascii.eqb a c || has_char c s')%bool
  end.

(** A bucket in which the tile N00E005 is complete for one season and the
    only file of the tile N00E006 has a name that does not parse. *)
Definition sample_bucket : s3_client :=
  S3Client (fun _ => Ok "us-west-2")
    (fun _ prefix _ =>
       if String.eqb prefix "data/tiles/N00E005/" then
         Ok (Some ["data/tiles/N00E005/N00E005_124D_inc.tif";
                   "data/tiles/N00E005/N00E005_fall_vv_COH36.tif";
                   "data/tiles/N00E005/N00E005_fall_vh_AMP.tif"])
       else if String.eqb prefix "data/tiles/N00E006/" then
         Ok (Some ["data/tiles/N00E006/N00E006_broken.tif"])
       else Ok None).

(** A bucket whose listing for the prefix of tile N00E005 also holds a file
    named after tile N00E006. *)
Definition mixed_bucket : s3_client :=
  fixed_bucket "us-west-2"
    ["data/tiles/N00E005/N00E005_fall_vv_AMP.tif";
     "data/tiles/N00E005/N00E006_winter_vv_AMP.tif"].

(** The id of a collection with, for each child item, the item's id and
    its tileid property. *)
Definition tile_ids (r : res Coherence.Collection)
    : res (string * list (string * option json)) :=
  let! coll := r in
  Ok (Coherence.coll_id coll,
      List.map (fun item => (Coherence.item_id item,
                             Coherence.item_properties item !! "tileid"))
        (Coherence.coll_items coll)).

(** What the entry added for a seasonal file with product token [prod] and
    polarization [pol] records: the tag COH and the last two characters of
    the token read as a number of days when the token contains COH, the
    token itself otherwise. *)
Definition seasonal_fields_ok (prod pol : string) (entry : Coherence.Asset) : Prop :=
  Coherence.extra_fields entry !! "polarization" = Some (JStr pol) /\
  if Py.contains "COH" prod then
    Coherence.extra_fields entry !! "product" = Some (JStr "COH") /\
    exists days,
      Py.int (Py.suffix 2 prod) = Ok days /\
      Coherence.extra_fields entry !! "temporal_separation" =
        Some (JStr (Py.str_int days +:+ " days"))
  else
    Coherence.extra_fields entry !! "product" = Some (JStr prod) /\
    Coherence.extra_fields entry !! "temporal_separation" = None.

(** The field [field] of the asset entry stored under [key], if the item
    was built and has it. *)
Definition asset_field (r : res Coherence.Item) (key field : string) : option json :=
  match r with
  | Ok item =>
      match Coherence.item_assets item !! key with
      | Some entry => Coherence.extra_fields entry !! field
      | None => None
      end
  | Raise _ => None
  end.

(** The metadata of the 36-day fall coherence file of tile N00E005. *)
Definition coh36_url : string :=
  "https://bucket.s3.us-west-2.amazonaws.com/data/tiles/N00E005/N00E005_fall_vv_COH36.tif".

Definition coh36_asset : Coherence.asset_dict :=
  {| Coherence.url := coh36_url;
     Coherence.bbox := Box 5 (-1) 6 0;
     Coherence.tileid := "N00E005";
     Coherence.product := "COH36";
     Coherence.date_range := Some (Dt.date 2020 9 1, Dt.date 2020 11 30);
     Coherence.season := Some "FALL";
     Coherence.polarization := Some "VV" |}.

(** Two objects to publish: an item of collection c1, then a collection. *)
Definition feature_a : gmap string json :=
  {[ "type" := JStr "Feature"; "id" := JStr "a"; "collection" := JStr "c1" ]}.

Definition collection_b : gmap string json :=
  {[ "type" := JStr "Collection"; "id" := JStr "b" ]}.

(** A file system that accepts every call: a set of existing paths. *)
Definition plain_exists (path : string) (d : gset string) : bool :=
  bool_decide (path ∈ d).

Definition plain_mkdir (path : string) (d : gset string) : res unit * gset string :=
  (Ok tt, {[path]} ∪ d).

Definition plain_dump (path : string) (item : gmap string json) (d : gset string)
    : res unit * gset string :=
  (Ok tt, {[path]} ∪ d).

(** The paths of the files dumped in a log, in order. *)
Definition dumped_paths (evs : list Items.fs_event) : list string :=
  omap (fun ev => match ev with Items.Dumped path _ => Some path | _ => None end) evs.

(** The file into which [write_stac_items] dumps the item of a key. *)
Definition item_path (s3_key : string) : string :=
  "stac-items/" +:+ Items.item_id_from_s3_key s3_key +:+ ".json".

(** The properties that the grouping builder gives an item named after the
    asset [ex] of season [seas] and range [range], with polarizations
    [pols]. *)
Definition grouped_properties (ex : Coherence.asset_dict) (seas : string)
    (range : Dt.datetime * Dt.datetime) (pols : list string) : gmap string json :=
  <["sar:observation_direction" := JStr "right"]>
  (<["sar:looks_azimuth" := JInt 3]>
  (<["sar:looks_range" := JInt 12]>
  (<["sar:center_frequency" := Coherence.SENTINEL1_CENTER_FREQUENCY]>
  (<["sar:product_type" := JStr "COH"]>
  (<["sar:polarizations" := JList (JStr <$> pols)]>
  (<["sar:frequency_band" := JStr "C"]>
  (<["sar:instrument_mode" := JStr "IW"]>
  {[ "tileid" := JStr (Coherence.tileid ex);
     "season" := JStr seas;
     "start_datetime" := JStr (Dt.isoformat (fst range));
     "end_datetime" := JStr (Dt.isoformat (snd range)) ]}))))))).

(** A bucket that holds, under every prefix, only the incidence-angle and
    land-sea-mask files of tile N00E005. *)
Definition yearly_only_bucket : s3_client :=
  fixed_bucket "us-west-2"
    ["data/tiles/N00E005/N00E005_124D_inc.tif";
     "data/tiles/N00E005/N00E005_124D_lsmap.tif"].

(** The requests of a trace, in order. *)
Definition sent (evs : list Ingest.event) : list Ingest.request :=
  omap (fun ev => match ev with Ingest.Sent r => Some r | _ => None end) evs.

Definition is_post (r : Ingest.request) : bool :=
  match Ingest.req_method r with Ingest.POST => true | Ingest.PUT => false end.

(** The numbers of POST and of PUT requests among [rs]. *)
Definition posts (rs : list Ingest.request) : nat := length (List.filter is_post rs).
Definition puts (rs : list Ingest.request) : nat :=
  length (List.filter (fun r => negb (is_post r)) rs).

(** What a run sends for an object that it sends at all: the POST of the
    object to the URL joined from the API URL and the endpoint of the
    object, alone or followed by the PUT of the object to the same URL. *)
Definition requests_of_object (urljoin : string -> string -> res string)
    (fmt : formatter) (api_url : string) (stac_object : gmap string json)
    (rs : list Ingest.request) : Prop :=
  exists endpoint url,
    Ingest.get_endpoint fmt stac_object = Ok endpoint /\
    urljoin api_url endpoint = Ok url /\
    (rs = [Ingest.Request Ingest.POST url stac_object] \/
     rs = [Ingest.Request Ingest.POST url stac_object;
           Ingest.Request Ingest.PUT url stac_object]).

(** Two joiners for the examples: one that appends the path to the base,
    and one that does so unless the base or the path holds an opening
    bracket, on which it raises. *)
Definition append_urljoin (base path : string) : res string := Ok (base +:+ path).

Definition bracket_urljoin (base path : string) : res string :=
  if (has_char "[" base || has_char "[" path)%bool then Raise ValueError
  else Ok (base +:+ path).

(** * Properties *)

(** ** Integer literals *)

Lemma digit_of_plain c d :
  Py.digit_of c = Some d ->
  Py.is_space c = false /\ c <> "-"%char /\ c <> "+"%char /\ 0 <= d <= 9.
Proof.
  destruct c as [[] [] [] [] [] [] [] []]; vm_compute; intros H;
    try discriminate H; injection H as <-; repeat split; discriminate.
Qed.


Lemma digits_decimal s : forall acc n,
  decimal acc s = Some n -> Py.digits acc true s = Some n.
Proof.
  induction s as [|c s IH]; intros acc n H; simpl in *.
  - exact H.
  - destruct (Py.digit_of c); [apply IH; exact H | discriminate].
Qed.

Lemma rstrip_decimal s : forall acc n,
  decimal acc s = Some n -> Py.rstrip s = s.
Proof.
  induction s as [|c s IH]; intros acc n H; simpl in *.
  - reflexivity.
  - destruct (Py.digit_of c) as [d|] eqn:Hd; [|discriminate].
    rewrite (IH _ _ H). destruct s; [|reflexivity].
    destruct (digit_of_plain _ _ Hd) as [-> _]. reflexivity.
Qed.

(** [int] reads a non-empty string of digits as its decimal value. *)
Lemma int_decimal c s n :
  decimal 0 (String c s) = Some n -> Py.int (String c s) = Ok n.
Proof.
  intros H. unfold Py.int.
  assert (Hl : Py.lstrip (String c s) = String c s).
  { simpl in *. destruct (Py.digit_of c) as [d|] eqn:Hd; [|discriminate].
    destruct (digit_of_plain _ _ Hd) as [-> _]. reflexivity. }
  rewrite Hl, (rstrip_decimal _ _ _ H).
  assert (Hd : Py.digits 0 false (String c s) = Some n).
  { simpl in *. destruct (Py.digit_of c) as [d|] eqn:Hd; [|discriminate].
    apply digits_decimal. exact H. }
  simpl in H. destruct (Py.digit_of c) as [d|] eqn:Hc; [|discriminate].
  destruct (digit_of_plain _ _ Hc) as (_ & Hm & Hp & _).
  destruct c as [[] [] [] [] [] [] [] []]; try congruence; rewrite Hd; reflexivity.
Qed.

Lemma int_empty : Py.int "" = Raise ValueError.
Proof. reflexivity. Qed.

Lemma is_digit_value c : Py.is_digit c = true -> exists d, Py.digit_of c = Some d.
Proof. unfold Py.is_digit. destruct (Py.digit_of c); [eauto | discriminate]. Qed.

(** ** The tile decoders *)


(** With digits at positions 1-2 and 4-6, [bounding_box_from_tile_id] reads
    every first letter but N as south and every fourth letter but E as west;
    what follows position 6 is ignored. *)
Lemma bounding_box_digits ns a b ew c d e rest va vb vc vd ve :
  Py.digit_of a = Some va -> Py.digit_of b = Some vb ->
  Py.digit_of c = Some vc -> Py.digit_of d = Some vd -> Py.digit_of e = Some ve ->
  bounding_box_from_tile_id (token ns a b ew c d e rest) =
  Ok (tile_box ns ew (10 * va + vb) (100 * vc + 10 * vd + ve)).
Proof.
  intros Ha Hb Hc Hd He. unfold bounding_box_from_tile_id, token.
  change (Py.index 0 _) with (Ok (A:=ascii) ns).
  change (Py.index 3 _) with (Ok (A:=ascii) ew).
  change (Py.slice 1 3 _) with (String a (String b "")).
  change (Py.slice 4 7 _) with (String c (String d (String e ""))).
  rewrite (int_decimal a (String b "") (10 * va + vb)).
  2:{ simpl; rewrite Ha, Hb; f_equal; lia. }
  rewrite (int_decimal c (String d (String e "")) (100 * vc + 10 * vd + ve)).
  2:{ simpl; rewrite Hc, Hd, He; f_equal; lia. }
  reflexivity.
Qed.

(** [tileid_to_bbox] instead reads every first letter but S as north and
    every fourth letter but W as east. *)
Lemma tileid_to_bbox_digits ns a b ew c d e rest va vb vc vd ve :
  Py.digit_of a = Some va -> Py.digit_of b = Some vb ->
  Py.digit_of c = Some vc -> Py.digit_of d = Some vd -> Py.digit_of e = Some ve ->
  tileid_to_bbox (token ns a b ew c d e rest) =
  Ok (tile_box (if Ascii.eqb ns "S" then "S" else "N")
               (if Ascii.eqb ew "W" then "W" else "E")
               (10 * va + vb) (100 * vc + 10 * vd + ve)).
Proof.
  intros Ha Hb Hc Hd He. unfold tileid_to_bbox, token.
  change (Py.index 0 _) with (Ok (A:=ascii) ns).
  change (Py.index 3 _) with (Ok (A:=ascii) ew).
  change (Py.slice 1 3 _) with (String a (String b "")).
  change (Py.slice 4 7 _) with (String c (String d (String e ""))).
  rewrite (int_decimal a (String b "") (10 * va + vb)).
  2:{ simpl; rewrite Ha, Hb; f_equal; lia. }
  rewrite (int_decimal c (String d (String e "")) (100 * vc + 10 * vd + ve)).
  2:{ simpl; rewrite Hc, Hd, He; f_equal; lia. }
  unfold rbind, tile_box.
  destruct (Ascii.eqb ns "S"), (Ascii.eqb ew "W"); simpl; f_equal; f_equal; lia.
Qed.

Lemma tile_pattern_inv t :
  tile_pattern t = true ->
  exists ns a b ew c d e va vb vc vd ve,
    t = token ns a b ew c d e "" /\
    (ns = "N" \/ ns = "S")%char /\ (ew = "E" \/ ew = "W")%char /\
    Py.digit_of a = Some va /\ Py.digit_of b = Some vb /\
    Py.digit_of c = Some vc /\ Py.digit_of d = Some vd /\ Py.digit_of e = Some ve.
Proof.
  destruct t as [|ns [|a [|b [|ew [|c [|d [|e [|x t]]]]]]]]; try discriminate.
  unfold tile_pattern. rewrite !andb_true_iff, !orb_true_iff, !Ascii.eqb_eq.
  intros [[[[[[Hns Ha] Hb] Hew] Hc] Hd] He].
  apply is_digit_value in Ha as [va Ha], Hb as [vb Hb], Hc as [vc Hc],
    Hd as [vd Hd], He as [ve He].
  exists ns, a, b, ew, c, d, e, va, vb, vc, vd, ve. repeat split; assumption.
Qed.

(** On the tokens of the pattern the two decoders return the same box. *)
Lemma decoders_agree t :
  tile_pattern t = true -> bounding_box_from_tile_id t = tileid_to_bbox t.
Proof.
  intros H. apply tile_pattern_inv in H
    as (ns & a & b & ew & c & d & e & va & vb & vc & vd & ve & -> & Hns & Hew & Ha & Hb & Hc & Hd & He).
  rewrite (bounding_box_digits _ _ _ _ _ _ _ _ _ _ _ _ _ Ha Hb Hc Hd He).
  rewrite (tileid_to_bbox_digits _ _ _ _ _ _ _ _ _ _ _ _ _ Ha Hb Hc Hd He).
  destruct Hns as [-> | ->], Hew as [-> | ->]; reflexivity.
Qed.

Lemma decoders_ok_iff_slices t :
  is_ok (bounding_box_from_tile_id t) =
    (is_ok (Py.int (Py.slice 1 3 t)) && is_ok (Py.int (Py.slice 4 7 t))) /\
  is_ok (tileid_to_bbox t) =
    (is_ok (Py.int (Py.slice 1 3 t)) && is_ok (Py.int (Py.slice 4 7 t))).
Proof.
  unfold bounding_box_from_tile_id, tileid_to_bbox.
  destruct t as [|x0 [|x1 [|x2 [|x3 [|x4 t]]]]];
    cbn [Py.slice Py.sdrop Py.stake Nat.sub Py.index String.get from_option rbind];
    rewrite ?int_empty;
    repeat match goal with
           | |- context [Py.int ?s] => destruct (Py.int s)
           end; split; reflexivity.
Qed.

(** C1: on every token [NS]dd[EW]ddd both decoders return the box with
    max_y = latval for N and -latval for S, min_y = max_y - 1,
    min_x = lonval for E and -lonval for W, max_x = min_x + 1; the four
    literal examples of the data set's documentation follow. *)
Theorem tile_decoding_rule :
  (forall ns a b ew c d e va vb vc vd ve,
     (ns = "N" \/ ns = "S")%char -> (ew = "E" \/ ew = "W")%char ->
     Py.digit_of a = Some va -> Py.digit_of b = Some vb ->
     Py.digit_of c = Some vc -> Py.digit_of d = Some vd -> Py.digit_of e = Some ve ->
     let latval := 10 * va + vb in
     let lonval := 100 * vc + 10 * vd + ve in
     let max_y := if Ascii.eqb ns "N" then latval else - latval in
     let min_y := max_y - 1 in
     let min_x := if Ascii.eqb ew "E" then lonval else - lonval in
     let max_x := min_x + 1 in
     bounding_box_from_tile_id (token ns a b ew c d e "") = Ok (Box min_x min_y max_x max_y) /\
     tileid_to_bbox (token ns a b ew c d e "") = Ok (Box min_x min_y max_x max_y)) /\
  bounding_box_from_tile_id "N49E009" = Ok (Box 9 48 10 49) /\
  bounding_box_from_tile_id "N48W090" = Ok (Box (-90) 47 (-89) 48) /\
  bounding_box_from_tile_id "S01E012" = Ok (Box 12 (-2) 13 (-1)) /\
  bounding_box_from_tile_id "S78W161" = Ok (Box (-161) (-79) (-160) (-78)) /\
  tileid_to_bbox "N49E009" = Ok (Box 9 48 10 49) /\
  tileid_to_bbox "N48W090" = Ok (Box (-90) 47 (-89) 48) /\
  tileid_to_bbox "S01E012" = Ok (Box 12 (-2) 13 (-1)) /\
  tileid_to_bbox "S78W161" = Ok (Box (-161) (-79) (-160) (-78)).
Proof.
  split; [|repeat split; reflexivity].
  intros ns a b ew c d e va vb vc vd ve Hns Hew Ha Hb Hc Hd He.
  cbv zeta.
  rewrite (tileid_to_bbox_digits _ _ _ _ _ _ _ _ _ _ _ _ _ Ha Hb Hc Hd He).
  rewrite (bounding_box_digits _ _ _ _ _ _ _ _ _ _ _ _ _ Ha Hb Hc Hd He).
  destruct Hns as [-> | ->], Hew as [-> | ->]; split; reflexivity.
Qed.

Lemma tile_decoding_rule_witness :
  bounding_box_from_tile_id (token "S" "0" "7" "W" "1" "2" "3" "") =
    Ok (Box (-123) (-8) (-122) (-7)) /\
  tileid_to_bbox (token "S" "0" "7" "W" "1" "2" "3" "") =
    Ok (Box (-123) (-8) (-122) (-7)).
Proof.
  destruct tile_decoding_rule as [H _].
  apply (H "S" "0" "7" "W" "1" "2" "3" 0 7 1 2 3)%char;
    first [reflexivity | right; reflexivity].
Defined.

(** C2, as stated, fails: no token of the pattern, southern, western or
    other, separates the two decoders. *)
Lemma no_sign_inconsistency :
  ~ exists t,
      tile_pattern t = true /\
      (String.get 0 t = Some "S"%char \/ String.get 3 t = Some "W"%char) /\
      bounding_box_from_tile_id t <> tileid_to_bbox t.
Proof.
  intros (t & Hp & _ & Hne). apply Hne, decoders_agree, Hp.
Qed.

(** With N or S in the first place and E or W in the fourth, the two decoders
    go through the same steps: the same box, or the same exception. *)
Lemma decoders_agree_on_letters t c0 c3 :
  String.get 0 t = Some c0 -> (c0 = "N" \/ c0 = "S")%char ->
  String.get 3 t = Some c3 -> (c3 = "E" \/ c3 = "W")%char ->
  bounding_box_from_tile_id t = tileid_to_bbox t.
Proof.
  destruct t as [|x0 [|x1 [|x2 [|x3 t]]]]; try discriminate.
  intros [= ->] H0 [= ->] H3.
  unfold bounding_box_from_tile_id, tileid_to_bbox.
  change (Py.index 0 _) with (Ok (A:=ascii) c0).
  change (Py.index 3 _) with (Ok (A:=ascii) c3).
  cbn [rbind].
  destruct (Py.int (Py.slice 1 3 _)) as [latval|e1]; [|reflexivity].
  cbn [rbind].
  destruct (Py.int (Py.slice 4 7 _)) as [lonval|e2]; [|reflexivity].
  cbn [rbind].
  destruct H0 as [-> | ->], H3 as [-> | ->]; cbn; f_equal; f_equal; lia.
Qed.

(** C2, amended: the two decoders return the same result, box or exception,
    on every token that has N or S in the first place and E or W in the
    fourth, hence on every token of the pattern, whatever its hemisphere
    letters; they part only on the other tokens, such as X01E001, which one
    reads as south and the other as north, and S12, which has no fourth
    character and on which they raise different exceptions. *)
Theorem decoders_consistent :
  (forall t, tile_pattern t = true -> bounding_box_from_tile_id t = tileid_to_bbox t) /\
  (forall t c0 c3,
     String.get 0 t = Some c0 -> (c0 = "N" \/ c0 = "S")%char ->
     String.get 3 t = Some c3 -> (c3 = "E" \/ c3 = "W")%char ->
     bounding_box_from_tile_id t = tileid_to_bbox t) /\
  (forall t,
     bounding_box_from_tile_id t <> tileid_to_bbox t ->
     ~ (String.get 0 t = Some "N"%char \/ String.get 0 t = Some "S"%char) \/
     ~ (String.get 3 t = Some "E"%char \/ String.get 3 t = Some "W"%char)) /\
  (forall t, is_ok (bounding_box_from_tile_id t) = is_ok (tileid_to_bbox t)) /\
  bounding_box_from_tile_id "X01E001" = Ok (Box 1 (-2) 2 (-1)) /\
  tileid_to_bbox "X01E001" = Ok (Box 1 0 2 1) /\
  bounding_box_from_tile_id "S12" = Raise IndexError /\
  tileid_to_bbox "S12" = Raise ValueError.
Proof.
  split; [exact decoders_agree|].
  split; [exact decoders_agree_on_letters|].
  split.
  - intros t Hne.
    destruct (String.get 0 t) as [c0|] eqn:H0;
      [|left; intros [H | H]; discriminate H].
    destruct (String.get 3 t) as [c3|] eqn:H3;
      [|right; intros [H | H]; discriminate H].
    destruct (ascii_dec c0 "N") as [-> | Hn0].
    + destruct (ascii_dec c3 "E") as [-> | He].
      * exfalso. apply Hne. eapply decoders_agree_on_letters; eauto.
      * destruct (ascii_dec c3 "W") as [-> | Hw].
        -- exfalso. apply Hne. eapply decoders_agree_on_letters; eauto.
        -- right. intros [[= H] | [= H]]; congruence.
    + destruct (ascii_dec c0 "S") as [-> | Hs0].
      * destruct (ascii_dec c3 "E") as [-> | He].
        -- exfalso. apply Hne. eapply decoders_agree_on_letters; eauto.
        -- destruct (ascii_dec c3 "W") as [-> | Hw].
           ++ exfalso. apply Hne. eapply decoders_agree_on_letters; eauto.
           ++ right. intros [[= H] | [= H]]; congruence.
      * left. intros [[= H] | [= H]]; congruence.
  - split.
    + intros t. destruct (decoders_ok_iff_slices t) as [-> ->]. reflexivity.
    + repeat split; reflexivity.
Qed.

Lemma decoders_consistent_witness :
  tile_pattern "S78W161" = true /\
  bounding_box_from_tile_id "S78W161" = tileid_to_bbox "S78W161" /\
  bounding_box_from_tile_id "S7xW161" = tileid_to_bbox "S7xW161" /\
  (~ (String.get 0 "X01E001" = Some "N"%char \/ String.get 0 "X01E001" = Some "S"%char) \/
   ~ (String.get 3 "X01E001" = Some "E"%char \/ String.get 3 "X01E001" = Some "W"%char)).
Proof.
  split; [reflexivity|].
  destruct decoders_consistent as (H1 & H2 & H3 & _).
  split; [apply (H1 "S78W161"); reflexivity|].
  split.
  - apply (H2 "S7xW161" "S"%char "W"%char);
      first [reflexivity | right; reflexivity].
  - apply (H3 "X01E001"). vm_compute. discriminate.
Defined.




(** ** Upper-casing and splitting *)

Lemma upper_char_idem c : Py.upper_char (Py.upper_char c) = Py.upper_char c.
Proof. destruct c as [[] [] [] [] [] [] [] []]; reflexivity. Qed.

Lemma upper_char_underscore c :
  Ascii.eqb (Py.upper_char c) "_" = Ascii.eqb c "_".
Proof. destruct c as [[] [] [] [] [] [] [] []]; reflexivity. Qed.

Lemma upper_idem s : Py.upper (Py.upper s) = Py.upper s.
Proof.
  induction s as [|c s IH]; [reflexivity|].
  unfold Py.upper in *. simpl. rewrite upper_char_idem, IH. reflexivity.
Qed.

Lemma split_upper s :
  Py.split "_" (Py.upper s) = List.map Py.upper (Py.split "_" s).
Proof.
  induction s as [|c s IH]; [reflexivity|].
  unfold Py.upper in *. simpl. rewrite upper_char_underscore.
  destruct (Ascii.eqb c "_"); simpl; rewrite IH; [reflexivity|].
  destruct (Py.split "_" s); reflexivity.
Qed.

(** ** Single-item mode *)

(** What a successful parse of a seasonal key guarantees about the extra
    metadata: both constants are the table entries of the parsed season, and
    the polarization is the third token of the item id, upper-cased. *)
Lemma parse_s3_key_extra s3_key metadata extra :
  Items.parse_s3_key s3_key = Ok metadata ->
  Items.meta_extra metadata = Some extra ->
  Items.SEASON_DATE_RANGES !! Items.extra_season extra = Some (Items.extra_date_range extra) /\
  Items.SEASON_DATETIME_AVERAGES !! Items.extra_season extra = Some (Items.extra_datetime extra) /\
  exists raw,
    Py.split "_" (Items.item_id_from_s3_key s3_key) !! 2%nat = Some raw /\
    Items.extra_polarization extra = Py.upper raw.
Proof.
  unfold Items.parse_s3_key. rewrite split_upper.
  destruct (Py.split "_" (Items.item_id_from_s3_key s3_key))
    as [|t [|x [|y [|z [|? ?]]]]]; simpl; try discriminate.
  - destruct (bounding_box_from_tile_id _); simpl; [|discriminate].
    intros [= <-]. discriminate.
  - destruct (bounding_box_from_tile_id _); simpl; [|discriminate].
    destruct (Items.SEASON_DATE_RANGES !! Py.upper x) as [range|] eqn:Hr;
      simpl; [|discriminate].
    destruct (Items.SEASON_DATETIME_AVERAGES !! Py.upper x) as [avg|] eqn:Ha;
      simpl; [|discriminate].
    intros [= <-] [= <-]. simpl. eauto.
Qed.

(** C7: for a key that parses, the single-item builder raises only if the
    href cannot be joined; otherwise it returns an item that carries the
    outer mission range (winter start, fall end) as start_datetime and
    end_datetime when the key has no season, and with a season that season's
    range, the season's midpoint constant as datetime, the parsed season,
    and the one-element list of the upper-cased polarization. *)
Theorem item_temporal_properties (urljoin : string -> string -> res string)
    (s3_key s3_url : string) (metadata : Items.ItemMetadata) :
  Items.parse_s3_key s3_key = Ok metadata ->
  match urljoin s3_url s3_key with
  | Raise e => Items.create_stac_item urljoin s3_key s3_url = Raise e
  | Ok _ =>
      exists (item props : gmap string json),
        Items.create_stac_item urljoin s3_key s3_url = Ok item /\
        item !! "properties" = Some (JDict props) /\
        match Items.meta_extra metadata with
        | None =>
            exists winter fall,
              Items.SEASON_DATE_RANGES !! "WINTER" = Some winter /\
              Items.SEASON_DATE_RANGES !! "FALL" = Some fall /\
              props !! "start_datetime" = Some (JStr (Items.datetime_to_str (fst winter))) /\
              props !! "end_datetime" = Some (JStr (Items.datetime_to_str (snd fall))) /\
              props !! "datetime" = None /\
              props !! "season" = None /\
              props !! "sar:polarizations" = None
        | Some extra =>
            exists range avg raw,
              Items.SEASON_DATE_RANGES !! Items.extra_season extra = Some range /\
              Items.SEASON_DATETIME_AVERAGES !! Items.extra_season extra = Some avg /\
              Py.split "_" (Items.item_id_from_s3_key s3_key) !! 2%nat = Some raw /\
              props !! "start_datetime" = Some (JStr (Items.datetime_to_str (fst range))) /\
              props !! "end_datetime" = Some (JStr (Items.datetime_to_str (snd range))) /\
              props !! "datetime" = Some (JStr (Items.datetime_to_str avg)) /\
              props !! "season" = Some (JStr (Items.extra_season extra)) /\
              props !! "sar:polarizations" = Some (JList [JStr (Py.upper raw)])
        end
  end.
Proof.
  intros Hparse. unfold Items.create_stac_item. rewrite Hparse.
  cbn [rbind]. change (Items.SEASON_DATE_RANGES !! "WINTER")
    with (Some (Dt.date 2019 12 1, Dt.date 2020 2 28)).
  change (Items.SEASON_DATE_RANGES !! "FALL")
    with (Some (Dt.date 2020 9 1, Dt.date 2020 11 30)).
  cbn [from_option rbind].
  destruct (urljoin s3_url s3_key) as [href|e]; cbn [rbind]; [|reflexivity].
  eexists _, _. split; [reflexivity|]. split; [reflexivity|].
  destruct (Items.meta_extra metadata) as [extra|] eqn:Hextra.
  - destruct (parse_s3_key_extra _ _ _ Hparse Hextra) as (Hr & Ha & raw & Hraw & Hpol).
    exists (Items.extra_date_range extra), (Items.extra_datetime extra), raw.
    rewrite <- Hpol. repeat split; try assumption; reflexivity.
  - eexists _, _. repeat split; reflexivity.
Qed.

Lemma item_temporal_properties_witness :
  (exists item props : gmap string json,
     Items.create_stac_item append_urljoin
       "data/tiles/S78W078/S78W078_summer_hh_AMP.tif" "bar.com/" = Ok item /\
     item !! "properties" = Some (JDict props) /\
     props !! "start_datetime" = Some (JStr "2020-06-01T00:00:00Z") /\
     props !! "end_datetime" = Some (JStr "2020-08-31T00:00:00Z") /\
     props !! "datetime" = Some (JStr "2020-07-16T12:00:00Z") /\
     props !! "season" = Some (JStr "SUMMER") /\
     props !! "sar:polarizations" = Some (JList [JStr "HH"])) /\
  Items.create_stac_item bracket_urljoin
    "data/tiles/S78W078/S78W078_summer_hh_AMP.tif" "http://[" = Raise ValueError.
Proof.
  destruct (Items.parse_s3_key "data/tiles/S78W078/S78W078_summer_hh_AMP.tif")
    as [metadata|] eqn:Hparse; [|discriminate Hparse].
  split.
  - destruct (item_temporal_properties append_urljoin _ "bar.com/" _ Hparse)
      as (item & props & Hitem & Hprops & Hrest).
    exists item, props. split; [exact Hitem|]. split; [exact Hprops|].
    injection Hparse as <-. cbn [Items.meta_extra Items.extra_season] in Hrest.
    destruct Hrest as (range & avg & raw & Hr & Ha & Hraw & H1 & H2 & H3 & H4 & H5).
    injection Hr as <-. injection Ha as <-. injection Hraw as <-.
    repeat split; assumption.
  - exact (item_temporal_properties bracket_urljoin _ "http://[" _ Hparse).
Defined.



(** ** Comprehensions that may raise *)

Lemma rmap_Forall2 {A B} (f : A -> res B) l l' :
  rmap f l = Ok l' -> Forall2 (fun x y => f x = Ok y) l l'.
Proof.
  revert l'. induction l as [|x l IH]; intros l' H; simpl in H.
  - injection H as <-. constructor.
  - destruct (f x) as [y|] eqn:Hx; simpl in H; [|discriminate].
    destruct (rmap f l) as [ys|]; simpl in H; [|discriminate].
    injection H as <-. constructor; [exact Hx | apply IH; reflexivity].
Qed.


Lemma rmap_elem_of {A B} (f : A -> res B) l l' y :
  rmap f l = Ok l' -> y ∈ l' -> exists x, x ∈ l /\ f x = Ok y.
Proof.
  intros H Hy. apply rmap_Forall2 in H.
  induction H as [|x y' l l' Hxy H IH]; [inversion Hy|].
  apply elem_of_cons in Hy as [-> | Hy].
  - exists x. split; [left | exact Hxy].
  - destruct (IH Hy) as (x' & Hx' & Hf). exists x'. split; [right; exact Hx' | exact Hf].
Qed.

Lemma rmap_elem_of_l {A B} (f : A -> res B) l l' x :
  rmap f l = Ok l' -> x ∈ l -> exists y, y ∈ l' /\ f x = Ok y.
Proof.
  intros H Hx. apply rmap_Forall2 in H.
  induction H as [|x' y' l l' Hxy H IH]; [inversion Hx|].
  apply elem_of_cons in Hx as [-> | Hx].
  - exists y'. split; [left | exact Hxy].
  - destruct (IH Hx) as (y & Hy & Hf). exists y. split; [right; exact Hy | exact Hf].
Qed.

(** ** The safe collection builder *)

Section SafeBuilder.

Variable set_list : set_order.
Variable s3 : s3_client.
Variable bucket : string.

Let build (prefix : string) : res Coherence.Collection :=
  Coherence.create_tile_stac_collection set_list s3 bucket prefix
    Coherence.default_date_interval.







End SafeBuilder.



(** ** Items of the grouping builder *)

Lemma add_yearly_assets_frame l : forall item,
  Coherence.item_id (Coherence.add_yearly_assets l item) = Coherence.item_id item /\
  Coherence.item_properties (Coherence.add_yearly_assets l item) =
    Coherence.item_properties item /\
  Coherence.item_datetime (Coherence.add_yearly_assets l item) =
    Coherence.item_datetime item.
Proof.
  unfold Coherence.add_yearly_assets.
  induction l as [|a l IH]; intros item; simpl; [auto|].
  destruct (IH (Coherence.add_asset (Coherence.product a)
                  {| Coherence.href := Coherence.url a;
                     Coherence.media_type := Coherence.GEOTIFF;
                     Coherence.extra_fields := ∅ |} item)) as (-> & -> & ->).
  auto.
Qed.

Lemma add_seasonal_assets_frame l : forall item item',
  Coherence.add_seasonal_assets l item = Ok item' ->
  Coherence.item_id item' = Coherence.item_id item /\
  Coherence.item_properties item' = Coherence.item_properties item /\
  Coherence.item_datetime item' = Coherence.item_datetime item.
Proof.
  induction l as [|a l IH]; intros item item' H; simpl in H.
  - injection H as <-. auto.
  - destruct (Coherence.seasonal_asset a) as [[k e]|]; simpl in H; [|discriminate].
    destruct (IH _ _ H) as (-> & -> & ->). auto.
Qed.

(** What a successfully built item records about the asset it was named
    after, the first of its seasonal assets. *)
Lemma create_stac_item_inv set_list yearly seasonal item :
  Coherence.create_stac_item set_list yearly seasonal = Ok item ->
  exists ex seas range,
    head seasonal = Some ex /\
    Coherence.season ex = Some seas /\
    Coherence.date_range ex = Some range /\
    Coherence.item_id item = Coherence.tileid ex +:+ "_" +:+ seas /\
    Coherence.item_properties item !! "tileid" = Some (JStr (Coherence.tileid ex)) /\
    Coherence.item_properties item !! "season" = Some (JStr seas) /\
    Coherence.item_datetime item = Coherence.mid_date range.
Proof.
  unfold Coherence.create_stac_item. intros H.
  destruct (head seasonal) as [ex|] eqn:Hex; simpl in H; [|discriminate].
  destruct (Coherence.season ex) as [seas|] eqn:Hseas; simpl in H; [|discriminate].
  destruct (Coherence.date_range ex) as [range|] eqn:Hrange; simpl in H; [|discriminate].
  destruct (rmap _ seasonal) as [pols|]; simpl in H; [|discriminate].
  destruct (rmap Coherence.Polarization (set_list pols)) as [sar_pols|];
    simpl in H; [|discriminate].
  destruct (add_seasonal_assets_frame _ _ _ H) as (Hid & Hprops & Hdt).
  exists ex, seas, range.
  split; [reflexivity|]. split; [exact Hseas|]. split; [exact Hrange|].
  split; [|split; [|split]].
  - rewrite Hid, (proj1 (add_yearly_assets_frame _ _)). reflexivity.
  - rewrite Hprops, (proj1 (proj2 (add_yearly_assets_frame _ _))). reflexivity.
  - rewrite Hprops, (proj1 (proj2 (add_yearly_assets_frame _ _))). reflexivity.
  - rewrite Hdt, (proj2 (proj2 (add_yearly_assets_frame _ _))). reflexivity.
Qed.

(** The seasonal assets are added last, each through [seasonal_asset]. *)
Lemma create_stac_item_assets set_list yearly seasonal item :
  Coherence.create_stac_item set_list yearly seasonal = Ok item ->
  exists base, Coherence.add_seasonal_assets seasonal base = Ok item.
Proof.
  unfold Coherence.create_stac_item. intros H.
  destruct (head seasonal) as [ex|]; simpl in H; [|discriminate].
  destruct (Coherence.season ex) as [seas|]; simpl in H; [|discriminate].
  destruct (Coherence.date_range ex) as [range|]; simpl in H; [|discriminate].
  destruct (rmap _ seasonal) as [pols|]; simpl in H; [|discriminate].
  destruct (rmap Coherence.Polarization (set_list pols)) as [sar_pols|];
    simpl in H; [|discriminate].
  eexists. exact H.
Qed.

(** ** Collections *)

Lemma head_elem_of {A} (l : list A) x : head l = Some x -> x ∈ l.
Proof. destruct l; [discriminate|]. intros [= ->]. left. Qed.

Lemma filter_elem_of {A} (p : A -> bool) l x : x ∈ List.filter p l -> x ∈ l.
Proof.
  rewrite !list_elem_of_In, filter_In. intros [H _]. exact H.
Qed.

(** The collection is named after the first listed file, each item after
    the first file whose URL mentions the item's season. *)
Lemma create_tile_stac_collection_inv set_list s3 bucket prefix interval coll :
  Coherence.create_tile_stac_collection set_list s3 bucket prefix interval = Ok coll ->
  exists urls asset_dicts first,
    Coherence.get_object_urls s3 bucket prefix true = Ok urls /\
    rmap Coherence.parse_url urls = Ok asset_dicts /\
    head asset_dicts = Some first /\
    Coherence.coll_id coll = Coherence.tileid first /\
    Coherence.coll_temporal_extent coll = interval /\
    Forall (fun item =>
              exists ex seas,
                ex ∈ asset_dicts /\
                Coherence.item_id item = Coherence.tileid ex +:+ "_" +:+ seas /\
                Coherence.item_properties item !! "tileid" =
                  Some (JStr (Coherence.tileid ex)) /\
                Coherence.item_properties item !! "season" = Some (JStr seas))
      (Coherence.coll_items coll).
Proof.
  unfold Coherence.create_tile_stac_collection. intros H.
  destruct (Coherence.get_object_urls s3 bucket prefix true) as [urls|];
    cbn [rbind] in H; [|discriminate].
  destruct (rmap Coherence.parse_url urls) as [asset_dicts|] eqn:Hassets;
    cbn [rbind] in H; [|discriminate].
  destruct (rmap _ (List.filter _ asset_dicts)) as [seasons|];
    cbn [rbind] in H; [|discriminate].
  destruct (rmap _ (set_list seasons)) as [items|] eqn:Hitems;
    cbn [rbind] in H; [|discriminate].
  destruct (head asset_dicts) as [first|] eqn:Hfirst;
    cbn [rbind from_option] in H; [|discriminate].
  destruct (head items) as [item0|]; cbn [rbind from_option] in H; [|discriminate].
  injection H as <-. exists urls, asset_dicts, first.
  cbn [Coherence.coll_id Coherence.coll_items Coherence.coll_temporal_extent].
  repeat split; try reflexivity; try assumption.
  apply Forall_forall. intros item Hitem.
  destruct (rmap_elem_of _ _ _ _ Hitems Hitem) as (s & _ & Hbuild).
  apply create_stac_item_inv in Hbuild
    as (ex & seas & range & Hex & _ & _ & Hid & Htile & Hseason & _).
  exists ex, seas. split; [|auto].
  apply head_elem_of in Hex. apply filter_elem_of in Hex. exact Hex.
Qed.

(** C9, as stated, fails: the listing of one prefix may hold a file named
    after another tile, and the item built from it keeps that other tile. *)
Lemma item_of_another_tile :
  tile_ids
    (Coherence.create_tile_stac_collection gset_order mixed_bucket "bucket"
       "data/tiles/N00E005/" Coherence.default_date_interval) =
  Ok ("N00E005",
      [("N00E006_WINTER", Some (JStr "N00E006"));
       ("N00E005_FALL", Some (JStr "N00E005"))]).
Proof. vm_compute. reflexivity. Qed.

(** C9, amended: when every file listed under the prefix is named after
    one and the same tile, the collection's id is that tile and every child
    item carries it, in its id prefix and in its tileid property. *)
Theorem collection_items_share_tile (set_list : set_order) (s3 : s3_client)
    (bucket prefix : string) (interval : Dt.datetime * Dt.datetime)
    (urls : list string) (tile : string) (coll : Coherence.Collection) :
  Coherence.get_object_urls s3 bucket prefix true = Ok urls ->
  Forall (fun u => forall a, Coherence.parse_url u = Ok a -> Coherence.tileid a = tile) urls ->
  Coherence.create_tile_stac_collection set_list s3 bucket prefix interval = Ok coll ->
  Coherence.coll_id coll = tile /\
  Forall (fun item =>
            Coherence.item_properties item !! "tileid" =
              Some (JStr (Coherence.coll_id coll)) /\
            exists seas,
              Coherence.item_properties item !! "season" = Some (JStr seas) /\
              Coherence.item_id item = Coherence.coll_id coll +:+ "_" +:+ seas)
    (Coherence.coll_items coll).
Proof.
  intros Hurls Hsame Hbuild.
  apply create_tile_stac_collection_inv in Hbuild
    as (urls' & asset_dicts & first & Hurls' & Hassets & Hfirst & Hid & _ & Hitems).
  rewrite Hurls in Hurls'. injection Hurls' as <-.
  assert (Htile : forall a, a ∈ asset_dicts -> Coherence.tileid a = tile).
  { intros a Ha. destruct (rmap_elem_of _ _ _ _ Hassets Ha) as (u & Hu & Hparse).
    rewrite Forall_forall in Hsame. exact (Hsame u Hu a Hparse). }
  rewrite Hid, (Htile first (head_elem_of _ _ Hfirst)). split; [reflexivity|].
  eapply Forall_impl; [exact Hitems|].
  intros item (ex & seas & Hex & Hitem_id & Hprop & Hseason). simpl.
  rewrite (Htile ex Hex) in Hitem_id, Hprop. eauto.
Qed.

(** ** Asset entries of the grouping builder *)

Lemma split_no_sep sep s : forall w, w ∈ Py.split sep s -> has_char sep w = false.
Proof.
  induction s as [|c s IH]; intros w Hw; simpl in Hw.
  - apply list_elem_of_singleton in Hw as ->. reflexivity.
  - destruct (Ascii.eqb c sep) eqn:Hc.
    + apply elem_of_cons in Hw as [-> | Hw]; [reflexivity | apply IH, Hw].
    + destruct (Py.split sep s) as [|w0 ws].
      * apply list_elem_of_singleton in Hw as ->. simpl. rewrite Hc. reflexivity.
      * apply elem_of_cons in Hw as [-> | Hw].
        -- simpl. rewrite Hc. apply IH. left.
        -- apply IH. right. exact Hw.
Qed.

(** Keys [product_polarization] of underscore-free products determine the
    product and the polarization. *)
Lemma key_inj p1 : forall p2 q1 q2,
  has_char "_" p1 = false -> has_char "_" p2 = false ->
  p1 +:+ "_" +:+ q1 = p2 +:+ "_" +:+ q2 -> p1 = p2 /\ q1 = q2.
Proof.
  assert (Hnil : forall s, "" +:+ s = s) by reflexivity.
  assert (Hcons : forall c s t, String c s +:+ t = String c (s +:+ t)) by reflexivity.
  induction p1 as [|c p1 IH]; intros [|d p2] q1 q2 H1 H2 H;
    rewrite ?Hnil, ?Hcons, ?Hnil in H; cbn in H1, H2.
  - injection H as ->. auto.
  - injection H as <- _. discriminate.
  - injection H as -> _. discriminate.
  - injection H as -> H. apply orb_false_iff in H1 as [_ H1], H2 as [_ H2].
    destruct (IH _ _ _ H1 H2 H) as [-> ->]. auto.
Qed.

Lemma parse_url_product u a :
  Coherence.parse_url u = Ok a -> has_char "_" (Coherence.product a) = false.
Proof.
  unfold Coherence.parse_url.
  pose proof (split_no_sep "_" (Coherence.path_stem (Py.upper u))) as Hsplit.
  destruct (Py.split "_" (Coherence.path_stem (Py.upper u)))
    as [|t [|x [|y [|z [|? ?]]]]]; try discriminate.
  - destruct (tileid_to_bbox t); simpl; [|discriminate].
    intros [= <-]. simpl. apply Hsplit. do 2 right. left.
  - destruct (tileid_to_bbox t); simpl; [|discriminate].
    destruct (Coherence.getitem _); simpl; [|discriminate].
    intros [= <-]. simpl. apply Hsplit. do 3 right. left.
Qed.

Lemma seasonal_asset_inv a k entry :
  Coherence.seasonal_asset a = Ok (k, entry) ->
  exists pol,
    Coherence.polarization a = Some pol /\
    k = Coherence.product a +:+ "_" +:+ pol /\
    seasonal_fields_ok (Coherence.product a) pol entry.
Proof.
  unfold Coherence.seasonal_asset, seasonal_fields_ok.
  destruct (Coherence.polarization a) as [pol|]; simpl; [|discriminate].
  destruct (Py.contains "COH" (Coherence.product a)).
  - destruct (Py.int (Py.suffix 2 (Coherence.product a))) as [days|];
      simpl; [|discriminate].
    intros [= <- <-]. exists pol. split; [reflexivity|]. split; [reflexivity|].
    cbn [Coherence.extra_fields].
    split; [reflexivity|]. split; [reflexivity|].
    exists days. split; reflexivity.
  - simpl. intros [= <- <-]. exists pol. split; [reflexivity|]. split; [reflexivity|].
    cbn [Coherence.extra_fields]. repeat split; reflexivity.
Qed.

(** After the seasonal loop, the entry stored under a key is the one of the
    last seasonal asset with that key, if there is one. *)
Lemma add_seasonal_assets_lookup l : forall item item' k,
  Coherence.add_seasonal_assets l item = Ok item' ->
  (exists b entry,
     b ∈ l /\ Coherence.seasonal_asset b = Ok (k, entry) /\
     Coherence.item_assets item' !! k = Some entry) \/
  ((forall b entry, b ∈ l -> Coherence.seasonal_asset b <> Ok (k, entry)) /\
   Coherence.item_assets item' !! k = Coherence.item_assets item !! k).
Proof.
  induction l as [|a l IH]; intros item item' k H; simpl in H.
  - injection H as <-. right. split; [|reflexivity]. intros b entry Hb. inversion Hb.
  - destruct (Coherence.seasonal_asset a) as [[ka ea]|] eqn:Ha; simpl in H; [|discriminate].
    destruct (IH _ _ k H) as [(b & entry & Hb & Hsb & Hlook) | [Hnone Hlook]].
    + left. exists b, entry. split; [right; exact Hb | auto].
    + destruct (decide (ka = k)) as [-> | Hne].
      * left. exists a, ea. split; [left|]. split; [exact Ha|].
        rewrite Hlook. simpl. apply lookup_insert_eq.
      * right. split.
        -- intros b entry Hb Hsb. apply elem_of_cons in Hb as [-> | Hb].
           ++ rewrite Ha in Hsb. injection Hsb as -> _. apply Hne. reflexivity.
           ++ exact (Hnone b entry Hb Hsb).
        -- rewrite Hlook. simpl. apply lookup_insert_ne. exact Hne.
Qed.

Lemma add_seasonal_assets_each l : forall item item' a,
  Coherence.add_seasonal_assets l item = Ok item' -> a ∈ l ->
  exists k entry, Coherence.seasonal_asset a = Ok (k, entry).
Proof.
  induction l as [|x l IH]; intros item item' a H Ha; [inversion Ha|].
  simpl in H.
  destruct (Coherence.seasonal_asset x) as [[kx ex]|] eqn:Hx; simpl in H; [|discriminate].
  apply elem_of_cons in Ha as [-> | Ha]; [eauto | exact (IH _ _ _ H Ha)].
Qed.

(** C8, as stated, fails: for a product token that begins with COH and
    ends in the number 124, the entry records 24 days, the number read from
    the last two characters only. *)
Lemma coh_suffix_is_two_characters :
  exists a,
    Coherence.parse_url
      "https://bucket.s3.us-west-2.amazonaws.com/data/tiles/N00E005/N00E005_fall_vv_COH124.tif"
      = Ok a /\
    Coherence.product a = "COH124" /\
    Py.prefixb "COH" (Coherence.product a) = true /\
    Py.int (trailing_digits (Coherence.product a)) = Ok 124 /\
    asset_field (Coherence.create_stac_item gset_order [] [a])
      "COH124_VV" "temporal_separation" = Some (JStr "24 days").
Proof.
  eexists. split; [reflexivity|]. repeat split.
Qed.

(** C8, amended: in an item built from parsed assets, the entry keyed
    product_polarization of every seasonal asset records the polarization
    and, when the product token contains COH, the tag COH and as
    temporal_separation the integer read from the last two characters of
    the token followed by " days"; when the token does not contain COH, the
    entry records the token itself and no temporal_separation. *)
Theorem seasonal_asset_entries (set_list : set_order)
    (yearly seasonal : list Coherence.asset_dict) (item : Coherence.Item)
    (a : Coherence.asset_dict) :
  Forall (fun x => exists u, Coherence.parse_url u = Ok x) seasonal ->
  Coherence.create_stac_item set_list yearly seasonal = Ok item ->
  a ∈ seasonal ->
  exists pol entry,
    Coherence.polarization a = Some pol /\
    Coherence.item_assets item !! (Coherence.product a +:+ "_" +:+ pol) = Some entry /\
    Coherence.extra_fields entry !! "polarization" = Some (JStr pol) /\
    if Py.contains "COH" (Coherence.product a) then
      Coherence.extra_fields entry !! "product" = Some (JStr "COH") /\
      exists days,
        Py.int (Py.suffix 2 (Coherence.product a)) = Ok days /\
        Coherence.extra_fields entry !! "temporal_separation" =
          Some (JStr (Py.str_int days +:+ " days"))
    else
      Coherence.extra_fields entry !! "product" = Some (JStr (Coherence.product a)) /\
      Coherence.extra_fields entry !! "temporal_separation" = None.
Proof.
  intros Hparsed Hbuild Ha.
  destruct (create_stac_item_assets _ _ _ _ Hbuild) as [base Hadd].
  destruct (add_seasonal_assets_each _ _ _ _ Hadd Ha) as (k & e & Hsa).
  destruct (seasonal_asset_inv _ _ _ Hsa) as (pol & Hpol & -> & _).
  exists pol.
  destruct (add_seasonal_assets_lookup _ _ _ (Coherence.product a +:+ "_" +:+ pol) Hadd)
    as [(b & entry & Hb & Hsb & Hlook) | [Hnone _]].
  2:{ exfalso. exact (Hnone a e Ha Hsa). }
  exists entry. split; [exact Hpol|]. split; [exact Hlook|].
  destruct (seasonal_asset_inv _ _ _ Hsb) as (polb & _ & Hkey & Hfields).
  rewrite Forall_forall in Hparsed.
  destruct (Hparsed a Ha) as [ua Hua]. destruct (Hparsed b Hb) as [ub Hub].
  destruct (key_inj _ _ _ _ (parse_url_product _ _ Hua) (parse_url_product _ _ Hub) Hkey)
    as [Hprod <-].
  rewrite Hprod. exact Hfields.
Qed.

Lemma seasonal_asset_entries_witness :
  exists item entry,
    Coherence.create_stac_item gset_order [] [coh36_asset] = Ok item /\
    Coherence.item_assets item !! "COH36_VV" = Some entry /\
    Coherence.extra_fields entry !! "product" = Some (JStr "COH") /\
    Coherence.extra_fields entry !! "temporal_separation" = Some (JStr "36 days").
Proof.
  destruct (Coherence.create_stac_item gset_order [] [coh36_asset]) as [item|] eqn:Hbuild.
  2:{ assert (Hok : is_ok (Coherence.create_stac_item gset_order [] [coh36_asset]) = true)
        by (vm_compute; reflexivity).
      rewrite Hbuild in Hok. discriminate Hok. }
  assert (Hparsed : Forall (fun x => exists u, Coherence.parse_url u = Ok x) [coh36_asset]).
  { constructor; [|constructor]. exists coh36_url. vm_compute. reflexivity. }
  destruct (seasonal_asset_entries gset_order [] [coh36_asset] item coh36_asset
              Hparsed Hbuild ltac:(left))
    as (pol & entry & Hpol & Hlook & _ & Hfields).
  injection Hpol as <-. exists item, entry. split; [reflexivity|].
  split; [exact Hlook|].
  change (Py.contains "COH" (Coherence.product coh36_asset)) with true in Hfields.
  destruct Hfields as (Hprod & days & Hdays & Hsep).
  split; [exact Hprod|].
  change (Py.int (Py.suffix 2 (Coherence.product coh36_asset))) with (Ok (A:=Z) 36) in Hdays.
  injection Hdays as <-. exact Hsep.
Defined.

Lemma collection_items_share_tile_witness :
  exists coll,
    Coherence.create_tile_stac_collection gset_order sample_bucket "bucket"
      "data/tiles/N00E005/" Coherence.default_date_interval = Ok coll /\
    Coherence.coll_id coll = "N00E005" /\
    Forall (fun item =>
              Coherence.item_properties item !! "tileid" =
                Some (JStr (Coherence.coll_id coll)) /\
              exists seas,
                Coherence.item_properties item !! "season" = Some (JStr seas) /\
                Coherence.item_id item = Coherence.coll_id coll +:+ "_" +:+ seas)
      (Coherence.coll_items coll).
Proof.
  destruct (Coherence.create_tile_stac_collection gset_order sample_bucket "bucket"
              "data/tiles/N00E005/" Coherence.default_date_interval)
    as [coll|] eqn:Hbuild.
  2:{ assert (Hok : is_ok (Coherence.create_tile_stac_collection gset_order sample_bucket
                             "bucket" "data/tiles/N00E005/"
                             Coherence.default_date_interval) = true)
        by (vm_compute; reflexivity).
      rewrite Hbuild in Hok. discriminate Hok. }
  exists coll. split; [reflexivity|].
  apply (collection_items_share_tile gset_order sample_bucket "bucket"
           "data/tiles/N00E005/" Coherence.default_date_interval
           ["https://bucket.s3.us-west-2.amazonaws.com/data/tiles/N00E005/N00E005_124D_inc.tif";
            "https://bucket.s3.us-west-2.amazonaws.com/data/tiles/N00E005/N00E005_fall_vv_COH36.tif";
            "https://bucket.s3.us-west-2.amazonaws.com/data/tiles/N00E005/N00E005_fall_vh_AMP.tif"]
           "N00E005" coll).
  - vm_compute. reflexivity.
  - repeat constructor; intros a Ha; vm_compute in Ha; injection Ha as <-; reflexivity.
  - exact Hbuild.
Defined.

(** ** The publisher *)

Section Publisher.

Variable urljoin : string -> string -> res string.
Variable fmt : formatter.
Variable Server : Type.
Variable respond : Ingest.request -> Server -> res Z * Server.

Let add := Ingest.add_stac_object urljoin fmt Server respond.
Let run := Ingest.main urljoin fmt Server respond.

Lemma raise_for_status_spec status :
  (400 <= status < 600 -> Ingest.raise_for_status status = Raise HTTPError) /\
  (~ 400 <= status < 600 -> Ingest.raise_for_status status = Ok tt).
Proof.
  unfold Ingest.raise_for_status.
  destruct (400 <=? status) eqn:H1, (status <? 600) eqn:H2; simpl; split; intros H;
    try reflexivity; exfalso; lia.
Qed.

(** One object whose URL can be joined: its id is printed, it is POSTed
    once, and it is PUT once, to the same URL, exactly when the POST is
    answered 409; the status of the last response decides. *)
Lemma add_stac_object_run stac_object api_url w id endpoint url :
  stac_object !! "id" = Some id ->
  Ingest.get_endpoint fmt stac_object = Ok endpoint ->
  urljoin api_url endpoint = Ok url ->
  let post := Ingest.Request Ingest.POST url stac_object in
  let put := Ingest.Request Ingest.PUT url stac_object in
  let printed := (Ingest.trace w ++ [Ingest.Printed id])%list in
  add stac_object api_url w =
  match respond post (Ingest.server w) with
  | (Raise e, s1) => (Raise e, Ingest.World s1 (printed ++ [Ingest.Sent post]))
  | (Ok status, s1) =>
      if status =? 409 then
        match respond put s1 with
        | (Raise e, s2) =>
            (Raise e, Ingest.World s2 ((printed ++ [Ingest.Sent post]) ++ [Ingest.Sent put]))
        | (Ok status2, s2) =>
            (Ingest.raise_for_status status2,
             Ingest.World s2 ((printed ++ [Ingest.Sent post]) ++ [Ingest.Sent put]))
        end
      else (Ingest.raise_for_status status,
            Ingest.World s1 (printed ++ [Ingest.Sent post]))
  end.
Proof.
  intros Hid Hend Hurl. cbv zeta.
  unfold add, Ingest.add_stac_object, Ingest.io_bind, Ingest.lift, Ingest.print,
    Ingest.send, Ingest.io_ret.
  rewrite Hid, Hend, Hurl. cbn [from_option Ingest.server Ingest.trace].
  destruct (respond _ (Ingest.server w)) as [[status|e] s1]; [|reflexivity].
  destruct (status =? 409); [|reflexivity].
  cbn [Ingest.server Ingest.trace].
  destruct (respond _ s1) as [[status2|e] s2]; reflexivity.
Qed.

(** One object whose URL cannot be joined: its id is printed, the exception
    of the join is raised, and nothing is sent. *)
Lemma add_stac_object_no_url stac_object api_url w id endpoint e :
  stac_object !! "id" = Some id ->
  Ingest.get_endpoint fmt stac_object = Ok endpoint ->
  urljoin api_url endpoint = Raise e ->
  add stac_object api_url w =
  (Raise e, Ingest.World (Ingest.server w) (Ingest.trace w ++ [Ingest.Printed id])).
Proof.
  intros Hid Hend Hurl.
  unfold add, Ingest.add_stac_object, Ingest.io_bind, Ingest.lift, Ingest.print.
  rewrite Hid, Hend, Hurl. reflexivity.
Qed.

(** The loop stops at the first object that raises. *)
Lemma main_stops stac_object rest api_url w e w' :
  add stac_object api_url w = (Raise e, w') ->
  run api_url (stac_object :: rest) w = (Raise e, w').
Proof.
  intros H. unfold run. simpl. unfold Ingest.io_bind. fold add. rewrite H. reflexivity.
Qed.

Lemma main_continues stac_object rest api_url w w' :
  add stac_object api_url w = (Ok tt, w') ->
  run api_url (stac_object :: rest) w = run api_url rest w'.
Proof.
  intros H. unfold run. simpl. unfold Ingest.io_bind. fold add. rewrite H. reflexivity.
Qed.

End Publisher.

Lemma get_endpoint_spec (fmt : formatter) (stac_object : gmap string json) :
  (stac_object !! "type" = Some (JStr "Catalog") \/
   stac_object !! "type" = Some (JStr "Collection") ->
   Ingest.get_endpoint fmt stac_object = Ok "/collections") /\
  (forall c,
     stac_object !! "type" = Some (JStr "Feature") ->
     stac_object !! "collection" = Some (JStr c) ->
     Ingest.get_endpoint fmt stac_object = Ok ("/collections/" +:+ c +:+ "/items")).
Proof.
  unfold Ingest.get_endpoint. split.
  - intros [-> | ->]; reflexivity.
  - intros c -> ->. cbn [from_option rbind]. rewrite format_str. reflexivity.
Qed.

(** C4, as stated, fails: when the first object of a batch is answered 500
    the run raises there, and the second object is neither printed nor
    sent. *)
Lemma failed_object_stops_batch :
  Ingest.main append_urljoin str_formatter unit (Ingest.constant_server 500)
    "http://stac" [feature_a; collection_b] (Ingest.World tt []) =
  (Raise HTTPError,
   Ingest.World tt
     [Ingest.Printed (JStr "a");
      Ingest.Sent (Ingest.Request Ingest.POST "http://stac/collections/c1/items" feature_a)]).
Proof. vm_compute. reflexivity. Qed.

(** C4, amended: an object of type Catalog or Collection goes to
    /collections and one of type Feature to
    /collections/{collectionId}/items; when the URL of that endpoint under
    the API URL can be joined, the object is POSTed once and, exactly when
    the POST is answered 409, PUT once to the same URL; a last status from
    400 to 599 raises HTTPError and any other status is accepted; when the
    URL cannot be joined the exception of the join is raised and nothing is
    sent; no exception is caught, so the run stops at the first object that
    raises and goes on to the next object only after one that succeeds. *)
Theorem publish_protocol (urljoin : string -> string -> res string) (fmt : formatter)
    (Server : Type) (respond : Ingest.request -> Server -> res Z * Server) :
  (forall stac_object,
     (stac_object !! "type" = Some (JStr "Catalog") \/
      stac_object !! "type" = Some (JStr "Collection") ->
      Ingest.get_endpoint fmt stac_object = Ok "/collections") /\
     (forall c,
        stac_object !! "type" = Some (JStr "Feature") ->
        stac_object !! "collection" = Some (JStr c) ->
        Ingest.get_endpoint fmt stac_object = Ok ("/collections/" +:+ c +:+ "/items"))) /\
  (forall stac_object api_url w id endpoint url,
     stac_object !! "id" = Some id ->
     Ingest.get_endpoint fmt stac_object = Ok endpoint ->
     urljoin api_url endpoint = Ok url ->
     let post := Ingest.Request Ingest.POST url stac_object in
     let put := Ingest.Request Ingest.PUT url stac_object in
     let printed := (Ingest.trace w ++ [Ingest.Printed id])%list in
     Ingest.add_stac_object urljoin fmt Server respond stac_object api_url w =
     match respond post (Ingest.server w) with
     | (Raise e, s1) => (Raise e, Ingest.World s1 (printed ++ [Ingest.Sent post]))
     | (Ok status, s1) =>
         if status =? 409 then
           match respond put s1 with
           | (Raise e, s2) =>
               (Raise e,
                Ingest.World s2 ((printed ++ [Ingest.Sent post]) ++ [Ingest.Sent put]))
           | (Ok status2, s2) =>
               (Ingest.raise_for_status status2,
                Ingest.World s2 ((printed ++ [Ingest.Sent post]) ++ [Ingest.Sent put]))
           end
         else (Ingest.raise_for_status status,
               Ingest.World s1 (printed ++ [Ingest.Sent post]))
     end) /\
  (forall stac_object api_url w id endpoint e,
     stac_object !! "id" = Some id ->
     Ingest.get_endpoint fmt stac_object = Ok endpoint ->
     urljoin api_url endpoint = Raise e ->
     Ingest.add_stac_object urljoin fmt Server respond stac_object api_url w =
     (Raise e, Ingest.World (Ingest.server w) (Ingest.trace w ++ [Ingest.Printed id]))) /\
  (forall status,
     (400 <= status < 600 -> Ingest.raise_for_status status = Raise HTTPError) /\
     (~ 400 <= status < 600 -> Ingest.raise_for_status status = Ok tt)) /\
  (forall stac_object rest api_url w e w',
     Ingest.add_stac_object urljoin fmt Server respond stac_object api_url w = (Raise e, w') ->
     Ingest.main urljoin fmt Server respond api_url (stac_object :: rest) w = (Raise e, w')) /\
  (forall stac_object rest api_url w w',
     Ingest.add_stac_object urljoin fmt Server respond stac_object api_url w = (Ok tt, w') ->
     Ingest.main urljoin fmt Server respond api_url (stac_object :: rest) w =
     Ingest.main urljoin fmt Server respond api_url rest w').
Proof.
  split; [exact (get_endpoint_spec fmt)|].
  split; [exact (add_stac_object_run urljoin fmt Server respond)|].
  split; [exact (add_stac_object_no_url urljoin fmt Server respond)|].
  split; [exact raise_for_status_spec|].
  split; [exact (main_stops urljoin fmt Server respond)
         | exact (main_continues urljoin fmt Server respond)].
Qed.

Lemma publish_protocol_witness :
  Ingest.get_endpoint str_formatter feature_a = Ok "/collections/c1/items" /\
  Ingest.add_stac_object append_urljoin str_formatter unit (Ingest.conflict_server 200)
    feature_a "http://stac" (Ingest.World tt []) =
  (Ok tt,
   Ingest.World tt
     [Ingest.Printed (JStr "a");
      Ingest.Sent (Ingest.Request Ingest.POST "http://stac/collections/c1/items" feature_a);
      Ingest.Sent (Ingest.Request Ingest.PUT "http://stac/collections/c1/items" feature_a)]) /\
  Ingest.main append_urljoin str_formatter unit (Ingest.constant_server 404)
    "http://stac" [collection_b; feature_a] (Ingest.World tt []) =
  (Raise HTTPError,
   Ingest.World tt
     [Ingest.Printed (JStr "b");
      Ingest.Sent (Ingest.Request Ingest.POST "http://stac/collections" collection_b)]) /\
  Ingest.main bracket_urljoin str_formatter unit (Ingest.constant_server 200)
    "http://[" [collection_b; feature_a] (Ingest.World tt []) =
  (Raise ValueError, Ingest.World tt [Ingest.Printed (JStr "b")]).
Proof.
  destruct (publish_protocol append_urljoin str_formatter unit (Ingest.conflict_server 200))
    as (Hend & Hadd & _).
  destruct (publish_protocol append_urljoin str_formatter unit (Ingest.constant_server 404))
    as (Hend' & Hadd' & _ & Hstatus & Hstop & _).
  destruct (publish_protocol bracket_urljoin str_formatter unit (Ingest.constant_server 200))
    as (_ & _ & Hnourl & _ & Hstop' & _).
  assert (He : Ingest.get_endpoint str_formatter feature_a = Ok "/collections/c1/items").
  { apply (proj2 (Hend feature_a) "c1"); reflexivity. }
  split; [exact He|]. split; [|split].
  - rewrite (Hadd feature_a "http://stac" (Ingest.World tt []) (JStr "a")
               "/collections/c1/items" "http://stac/collections/c1/items" eq_refl He eq_refl).
    reflexivity.
  - apply Hstop.
    rewrite (Hadd' collection_b "http://stac" (Ingest.World tt []) (JStr "b")
               "/collections" "http://stac/collections" eq_refl
               (proj1 (Hend' collection_b) (or_intror eq_refl)) eq_refl).
    cbn [Ingest.constant_server Ingest.server Z.eqb Pos.eqb].
    rewrite (proj1 (Hstatus 404)); [reflexivity | lia].
  - apply Hstop'.
    exact (Hnourl collection_b "http://[" (Ingest.World tt []) (JStr "b")
             "/collections" ValueError eq_refl
             (proj1 (Hend' collection_b) (or_intror eq_refl)) eq_refl).
Defined.

(** * Further properties of the code *)

(** ** Tiles are unit squares, and boxes name their tile *)

(** Whatever the token, a decoded box is one degree wide and one degree
    high. *)
Theorem decoded_box_is_unit_square (t : string) (b : box) :
  bounding_box_from_tile_id t = Ok b \/ tileid_to_bbox t = Ok b ->
  max_x b = min_x b + 1 /\ max_y b = min_y b + 1.
Proof.
  unfold bounding_box_from_tile_id, tileid_to_bbox.
  destruct (Py.index 0 t) as [c0|], (Py.int (Py.slice 1 3 t)) as [lat|],
    (Py.index 3 t) as [c3|], (Py.int (Py.slice 4 7 t)) as [lon|];
    cbn [rbind]; intros [H | H]; try discriminate H;
    injection H as <-; cbn [min_x min_y max_x max_y]; lia.
Qed.

Lemma decoded_box_is_unit_square_witness :
  max_x (Box (-161) (-79) (-160) (-78)) = min_x (Box (-161) (-79) (-160) (-78)) + 1 /\
  max_y (Box (-161) (-79) (-160) (-78)) = min_y (Box (-161) (-79) (-160) (-78)) + 1.
Proof.
  apply (decoded_box_is_unit_square "S78W161"). left. reflexivity.
Defined.

Lemma digit_of_char c d :
  Py.digit_of c = Some d -> c = ascii_of_nat (48 + Z.to_nat d).
Proof.
  destruct c as [[] [] [] [] [] [] [] []]; vm_compute; intros H;
    try discriminate H; injection H as <-; reflexivity.
Qed.

Lemma digit_of_inj a b d :
  Py.digit_of a = Some d -> Py.digit_of b = Some d -> a = b.
Proof.
  intros Ha Hb. rewrite (digit_of_char _ _ Ha), (digit_of_char _ _ Hb). reflexivity.
Qed.

(** Away from the equator and the prime meridian a box names one token
    only; but N00 and S00, and E000 and W000, decode to the same box. *)
Theorem decoded_box_names_its_tile :
  (forall t1 t2 b,
     tile_pattern t1 = true -> tile_pattern t2 = true ->
     bounding_box_from_tile_id t1 = Ok b -> bounding_box_from_tile_id t2 = Ok b ->
     max_y b <> 0 -> min_x b <> 0 -> t1 = t2) /\
  bounding_box_from_tile_id "N00E005" = bounding_box_from_tile_id "S00E005" /\
  bounding_box_from_tile_id "N49E000" = bounding_box_from_tile_id "N49W000".
Proof.
  split; [|split; reflexivity].
  intros t1 t2 b H1 H2.
  apply tile_pattern_inv in H1
    as (ns & a & b1 & ew & c & d & e & va & vb & vc & vd & ve & -> & Hns & Hew & Ha & Hb & Hc & Hd & He).
  apply tile_pattern_inv in H2
    as (ns' & a' & b1' & ew' & c' & d' & e' & va' & vb' & vc' & vd' & ve' & -> & Hns' & Hew' & Ha' & Hb' & Hc' & Hd' & He').
  rewrite (bounding_box_digits _ _ _ _ _ _ _ _ _ _ _ _ _ Ha Hb Hc Hd He).
  rewrite (bounding_box_digits _ _ _ _ _ _ _ _ _ _ _ _ _ Ha' Hb' Hc' Hd' He').
  intros [= <-] [= Hx Hy _ Hmy] Hlat Hlon. cbn [tile_box max_y min_x] in Hlat, Hlon.
  destruct (digit_of_plain _ _ Ha) as (_ & _ & _ & ?), (digit_of_plain _ _ Hb) as (_ & _ & _ & ?),
    (digit_of_plain _ _ Hc) as (_ & _ & _ & ?), (digit_of_plain _ _ Hd) as (_ & _ & _ & ?),
    (digit_of_plain _ _ He) as (_ & _ & _ & ?), (digit_of_plain _ _ Ha') as (_ & _ & _ & ?),
    (digit_of_plain _ _ Hb') as (_ & _ & _ & ?), (digit_of_plain _ _ Hc') as (_ & _ & _ & ?),
    (digit_of_plain _ _ Hd') as (_ & _ & _ & ?), (digit_of_plain _ _ He') as (_ & _ & _ & ?).
  assert (Hlatv : ns = ns' /\ va = va' /\ vb = vb').
  { destruct Hns as [-> | ->], Hns' as [-> | ->]; cbn in Hmy, Hlat;
      (split; [reflexivity || (exfalso; lia) | lia]). }
  assert (Hlonv : ew = ew' /\ vc = vc' /\ vd = vd' /\ ve = ve').
  { destruct Hew as [-> | ->], Hew' as [-> | ->]; cbn in Hx, Hlon;
      (split; [reflexivity || (exfalso; lia) | lia]). }
  destruct Hlatv as (-> & -> & ->), Hlonv as (-> & -> & -> & ->).
  rewrite (digit_of_inj _ _ _ Ha Ha'), (digit_of_inj _ _ _ Hb Hb'),
    (digit_of_inj _ _ _ Hc Hc'), (digit_of_inj _ _ _ Hd Hd'), (digit_of_inj _ _ _ He He').
  reflexivity.
Qed.

Lemma decoded_box_names_its_tile_witness :
  "S78W161" = token "S" "7" "8" "W" "1" "6" "1" "".
Proof.
  destruct decoded_box_names_its_tile as [H _].
  apply (H _ _ (Box (-161) (-79) (-160) (-78))); try reflexivity; discriminate.
Defined.

(** ** Item ids and parsed keys *)

Lemma split_nonempty sep s : Py.split sep s <> [].
Proof.
  destruct s as [|c s]; simpl; [discriminate|].
  destruct (Ascii.eqb c sep); [discriminate|].
  destruct (Py.split sep s); discriminate.
Qed.

(** A piece of [s.split(sep)] holds no character that [s] does not hold. *)
Lemma split_has_char sep c s : forall w,
  w ∈ Py.split sep s -> has_char c w = true -> has_char c s = true.
Proof.
  induction s as [|a s IH]; intros w Hw Hc; simpl in Hw.
  - apply list_elem_of_singleton in Hw as ->. discriminate Hc.
  - simpl. destruct (Ascii.eqb a sep) eqn:Ha.
    + apply elem_of_cons in Hw as [-> | Hw]; [discriminate Hc|].
      rewrite (IH _ Hw Hc). apply orb_true_r.
    + destruct (Py.split sep s) as [|w0 ws].
      * apply list_elem_of_singleton in Hw as ->. simpl in Hc.
        rewrite orb_false_r in Hc. rewrite Hc. reflexivity.
      * apply elem_of_cons in Hw as [-> | Hw].
        -- simpl in Hc. apply orb_true_iff in Hc as [Hc | Hc].
           ++ rewrite Hc. reflexivity.
           ++ rewrite (IH w0 ltac:(left) Hc). apply orb_true_r.
        -- rewrite (IH w ltac:(right; exact Hw) Hc). apply orb_true_r.
Qed.

Lemma last_elem_of {A} (l : list A) d : l <> [] -> List.last l d ∈ l.
Proof.
  induction l as [|x [|y l] IH]; intros H; [congruence | left |].
  right. apply IH. discriminate.
Qed.

Lemma hd_elem_of {A} (l : list A) d : l <> [] -> List.hd d l ∈ l.
Proof. destruct l; [congruence | left]. Qed.

Lemma item_id_has_no_separator_aux (s3_key : string) :
  has_char "/" (Items.item_id_from_s3_key s3_key) = false /\
  has_char "." (Items.item_id_from_s3_key s3_key) = false.
Proof.
  unfold Items.item_id_from_s3_key.
  pose proof (last_elem_of (Py.split "/" s3_key) "" (split_nonempty _ _)) as Hbase.
  set (basename := List.last (Py.split "/" s3_key) "") in *.
  pose proof (hd_elem_of (Py.split "." basename) "" (split_nonempty _ _)) as Hid.
  split; [|exact (split_no_sep _ _ _ Hid)].
  destruct (has_char "/" (List.hd "" (Py.split "." basename))) eqn:Hc; [|reflexivity].
  rewrite <- (split_no_sep _ _ _ Hbase). symmetry.
  exact (split_has_char _ _ _ _ Hid Hc).
Qed.

Lemma season_ranges_keys (s : string) :
  is_Some (Items.SEASON_DATE_RANGES !! s) <->
  s ∈ ["WINTER"; "SPRING"; "SUMMER"; "FALL"].
Proof.
  unfold Items.SEASON_DATE_RANGES.
  rewrite !lookup_insert_is_Some, lookup_singleton_is_Some.
  rewrite !elem_of_cons, elem_of_nil. split.
  - intros [<- | [_ [<- | [_ [<- | [_ <-]]]]]]; auto 6.
  - intros H.
    repeat (destruct H as [-> | H];
            [repeat first [reflexivity | left; reflexivity | right; split; [discriminate|]]|]).
    destruct H.
Qed.

Lemma season_averages_keys (s : string) :
  is_Some (Items.SEASON_DATETIME_AVERAGES !! s) <->
  s ∈ ["WINTER"; "SPRING"; "SUMMER"; "FALL"].
Proof.
  unfold Items.SEASON_DATETIME_AVERAGES.
  rewrite !lookup_insert_is_Some, lookup_singleton_is_Some.
  rewrite !elem_of_cons, elem_of_nil. split.
  - intros [<- | [_ [<- | [_ [<- | [_ <-]]]]]]; auto 6.
  - intros H.
    repeat (destruct H as [-> | H];
            [repeat first [reflexivity | left; reflexivity | right; split; [discriminate|]]|]).
    destruct H.
Qed.

(** A key parses only if its item id has three or four tokens; the record
    keeps the id as written and every token upper-cased, the box is the
    decoded tile token, and season metadata is present exactly for four
    tokens. *)
Theorem parse_s3_key_shape (s3_key : string) (metadata : Items.ItemMetadata) :
  Items.parse_s3_key s3_key = Ok metadata ->
  Items.meta_id metadata = Items.item_id_from_s3_key s3_key /\
  bounding_box_from_tile_id (Items.meta_tileid metadata) = Ok (Items.meta_bbox metadata) /\
  ((exists tile orbit prod,
      Py.split "_" (Items.item_id_from_s3_key s3_key) = [tile; orbit; prod] /\
      Items.meta_tileid metadata = Py.upper tile /\
      Items.meta_product metadata = Py.upper prod /\
      Items.meta_extra metadata = None) \/
   (exists tile seas pol prod extra,
      Py.split "_" (Items.item_id_from_s3_key s3_key) = [tile; seas; pol; prod] /\
      Items.meta_tileid metadata = Py.upper tile /\
      Items.meta_product metadata = Py.upper prod /\
      Items.meta_extra metadata = Some extra /\
      Items.extra_season extra = Py.upper seas /\
      Items.extra_polarization extra = Py.upper pol /\
      Items.extra_season extra ∈ ["WINTER"; "SPRING"; "SUMMER"; "FALL"])).
Proof.
  unfold Items.parse_s3_key. rewrite split_upper.
  destruct (Py.split "_" (Items.item_id_from_s3_key s3_key))
    as [|t [|x [|y [|z [|? ?]]]]]; simpl; try discriminate.
  - destruct (bounding_box_from_tile_id (Py.upper t)) as [b|] eqn:Hb;
      simpl; [|discriminate].
    intros [= <-]. simpl. split; [reflexivity|]. split; [exact Hb|].
    left. exists t, x, y. auto.
  - destruct (bounding_box_from_tile_id (Py.upper t)) as [b|] eqn:Hb;
      simpl; [|discriminate].
    destruct (Items.SEASON_DATE_RANGES !! Py.upper x) as [range|] eqn:Hr;
      simpl; [|discriminate].
    destruct (Items.SEASON_DATETIME_AVERAGES !! Py.upper x) as [avg|];
      simpl; [|discriminate].
    intros [= <-]. simpl. split; [reflexivity|]. split; [exact Hb|].
    right. eexists t, x, y, z, _.
    do 6 (split; [reflexivity|]).
    apply season_ranges_keys. simpl. rewrite Hr. eauto.
Qed.

Lemma parse_s3_key_shape_witness :
  Py.split "_" (Items.item_id_from_s3_key "data/tiles/N00E011/N00E011_winter_vv_COH36.tif")
    = ["N00E011"; "winter"; "vv"; "COH36"] /\
  exists metadata,
    Items.parse_s3_key "data/tiles/N00E011/N00E011_winter_vv_COH36.tif" = Ok metadata /\
    Items.meta_id metadata = "N00E011_winter_vv_COH36" /\
    bounding_box_from_tile_id (Items.meta_tileid metadata) = Ok (Items.meta_bbox metadata).
Proof.
  split; [reflexivity|].
  destruct (Items.parse_s3_key "data/tiles/N00E011/N00E011_winter_vv_COH36.tif")
    as [metadata|] eqn:Hparse; [|discriminate Hparse].
  exists metadata. split; [reflexivity|].
  destruct (parse_s3_key_shape _ _ Hparse) as (Hid & Hbox & _).
  split; [exact Hid | exact Hbox].
Defined.

(** How a key fails to parse: with a token count other than three or four
    (ValueError), with the decoder's exception when the tile token is not
    decoded, and with KeyError for four tokens whose second, upper-cased, is
    not one of the four season names. *)
Theorem parse_s3_key_failures (s3_key : string) :
  let tokens := Py.split "_" (Items.item_id_from_s3_key s3_key) in
  (length tokens <> 3%nat -> length tokens <> 4%nat ->
   Items.parse_s3_key s3_key = Raise ValueError) /\
  (forall e,
     length tokens = 3%nat \/ length tokens = 4%nat ->
     bounding_box_from_tile_id (Py.upper (List.hd "" tokens)) = Raise e ->
     Items.parse_s3_key s3_key = Raise e) /\
  (forall tile seas pol prod,
     tokens = [tile; seas; pol; prod] ->
     is_ok (bounding_box_from_tile_id (Py.upper tile)) = true ->
     Py.upper seas ∉ ["WINTER"; "SPRING"; "SUMMER"; "FALL"] ->
     Items.parse_s3_key s3_key = Raise KeyError).
Proof.
  cbv zeta. unfold Items.parse_s3_key. rewrite split_upper.
  destruct (Py.split "_" (Items.item_id_from_s3_key s3_key))
    as [|t [|x [|y [|z [|? ?]]]]]; simpl;
    (split; [intros H3 H4; try reflexivity; congruence|]);
    (split; [intros e [H | H] He; try discriminate H; rewrite He; reflexivity|]);
    intros tile seas pol prod Htok Hok Hseason; try discriminate Htok.
  injection Htok as -> -> -> ->.
  destruct (bounding_box_from_tile_id (Py.upper tile)); [|discriminate Hok]. simpl.
  destruct (Items.SEASON_DATE_RANGES !! Py.upper seas) as [range|] eqn:Hr; [|reflexivity].
  exfalso. apply Hseason, season_ranges_keys. rewrite Hr. eauto.
Qed.

Lemma parse_s3_key_failures_witness :
  Items.parse_s3_key "N00E005.tif" = Raise ValueError /\
  Items.parse_s3_key "tile_124D_inc.tif" = Raise ValueError /\
  Items.parse_s3_key "N00E005_autumn_vv_AMP.tif" = Raise KeyError.
Proof.
  split; [|split].
  - apply (proj1 (parse_s3_key_failures "N00E005.tif")); discriminate.
  - apply (proj1 (proj2 (parse_s3_key_failures "tile_124D_inc.tif")));
      [left|]; reflexivity.
  - apply (proj2 (proj2 (parse_s3_key_failures "N00E005_autumn_vv_AMP.tif"))
             "N00E005" "autumn" "vv" "AMP"); [reflexivity | reflexivity |].
    rewrite !elem_of_cons, elem_of_nil. vm_compute. intros [H|[H|[H|[H|[]]]]]; discriminate H.
Defined.

Lemma parse_s3_key_meta_id s3_key metadata :
  Items.parse_s3_key s3_key = Ok metadata ->
  Items.meta_id metadata = Items.item_id_from_s3_key s3_key.
Proof.
  unfold Items.parse_s3_key.
  destruct (Py.split "_" (Py.upper (Items.item_id_from_s3_key s3_key)))
    as [|t [|x [|y [|z [|? ?]]]]]; try discriminate.
  - destruct (bounding_box_from_tile_id t); simpl; [|discriminate].
    intros [= <-]. reflexivity.
  - destruct (bounding_box_from_tile_id t); simpl; [|discriminate].
    destruct (Items.SEASON_DATE_RANGES !! x); simpl; [|discriminate].
    destruct (Items.SEASON_DATETIME_AVERAGES !! x); simpl; [|discriminate].
    intros [= <-]. reflexivity.
Qed.

(** The single-item builder fails as the parser does on a key that does not
    parse, and as the join does when the key parses and the href cannot be
    joined. Otherwise the item is a Feature named after the item id, in the
    fixed collection, with the box of the tile and one asset DATA whose href
    is the join of the base URL and the key; the publisher routes every such
    item to the items endpoint of that collection. *)
Theorem created_item_is_routable (urljoin : string -> string -> res string)
    (s3_key s3_url : string) :
  match Items.parse_s3_key s3_key with
  | Raise e => Items.create_stac_item urljoin s3_key s3_url = Raise e
  | Ok metadata =>
      match urljoin s3_url s3_key with
      | Raise e => Items.create_stac_item urljoin s3_key s3_url = Raise e
      | Ok href =>
          exists item : gmap string json,
            Items.create_stac_item urljoin s3_key s3_url = Ok item /\
            item !! "type" = Some (JStr "Feature") /\
            item !! "id" = Some (JStr (Items.item_id_from_s3_key s3_key)) /\
            item !! "collection" = Some (JStr "sentinel-1-global-coherence") /\
            item !! "bbox" = Some (bounds_json (Items.meta_bbox metadata)) /\
            item !! "geometry" = Some (mapping (Items.meta_bbox metadata)) /\
            item !! "assets" =
              Some (JDict {[ "DATA" :=
                               JDict {[ "href" := JStr href;
                                        "type" := JStr "image/tiff; application=geotiff" ]} ]}) /\
            forall fmt : formatter,
              Ingest.get_endpoint fmt item =
                Ok "/collections/sentinel-1-global-coherence/items"
      end
  end.
Proof.
  unfold Items.create_stac_item.
  destruct (Items.parse_s3_key s3_key) as [metadata|e] eqn:Hparse; [|reflexivity].
  cbn [rbind].
  change (Items.SEASON_DATE_RANGES !! "WINTER")
    with (Some (Dt.date 2019 12 1, Dt.date 2020 2 28)).
  change (Items.SEASON_DATE_RANGES !! "FALL")
    with (Some (Dt.date 2020 9 1, Dt.date 2020 11 30)).
  cbn [from_option rbind].
  destruct (urljoin s3_url s3_key) as [href|e]; cbn [rbind]; [|reflexivity].
  rewrite <- (parse_s3_key_meta_id _ _ Hparse).
  eexists. split; [reflexivity|].
  do 6 (split; [reflexivity|]).
  intros fmt. unfold Ingest.get_endpoint.
  match goal with
  | |- context [from_option KeyError (?m !! "type")] =>
      change (m !! "type") with (Some (JStr "Feature"));
      change (m !! "collection") with (Some (JStr Items.COLLECTION_ID))
  end.
  cbn [from_option rbind]. rewrite format_str. reflexivity.
Qed.

(** ** Writing the items to files *)

Lemma create_stac_item_id urljoin s3_key s3_url item :
  Items.create_stac_item urljoin s3_key s3_url = Ok item ->
  item !! "id" = Some (JStr (Items.item_id_from_s3_key s3_key)).
Proof.
  unfold Items.create_stac_item.
  destruct (Items.parse_s3_key s3_key) as [metadata|e] eqn:Hparse; [|discriminate].
  cbn [rbind].
  change (Items.SEASON_DATE_RANGES !! "WINTER")
    with (Some (Dt.date 2019 12 1, Dt.date 2020 2 28)).
  change (Items.SEASON_DATE_RANGES !! "FALL")
    with (Some (Dt.date 2020 9 1, Dt.date 2020 11 30)).
  cbn [from_option rbind].
  destruct (urljoin s3_url s3_key) as [href|e]; cbn [rbind]; [|discriminate].
  rewrite <- (parse_s3_key_meta_id _ _ Hparse).
  intros [= <-]. reflexivity.
Qed.

(** The builder returns an item exactly when the key parses and the href
    can be joined. *)
Lemma create_stac_item_ok urljoin s3_key s3_url :
  is_ok (Items.create_stac_item urljoin s3_key s3_url) =
  (is_ok (Items.parse_s3_key s3_key) && is_ok (urljoin s3_url s3_key))%bool.
Proof.
  unfold Items.create_stac_item.
  destruct (Items.parse_s3_key s3_key); [|reflexivity]. cbn [rbind].
  change (Items.SEASON_DATE_RANGES !! "WINTER")
    with (Some (Dt.date 2019 12 1, Dt.date 2020 2 28)).
  change (Items.SEASON_DATE_RANGES !! "FALL")
    with (Some (Dt.date 2020 9 1, Dt.date 2020 11 30)).
  cbn [from_option rbind].
  destruct (urljoin s3_url s3_key); reflexivity.
Qed.

Lemma create_stac_item_raise urljoin s3_key s3_url e :
  Items.parse_s3_key s3_key = Raise e ->
  Items.create_stac_item urljoin s3_key s3_url = Raise e.
Proof. unfold Items.create_stac_item. intros ->. reflexivity. Qed.

Lemma create_stac_item_no_href urljoin s3_key s3_url e :
  is_ok (Items.parse_s3_key s3_key) = true ->
  urljoin s3_url s3_key = Raise e ->
  Items.create_stac_item urljoin s3_key s3_url = Raise e.
Proof.
  unfold Items.create_stac_item.
  destruct (Items.parse_s3_key s3_key); [|discriminate]. intros _ Hurl. cbn [rbind].
  change (Items.SEASON_DATE_RANGES !! "WINTER")
    with (Some (Dt.date 2019 12 1, Dt.date 2020 2 28)).
  change (Items.SEASON_DATE_RANGES !! "FALL")
    with (Some (Dt.date 2020 9 1, Dt.date 2020 11 30)).
  cbn [from_option rbind]. rewrite Hurl. reflexivity.
Qed.

Lemma item_file_path s3_key :
  Items.os_path_join "stac-items" (Items.item_id_from_s3_key s3_key +:+ ".json") =
  item_path s3_key.
Proof.
  unfold Items.os_path_join, item_path.
  destruct (item_id_has_no_separator_aux s3_key) as [Hslash _].
  destruct (Items.item_id_from_s3_key s3_key) as [|c id]; [reflexivity|].
  cbn in Hslash. apply orb_false_iff in Hslash as [Hc _].
  change (Py.prefixb "/" (String c id +:+ ".json")) with (Ascii.eqb "/" c && true)%bool.
  rewrite Ascii.eqb_sym, Hc. reflexivity.
Qed.

Section WriteItemsFacts.

Variable urljoin : string -> string -> res string.
Variable FS : Type.
Variable path_exists : string -> FS -> bool.
Variable mkdir : string -> FS -> res unit * FS.
Variable dump : string -> gmap string json -> FS -> res unit * FS.

Let loop := Items.write_loop urljoin FS dump "stac-items".

Lemma json_file_name_created s3_key s3_url item :
  Items.create_stac_item urljoin s3_key s3_url = Ok item ->
  Items.json_file_name item = Ok (Items.item_id_from_s3_key s3_key +:+ ".json").
Proof.
  intros H. unfold Items.json_file_name.
  rewrite (create_stac_item_id _ _ _ _ H). reflexivity.
Qed.

(** Whatever the loop dumps is the item of one of its keys, in that key's
    file. *)
Lemma write_loop_dumps total s3_url s3_keys : forall count st r st',
  loop total count s3_keys s3_url st = (r, st') ->
  exists evs,
    Items.log st' = (Items.log st ++ evs)%list /\
    forall path item,
      Items.Dumped path item ∈ evs ->
      exists s3_key,
        s3_key ∈ s3_keys /\
        Items.create_stac_item urljoin s3_key s3_url = Ok item /\
        path = item_path s3_key.
Proof.
  unfold loop.
  induction s3_keys as [|k keys IH]; intros count st r st' H; simpl in H.
  - injection H as <- <-. exists []. rewrite app_nil_r. split; [reflexivity|].
    intros path item Hin. inversion Hin.
  - destruct (Items.create_stac_item urljoin k s3_url) as [item|e] eqn:Hitem.
    2:{ injection H as <- <-. eexists. split; [reflexivity|].
        intros path item Hin. apply list_elem_of_singleton in Hin. discriminate Hin. }
    rewrite (json_file_name_created _ _ _ Hitem), item_file_path in H.
    cbn [Items.disk Items.log] in H.
    destruct (dump (item_path k) item (Items.disk st)) as [[[]|e] d].
    + apply IH in H as (evs & Hlog & Hevs). cbn [Items.log] in Hlog.
      eexists. split; [rewrite Hlog, <- !app_assoc; reflexivity|].
      intros path item' Hin. rewrite !elem_of_app, !list_elem_of_singleton in Hin.
      destruct Hin as [Hin | [Hin | Hin]]; [discriminate Hin | |].
      * injection Hin as -> ->. exists k. split; [left | auto].
      * destruct (Hevs _ _ Hin) as (k' & Hk' & Hc & Hp).
        exists k'. split; [right; exact Hk' | auto].
    + injection H as <- <-. cbn [Items.log].
      eexists. split; [rewrite <- app_assoc; reflexivity|].
      intros path item' Hin. rewrite elem_of_app, !list_elem_of_singleton in Hin.
      destruct Hin as [Hin | Hin]; [discriminate Hin|].
      injection Hin as -> ->. exists k. split; [left | auto].
Qed.

(** With a file system that accepts every dump, the loop runs through the
    keys that parse and whose href can be joined, one file each. *)
Lemma write_loop_good total s3_url good rest :
  (forall p i d, (dump p i d).1 = Ok tt) ->
  Forall (fun k => is_ok (Items.parse_s3_key k) = true /\
                   is_ok (urljoin s3_url k) = true) good ->
  forall count st,
  exists st1,
    loop total count (good ++ rest)%list s3_url st =
      loop total (count + length good)%nat rest s3_url st1 /\
    dumped_paths (Items.log st1) =
      (dumped_paths (Items.log st) ++ List.map item_path good)%list.
Proof.
  intros Hdump Hgood. unfold loop.
  induction Hgood as [|k good Hk _ IH]; intros count st.
  - exists st. simpl. rewrite Nat.add_0_r, app_nil_r. auto.
  - simpl. pose proof (create_stac_item_ok urljoin k s3_url) as Hok.
    rewrite (proj1 Hk), (proj2 Hk) in Hok.
    destruct (Items.create_stac_item urljoin k s3_url) as [item|e] eqn:Hitem;
      [|discriminate Hok].
    rewrite (json_file_name_created _ _ _ Hitem), item_file_path.
    cbn [Items.disk Items.log].
    pose proof (Hdump (item_path k) item (Items.disk st)) as Hd.
    destruct (dump (item_path k) item (Items.disk st)) as [r d]. simpl in Hd. subst r.
    match goal with
    | |- context [Items.write_loop _ _ _ _ _ _ _ _ ?s] =>
        destruct (IH (S count) s) as (st1 & Hrun & Hpaths)
    end.
    exists st1. split.
    + rewrite Hrun. f_equal. lia.
    + rewrite Hpaths. cbn [Items.log]. unfold dumped_paths.
      rewrite !omap_app. simpl. rewrite app_nil_r, <- app_assoc. reflexivity.
Qed.

End WriteItemsFacts.

(** Every file that a run of [write_stac_items] dumps is the item of one of
    the given keys, written to stac-items/{item id}.json: directly in that
    directory, since the file name holds no slash. The log only grows. *)
Theorem write_stac_items_dumps (urljoin : string -> string -> res string) (FS : Type)
    (path_exists : string -> FS -> bool) (mkdir : string -> FS -> res unit * FS)
    (dump : string -> gmap string json -> FS -> res unit * FS)
    (s3_keys : list string) (s3_url : string) (st : Items.run_state FS) :
  exists evs,
    Items.log (Items.write_stac_items urljoin FS path_exists mkdir dump s3_keys s3_url st).2 =
      (Items.log st ++ evs)%list /\
    forall path item,
      Items.Dumped path item ∈ evs ->
      exists s3_key,
        s3_key ∈ s3_keys /\
        Items.create_stac_item urljoin s3_key s3_url = Ok item /\
        path = "stac-items/" +:+ Items.item_id_from_s3_key s3_key +:+ ".json" /\
        has_char "/" (Items.item_id_from_s3_key s3_key +:+ ".json") = false.
Proof.
  assert (Hname : forall k, has_char "/" (Items.item_id_from_s3_key k +:+ ".json") = false).
  { intros k. destruct (item_id_has_no_separator_aux k) as [H _].
    induction (Items.item_id_from_s3_key k) as [|c id IH]; [reflexivity|].
    cbn in H. apply orb_false_iff in H as [Hc H].
    change (has_char "/" (String c id +:+ ".json"))
      with (Ascii.eqb c "/" || has_char "/" (id +:+ ".json"))%bool.
    rewrite Hc, (IH H). reflexivity. }
  unfold Items.write_stac_items.
  destruct (path_exists "stac-items" (Items.disk st)).
  - destruct (Items.write_loop urljoin FS dump "stac-items" (length s3_keys) 1 s3_keys s3_url st)
      as [r st'] eqn:Hrun.
    apply write_loop_dumps in Hrun as (evs & Hlog & Hevs).
    exists evs. split; [exact Hlog|].
    intros path item Hin. destruct (Hevs _ _ Hin) as (k & Hk & Hc & Hp).
    exists k. auto.
  - destruct (mkdir "stac-items" (Items.disk st)) as [[[]|e] d].
    + match goal with
      | |- context [Items.write_loop _ _ _ _ _ _ _ _ ?s] =>
          destruct (Items.write_loop urljoin FS dump "stac-items" (length s3_keys) 1
                      s3_keys s3_url s) as [r st'] eqn:Hrun
      end.
      apply write_loop_dumps in Hrun as (evs & Hlog & Hevs). cbn [Items.log] in Hlog.
      eexists. split; [cbn [snd]; rewrite Hlog, <- app_assoc; reflexivity|].
      intros path item Hin. rewrite elem_of_app, list_elem_of_singleton in Hin.
      destruct Hin as [Hin | Hin]; [discriminate Hin|].
      destruct (Hevs _ _ Hin) as (k & Hk & Hc & Hp). exists k. auto.
    + eexists. split; [reflexivity|].
      intros path item Hin. apply list_elem_of_singleton in Hin. discriminate Hin.
Qed.

Lemma dumped_paths_app evs1 evs2 :
  dumped_paths (evs1 ++ evs2) = (dumped_paths evs1 ++ dumped_paths evs2)%list.
Proof. unfold dumped_paths. apply omap_app. Qed.

(** On a file system that accepts every call, the run writes one file per
    key, in order, as long as the keys parse and their hrefs can be joined;
    it succeeds when that holds of all keys, and at the first key that does
    not parse, or whose href cannot be joined, it raises the exception of
    the parser, or of the join: the files of the earlier keys stay written
    and neither that key nor a later one is written. *)
Theorem write_stac_items_stops_at_bad_key (urljoin : string -> string -> res string)
    (FS : Type) (path_exists : string -> FS -> bool)
    (mkdir : string -> FS -> res unit * FS)
    (dump : string -> gmap string json -> FS -> res unit * FS)
    (good : list string) (s3_url : string) (st : Items.run_state FS) :
  (forall p d, (mkdir p d).1 = Ok tt) ->
  (forall p i d, (dump p i d).1 = Ok tt) ->
  Forall (fun k => is_ok (Items.parse_s3_key k) = true /\
                   is_ok (urljoin s3_url k) = true) good ->
  let run := fun keys =>
    Items.write_stac_items urljoin FS path_exists mkdir dump keys s3_url st in
  let written := (dumped_paths (Items.log st) ++
                  List.map (fun k => "stac-items/" +:+ Items.item_id_from_s3_key k +:+ ".json")
                    good)%list in
  ((run good).1 = Ok tt /\ dumped_paths (Items.log (run good).2) = written) /\
  (forall bad rest e,
     Items.parse_s3_key bad = Raise e ->
     (run (good ++ bad :: rest)%list).1 = Raise e /\
     dumped_paths (Items.log (run (good ++ bad :: rest)%list).2) = written) /\
  (forall bad rest e,
     is_ok (Items.parse_s3_key bad) = true ->
     urljoin s3_url bad = Raise e ->
     (run (good ++ bad :: rest)%list).1 = Raise e /\
     dumped_paths (Items.log (run (good ++ bad :: rest)%list).2) = written).
Proof.
  intros Hmkdir Hdump Hgood run written.
  assert (Hstart : exists st0,
            dumped_paths (Items.log st0) = dumped_paths (Items.log st) /\
            forall keys, run keys =
              Items.write_loop urljoin FS dump "stac-items" (length keys) 1 keys s3_url st0).
  { unfold run, Items.write_stac_items.
    destruct (path_exists "stac-items" (Items.disk st)).
    - exists st. split; reflexivity.
    - pose proof (Hmkdir "stac-items" (Items.disk st)) as Hm.
      destruct (mkdir "stac-items" (Items.disk st)) as [r d]. simpl in Hm. subst r.
      eexists. split; [|reflexivity]. cbn [Items.log].
      rewrite dumped_paths_app, app_nil_r. reflexivity. }
  destruct Hstart as (st0 & Hpaths0 & Hrun). subst written. rewrite <- Hpaths0.
  change (fun k => "stac-items/" +:+ Items.item_id_from_s3_key k +:+ ".json") with item_path.
  assert (Hstop : forall bad rest e,
            Items.create_stac_item urljoin bad s3_url = Raise e ->
            (run (good ++ bad :: rest)%list).1 = Raise e /\
            dumped_paths (Items.log (run (good ++ bad :: rest)%list).2) =
              (dumped_paths (Items.log st0) ++ List.map item_path good)%list).
  { intros bad rest e Hbad. rewrite Hrun.
    destruct (write_loop_good urljoin FS dump (length (good ++ bad :: rest)) s3_url good
                (bad :: rest) Hdump Hgood 1%nat st0) as (st1 & Hloop & Hpaths).
    rewrite Hloop. simpl. rewrite Hbad. simpl.
    split; [reflexivity|].
    rewrite dumped_paths_app, app_nil_r. exact Hpaths. }
  split; [|split].
  - rewrite Hrun.
    destruct (write_loop_good urljoin FS dump (length good) s3_url good [] Hdump Hgood 1%nat st0)
      as (st1 & Hloop & Hpaths).
    rewrite app_nil_r in Hloop. rewrite Hloop. simpl. auto.
  - intros bad rest e Hbad. apply Hstop, create_stac_item_raise, Hbad.
  - intros bad rest e Hparse Hurl. apply Hstop, create_stac_item_no_href; assumption.
Qed.

Lemma write_stac_items_stops_at_bad_key_witness :
  let run := fun keys =>
    Items.write_stac_items bracket_urljoin (gset string) plain_exists plain_mkdir plain_dump
      keys "foo.com/" (Items.RunState ∅ []) in
  let first := run ["data/tiles/N00E005/N00E005_124D_inc.tif"; "other/N00E005_fall_vv_AMP.tif";
                    "bad.tif"; "other/N00E005_fall_vh_AMP.tif"] in
  let second := run ["data/tiles/N00E005/N00E005_124D_inc.tif"; "other/N00E005_fall_vv_AMP.tif";
                     "//[/N00E005_124D_inc.tif"; "other/N00E005_fall_vh_AMP.tif"] in
  (first.1 = Raise ValueError /\
   dumped_paths (Items.log first.2) =
     ["stac-items/N00E005_124D_inc.json"; "stac-items/N00E005_fall_vv_AMP.json"]) /\
  (is_ok (Items.parse_s3_key "//[/N00E005_124D_inc.tif") = true /\
   second.1 = Raise ValueError /\
   dumped_paths (Items.log second.2) =
     ["stac-items/N00E005_124D_inc.json"; "stac-items/N00E005_fall_vv_AMP.json"]).
Proof.
  assert (Hgood : Forall (fun k => is_ok (Items.parse_s3_key k) = true /\
                                   is_ok (bracket_urljoin "foo.com/" k) = true)
                    ["data/tiles/N00E005/N00E005_124D_inc.tif";
                     "other/N00E005_fall_vv_AMP.tif"]).
  { repeat constructor. }
  pose proof (write_stac_items_stops_at_bad_key bracket_urljoin (gset string)
                plain_exists plain_mkdir plain_dump
                ["data/tiles/N00E005/N00E005_124D_inc.tif"; "other/N00E005_fall_vv_AMP.tif"]
                "foo.com/" (Items.RunState ∅ [])
                (fun p d => eq_refl) (fun p i d => eq_refl) Hgood) as (_ & Hparse & Hjoin).
  split.
  - exact (Hparse "bad.tif" ["other/N00E005_fall_vh_AMP.tif"] ValueError eq_refl).
  - split; [reflexivity|].
    exact (Hjoin "//[/N00E005_124D_inc.tif" ["other/N00E005_fall_vh_AMP.tif"] ValueError
             eq_refl eq_refl).
Defined.

(** ** Strings: appending, splitting, searching *)

Lemma sapp_nil (s : string) : "" +:+ s = s.
Proof. reflexivity. Qed.

Lemma sapp_cons c (s t : string) : String c s +:+ t = String c (s +:+ t).
Proof. reflexivity. Qed.

Lemma sapp_assoc (a b c : string) : (a +:+ b) +:+ c = a +:+ (b +:+ c).
Proof.
  induction a as [|x a IH]; [reflexivity|]. rewrite !sapp_cons, IH. reflexivity.
Qed.

Lemma slength_app (a b : string) :
  String.length (a +:+ b) = (String.length a + String.length b)%nat.
Proof.
  induction a as [|x a IH]; [reflexivity|]. rewrite sapp_cons. simpl. rewrite IH. reflexivity.
Qed.

Lemma has_char_app c (a b : string) :
  has_char c (a +:+ b) = (has_char c a || has_char c b)%bool.
Proof.
  induction a as [|x a IH]; [reflexivity|].
  rewrite sapp_cons. simpl. rewrite IH, orb_assoc. reflexivity.
Qed.

Lemma upper_app (a b : string) : Py.upper (a +:+ b) = Py.upper a +:+ Py.upper b.
Proof.
  unfold Py.upper. induction a as [|x a IH]; [reflexivity|].
  rewrite sapp_cons. simpl. rewrite IH. reflexivity.
Qed.

Lemma upper_length s : String.length (Py.upper s) = String.length s.
Proof. unfold Py.upper. induction s as [|c s IH]; simpl; congruence. Qed.

Lemma upper_char_slash c : Ascii.eqb (Py.upper_char c) "/" = Ascii.eqb c "/".
Proof. destruct c as [[] [] [] [] [] [] [] []]; reflexivity. Qed.

Lemma upper_char_dot c : Ascii.eqb (Py.upper_char c) "." = Ascii.eqb c ".".
Proof. destruct c as [[] [] [] [] [] [] [] []]; reflexivity. Qed.

Lemma upper_has_char sep s :
  (forall c, Ascii.eqb (Py.upper_char c) sep = Ascii.eqb c sep) ->
  has_char sep (Py.upper s) = has_char sep s.
Proof.
  intros Hsep. unfold Py.upper. induction s as [|c s IH]; [reflexivity|].
  simpl. rewrite Hsep, IH. reflexivity.
Qed.

(** Upper-casing commutes with splitting at a character it leaves alone. *)
Lemma split_upper_at sep s :
  (forall c, Ascii.eqb (Py.upper_char c) sep = Ascii.eqb c sep) ->
  Py.split sep (Py.upper s) = List.map Py.upper (Py.split sep s).
Proof.
  intros Hsep. induction s as [|c s IH]; [reflexivity|].
  unfold Py.upper in *. simpl. rewrite Hsep.
  destruct (Ascii.eqb c sep); simpl; rewrite IH; [reflexivity|].
  destruct (Py.split sep s); reflexivity.
Qed.

Lemma split_app_sep sep (a b : string) :
  Py.split sep (a +:+ String sep b) = (Py.split sep a ++ Py.split sep b)%list.
Proof.
  induction a as [|x a IH].
  - rewrite sapp_nil. simpl. rewrite Ascii.eqb_refl. reflexivity.
  - rewrite sapp_cons. simpl. rewrite IH.
    destruct (Ascii.eqb x sep); [reflexivity|].
    pose proof (split_nonempty sep a) as Hne.
    destruct (Py.split sep a); [congruence | reflexivity].
Qed.

(** A string that splits in two is its two pieces around the separator. *)
Lemma split_two sep s : forall a b,
  Py.split sep s = [a; b] ->
  s = a +:+ String sep b /\ has_char sep a = false /\ has_char sep b = false.
Proof.
  induction s as [|c s IH]; intros a b H; simpl in H; [discriminate|].
  destruct (Ascii.eqb c sep) eqn:Hc.
  - injection H as <- Hb. apply Ascii.eqb_eq in Hc as ->.
    assert (Hs : b ∈ Py.split sep s) by (rewrite Hb; left).
    pose proof (split_no_sep _ _ _ Hs) as Hnb.
    assert (s = b).
    { clear -Hb. revert b Hb. induction s as [|d s IH]; intros b Hb; simpl in Hb.
      - injection Hb as <-. reflexivity.
      - destruct (Ascii.eqb d sep).
        { injection Hb as _ Hb. exfalso. exact (split_nonempty _ _ Hb). }
        pose proof (split_nonempty sep s) as Hne.
        destruct (Py.split sep s) as [|w [|? ?]] eqn:Hs; try discriminate; [congruence|].
        injection Hb as <-. f_equal. apply IH. reflexivity. }
    subst. auto.
  - destruct (Py.split sep s) as [|w [|w' [|? ?]]] eqn:Hs; try discriminate.
    injection H as <- <-. destruct (IH _ _ eq_refl) as (-> & Ha & Hb).
    rewrite sapp_cons. simpl. rewrite Hc, Ha. auto.
Qed.

Lemma rfind_none c s : has_char c s = false -> Coherence.rfind c s = None.
Proof.
  induction s as [|a s IH]; [reflexivity|]. simpl.
  intros H. apply orb_false_iff in H as [Ha Hs]. rewrite (IH Hs), Ha. reflexivity.
Qed.

Lemma rfind_app c (a b : string) :
  has_char c b = false ->
  Coherence.rfind c (a +:+ String c b) = Some (String.length a).
Proof.
  intros Hb. induction a as [|x a IH].
  - rewrite sapp_nil. simpl. rewrite (rfind_none _ _ Hb), Ascii.eqb_refl. reflexivity.
  - rewrite sapp_cons. simpl. rewrite IH. reflexivity.
Qed.

Lemma stake_app (a b : string) : Py.stake (String.length a) (a +:+ b) = a.
Proof.
  induction a as [|x a IH]; [destruct b; reflexivity|].
  rewrite sapp_cons. simpl. rewrite IH. reflexivity.
Qed.

Lemma last_app_singleton {A} (l : list A) x d : List.last (l ++ [x]) d = x.
Proof. apply List.last_last. Qed.

Lemma last_filter_end {A} (p : A -> bool) (l : list A) x d :
  p x = true -> List.last (List.filter p (l ++ [x])) d = x.
Proof.
  intros Hx. rewrite List.filter_app. simpl. rewrite Hx. apply List.last_last.
Qed.

Lemma list_last_decompose {A} (l : list A) d :
  l <> [] -> l = (List.removelast l ++ [List.last l d])%list.
Proof. intros H. apply List.app_removelast_last. exact H. Qed.

(** ** The two parsers read a file the same way *)

Lemma construct_url_shape s3 bucket key u :
  Coherence.construct_url s3 bucket key = Ok u ->
  exists pre, u = pre +:+ String "/" key.
Proof.
  unfold Coherence.construct_url.
  destruct (get_bucket_location s3 bucket) as [location|]; simpl; [|discriminate].
  intros [= <-].
  exists ("https://" +:+ bucket +:+ ".s3." +:+ location +:+ ".amazonaws.com").
  rewrite !sapp_assoc. reflexivity.
Qed.

(** For a file name with one dot, [name.ext], at the end of a URL, the stem
    of the upper-cased URL is the upper-cased name. *)
Lemma path_stem_of_url pre key name ext :
  Py.split "." (List.last (Py.split "/" key) "") = [name; ext] ->
  name <> "" -> ext <> "" ->
  Coherence.path_stem (Py.upper (pre +:+ String "/" key)) = Py.upper name.
Proof.
  intros Hsplit Hname Hext.
  destruct (split_two _ _ _ _ Hsplit) as (Hbase & _ & Hdot).
  set (ub := Py.upper name +:+ String "." (Py.upper ext)).
  assert (Hub : Py.upper (List.last (Py.split "/" key) "") = ub).
  { rewrite Hbase, upper_app. reflexivity. }
  assert (Hlen : (String.length ub = String.length name + S (String.length ext))%nat).
  { unfold ub. rewrite slength_app. simpl. rewrite !upper_length. reflexivity. }
  assert (Hn : (0 < String.length name)%nat) by (destruct name; [congruence | simpl; lia]).
  assert (He : (0 < String.length ext)%nat) by (destruct ext; [congruence | simpl; lia]).
  assert (Hname_ok : Coherence.path_name (Py.upper (pre +:+ String "/" key)) = ub).
  { unfold Coherence.path_name.
    rewrite upper_app.
    change (Py.upper (String "/" key)) with (String "/" (Py.upper key)).
    rewrite split_app_sep, (split_upper_at "/" key upper_char_slash).
    rewrite (list_last_decompose (Py.split "/" key) "" (split_nonempty _ _)) at 1.
    rewrite map_app. simpl. rewrite Hub, app_assoc.
    apply last_filter_end.
    apply negb_true_iff, orb_false_iff. split; apply String.eqb_neq; intros Heq;
      rewrite Heq in Hlen; simpl in Hlen; lia. }
  unfold Coherence.path_stem. rewrite Hname_ok. unfold ub.
  rewrite rfind_app.
  2:{ rewrite (upper_has_char "." ext upper_char_dot). exact Hdot. }
  fold ub. rewrite Hlen, upper_length.
  replace (Nat.ltb 0 (String.length name)) with true by (symmetry; apply Nat.ltb_lt; lia).
  replace (Nat.ltb (String.length name) (String.length name + S (String.length ext) - 1))
    with true by (symmetry; apply Nat.ltb_lt; lia).
  simpl. unfold ub. rewrite <- (upper_length name). apply stake_app.
Qed.

Lemma item_id_of_name key name ext :
  Py.split "." (List.last (Py.split "/" key) "") = [name; ext] ->
  Items.item_id_from_s3_key key = name.
Proof. unfold Items.item_id_from_s3_key. intros ->. reflexivity. Qed.

Lemma decoders_ok_agree t :
  is_ok (bounding_box_from_tile_id t) = is_ok (tileid_to_bbox t).
Proof. destruct (decoders_ok_iff_slices t) as [-> ->]. reflexivity. Qed.

(** A key whose file name has one dot, and the URL that [construct_url]
    builds for it, parse alike: both parsers fail or both succeed, then with
    the same tile, product, season, polarization and date range, the URL
    kept as given, and the same box when the tile token has the pattern. *)
Theorem parsers_agree (s3 : s3_client) (bucket key u name ext : string) :
  Coherence.construct_url s3 bucket key = Ok u ->
  Py.split "." (List.last (Py.split "/" key) "") = [name; ext] ->
  name <> "" -> ext <> "" ->
  match Items.parse_s3_key key, Coherence.parse_url u with
  | Ok m, Ok a =>
      Coherence.url a = u /\
      Coherence.tileid a = Items.meta_tileid m /\
      Coherence.product a = Items.meta_product m /\
      (tile_pattern (Coherence.tileid a) = true -> Coherence.bbox a = Items.meta_bbox m) /\
      Coherence.season a = Items.extra_season <$> Items.meta_extra m /\
      Coherence.polarization a = Items.extra_polarization <$> Items.meta_extra m /\
      Coherence.date_range a = Items.extra_date_range <$> Items.meta_extra m
  | Raise _, Raise _ => True
  | _, _ => False
  end.
Proof.
  intros Hurl Hsplit Hname Hext.
  destruct (construct_url_shape _ _ _ _ Hurl) as [pre ->].
  unfold Items.parse_s3_key, Coherence.parse_url.
  rewrite (path_stem_of_url pre key name ext Hsplit Hname Hext).
  rewrite (item_id_of_name _ _ _ Hsplit).
  destruct (Py.split "_" (Py.upper name)) as [|t [|x [|y [|z [|? ?]]]]]; try exact I.
  - pose proof (decoders_ok_agree t) as Hok. pose proof (decoders_agree t) as Hsame.
    destruct (bounding_box_from_tile_id t) as [b|], (tileid_to_bbox t) as [b'|];
      try discriminate Hok; simpl; [|exact I].
    repeat split. intros Hp. symmetry. injection (Hsame Hp) as ->. reflexivity.
  - pose proof (decoders_ok_agree t) as Hok. pose proof (decoders_agree t) as Hsame.
    destruct (bounding_box_from_tile_id t) as [b|], (tileid_to_bbox t) as [b'|];
      try discriminate Hok; simpl; [|exact I].
    change Coherence.SEASONS with Items.SEASON_DATE_RANGES.
    destruct (Items.SEASON_DATE_RANGES !! x) as [range|] eqn:Hr; simpl; [|exact I].
    assert (Ha : is_Some (Items.SEASON_DATETIME_AVERAGES !! x)).
    { apply season_averages_keys, season_ranges_keys. rewrite Hr. eauto. }
    destruct Ha as [avg ->]. simpl.
    repeat split. intros Hp. symmetry. injection (Hsame Hp) as ->. reflexivity.
Qed.

Lemma parsers_agree_witness :
  match Items.parse_s3_key "data/tiles/S78W078/S78W078_summer_hh_AMP.tif",
        Coherence.parse_url
          "https://bucket.s3.us-west-2.amazonaws.com/data/tiles/S78W078/S78W078_summer_hh_AMP.tif"
  with
  | Ok m, Ok a =>
      Coherence.tileid a = Items.meta_tileid m /\
      Coherence.bbox a = Items.meta_bbox m /\
      Coherence.season a = Items.extra_season <$> Items.meta_extra m
  | _, _ => False
  end.
Proof.
  pose proof (parsers_agree (fixed_bucket "us-west-2" []) "bucket"
                "data/tiles/S78W078/S78W078_summer_hh_AMP.tif" _
                "S78W078_summer_hh_AMP" "tif" eq_refl eq_refl
                ltac:(discriminate) ltac:(discriminate)) as H.
  destruct (Items.parse_s3_key "data/tiles/S78W078/S78W078_summer_hh_AMP.tif") as [m|];
    destruct (Coherence.parse_url _) as [a|] eqn:Ha; try exact H.
  - destruct H as (_ & Ht & _ & Hb & Hs & _). split; [exact Ht|]. split; [|exact Hs].
    apply Hb. vm_compute in Ha. injection Ha as <-. reflexivity.
  - vm_compute in Ha. discriminate Ha.
Defined.

(** ** More on the items of the grouping builder *)

Lemma rmap_Polarization l l' :
  rmap Coherence.Polarization l = Ok l' ->
  l' = l /\ Forall (fun p => p ∈ ["HH"; "VV"; "HV"; "VH"]) l.
Proof.
  revert l'. induction l as [|x l IH]; intros l' H; simpl in H.
  - injection H as <-. split; [reflexivity | constructor].
  - unfold Coherence.Polarization at 1 in H.
    destruct (existsb (String.eqb x) ["HH"; "VV"; "HV"; "VH"]) eqn:Hx; simpl in H;
      [|discriminate].
    destruct (rmap Coherence.Polarization l) as [ys|]; simpl in H; [|discriminate].
    injection H as <-. destruct (IH _ eq_refl) as [-> Hall].
    split; [reflexivity|]. constructor; [|exact Hall].
    apply existsb_exists in Hx as (y & Hy & Heq).
    apply String.eqb_eq in Heq as ->. apply list_elem_of_In. exact Hy.
Qed.

Lemma rmap_polarizations seasonal pols :
  rmap (fun x => let! p := Coherence.getitem (Coherence.polarization x) in Ok (Py.upper p))
    seasonal = Ok pols ->
  forall p, p ∈ pols <->
    exists a q, a ∈ seasonal /\ Coherence.polarization a = Some q /\ p = Py.upper q.
Proof.
  intros H. apply rmap_Forall2 in H.
  induction H as [|a p' l l' Hap _ IH]; intros p.
  - split; [intros Hin; inversion Hin | intros (a & q & Hin & _); inversion Hin].
  - destruct (Coherence.polarization a) as [q|] eqn:Hq; simpl in Hap; [|discriminate].
    injection Hap as <-. rewrite elem_of_cons, IH. split.
    + intros [-> | (a' & q' & Hin & Hq' & ->)].
      * exists a, q. split; [left | auto].
      * exists a', q'. split; [right; exact Hin | auto].
    + intros (a' & q' & Hin & Hq' & ->). apply elem_of_cons in Hin as [-> | Hin].
      * left. congruence.
      * right. eauto.
Qed.

(** The full record of a successfully built item, before its assets. *)
Lemma create_stac_item_props set_list yearly seasonal item :
  Coherence.create_stac_item set_list yearly seasonal = Ok item ->
  exists ex seas range pols,
    head seasonal = Some ex /\
    Coherence.season ex = Some seas /\
    Coherence.date_range ex = Some range /\
    rmap (fun x => let! p := Coherence.getitem (Coherence.polarization x) in Ok (Py.upper p))
      seasonal = Ok pols /\
    Forall (fun p => p ∈ ["HH"; "VV"; "HV"; "VH"]) (set_list pols) /\
    Coherence.item_properties item = grouped_properties ex seas range (set_list pols) /\
    Coherence.item_datetime item = Coherence.mid_date range.
Proof.
  unfold Coherence.create_stac_item. intros H.
  destruct (head seasonal) as [ex|] eqn:Hex; simpl in H; [|discriminate].
  destruct (Coherence.season ex) as [seas|] eqn:Hseas; simpl in H; [|discriminate].
  destruct (Coherence.date_range ex) as [range|] eqn:Hrange; simpl in H; [|discriminate].
  destruct (rmap _ seasonal) as [pols|] eqn:Hpols; simpl in H; [|discriminate].
  destruct (rmap Coherence.Polarization (set_list pols)) as [sar_pols|] eqn:Hsar;
    simpl in H; [|discriminate].
  destruct (rmap_Polarization _ _ Hsar) as [-> Hvalid].
  destruct (add_seasonal_assets_frame _ _ _ H) as (_ & Hprops & Hdt).
  exists ex, seas, range, pols.
  split; [reflexivity|]. split; [exact Hseas|]. split; [exact Hrange|].
  split; [reflexivity|]. split; [exact Hvalid|]. split.
  - rewrite Hprops, (proj1 (proj2 (add_yearly_assets_frame _ _))). reflexivity.
  - rewrite Hdt, (proj2 (proj2 (add_yearly_assets_frame _ _))). reflexivity.
Qed.

(** An item is built only from seasonal assets whose polarizations are all
    among HH, VV, HV and VH once upper-cased; its sar:polarizations lists
    exactly those upper-cased polarizations, each once. *)
Theorem grouped_item_polarizations (set_list : set_order)
    (yearly seasonal : list Coherence.asset_dict) (item : Coherence.Item) :
  Coherence.create_stac_item set_list yearly seasonal = Ok item ->
  exists pols,
    Coherence.item_properties item !! "sar:polarizations" = Some (JList (JStr <$> pols)) /\
    NoDup pols /\
    (forall p, p ∈ pols <->
       exists a q, a ∈ seasonal /\ Coherence.polarization a = Some q /\ p = Py.upper q) /\
    (forall a, a ∈ seasonal ->
       exists q, Coherence.polarization a = Some q /\
                 Py.upper q ∈ ["HH"; "VV"; "HV"; "VH"]).
Proof.
  intros H.
  destruct (create_stac_item_props _ _ _ _ H)
    as (ex & seas & range & pols & _ & _ & _ & Hpols & Hvalid & Hprops & _).
  pose proof (rmap_polarizations _ _ Hpols) as Hmem.
  exists (set_list pols). split; [rewrite Hprops; reflexivity|].
  split; [apply as_list_NoDup|].
  split; [intros p; rewrite as_list_elem; apply Hmem|].
  intros a Ha. destruct (rmap_elem_of_l _ _ _ _ Hpols Ha) as (p & Hp & Hap).
  destruct (Coherence.polarization a) as [q|]; simpl in Hap; [|discriminate].
  injection Hap as <-. exists q. split; [reflexivity|].
  rewrite Forall_forall in Hvalid. apply Hvalid, as_list_elem, Hp.
Qed.

Lemma grouped_item_polarizations_witness :
  exists item,
    Coherence.create_stac_item gset_order [] [coh36_asset] = Ok item /\
    Coherence.item_properties item !! "sar:polarizations" = Some (JList [JStr "VV"]).
Proof.
  destruct (Coherence.create_stac_item gset_order [] [coh36_asset]) as [item|] eqn:Hbuild.
  2:{ assert (Hok : is_ok (Coherence.create_stac_item gset_order [] [coh36_asset]) = true)
        by (vm_compute; reflexivity).
      rewrite Hbuild in Hok. discriminate Hok. }
  exists item. split; [reflexivity|].
  destruct (grouped_item_polarizations gset_order [] [coh36_asset] item Hbuild)
    as (pols & Hprop & Hnodup & Hmem & _).
  rewrite Hprop. do 2 f_equal.
  assert (Hvv : "VV" ∈ pols).
  { apply Hmem. exists coh36_asset, "VV". split; [left | split; reflexivity]. }
  assert (Honly : forall p, p ∈ pols -> p = "VV").
  { intros p Hp. apply Hmem in Hp as (a & q & Ha & Hq & ->).
    apply list_elem_of_singleton in Ha as ->. injection Hq as <-. reflexivity. }
  destruct pols as [|p [|p' pols]].
  - inversion Hvv.
  - rewrite (Honly p ltac:(left)). reflexivity.
  - exfalso. apply NoDup_cons in Hnodup as [Hnotin _]. apply Hnotin.
    rewrite (Honly p ltac:(left)), (Honly p' ltac:(right; left)). left.
Defined.

Lemma averages_are_midpoints (s : string) :
  Items.SEASON_DATETIME_AVERAGES !! s = Coherence.mid_date <$> (Coherence.SEASONS !! s).
Proof. rewrite <- lookup_fmap. f_equal. Qed.

Lemma parse_url_season u a s :
  Coherence.parse_url u = Ok a -> Coherence.season a = Some s ->
  Coherence.date_range a = Coherence.SEASONS !! s /\ is_Some (Coherence.SEASONS !! s).
Proof.
  unfold Coherence.parse_url.
  destruct (Py.split "_" (Coherence.path_stem (Py.upper u)))
    as [|t [|x [|y [|z [|? ?]]]]]; try discriminate.
  - destruct (tileid_to_bbox t); simpl; [|discriminate]. intros [= <-]. discriminate.
  - destruct (tileid_to_bbox t); simpl; [|discriminate].
    destruct (Coherence.SEASONS !! x) as [range|] eqn:Hr; simpl; [|discriminate].
    intros [= <-] [= <-]. simpl. rewrite Hr. eauto.
Qed.

(** The item of a season carries the tile and season of the first asset of
    its group, that season's table range as start_datetime and end_datetime
    (ISO format, no trailing Z), and as datetime the midpoint of the range,
    which is the midpoint constant of the single-item table. *)
Theorem grouped_item_times (set_list : set_order)
    (yearly seasonal : list Coherence.asset_dict) (item : Coherence.Item) :
  Coherence.create_stac_item set_list yearly seasonal = Ok item ->
  Forall (fun x => exists u, Coherence.parse_url u = Ok x) seasonal ->
  exists ex seas range,
    head seasonal = Some ex /\
    Coherence.season ex = Some seas /\
    Coherence.SEASONS !! seas = Some range /\
    Coherence.item_id item = Coherence.tileid ex +:+ "_" +:+ seas /\
    Coherence.item_properties item !! "season" = Some (JStr seas) /\
    Coherence.item_properties item !! "start_datetime" =
      Some (JStr (Dt.isoformat (fst range))) /\
    Coherence.item_properties item !! "end_datetime" =
      Some (JStr (Dt.isoformat (snd range))) /\
    Coherence.item_datetime item = Coherence.mid_date range /\
    Items.SEASON_DATETIME_AVERAGES !! seas = Some (Coherence.item_datetime item).
Proof.
  intros H Hparsed.
  destruct (create_stac_item_props _ _ _ _ H)
    as (ex & seas & range & pols & Hex & Hseas & Hrange & _ & _ & Hprops & Hdt).
  destruct (create_stac_item_inv _ _ _ _ H)
    as (ex' & seas' & range' & Hex' & Hseas' & _ & Hid & _).
  rewrite Hex in Hex'. injection Hex' as <-. rewrite Hseas in Hseas'. injection Hseas' as <-.
  rewrite Forall_forall in Hparsed.
  destruct (Hparsed ex (head_elem_of _ _ Hex)) as [u Hu].
  destruct (parse_url_season _ _ _ Hu Hseas) as [Htable _].
  rewrite Hrange in Htable.
  exists ex, seas, range.
  split; [exact Hex|]. split; [exact Hseas|]. split; [symmetry; exact Htable|].
  split; [exact Hid|].
  split; [rewrite Hprops; reflexivity|].
  split; [rewrite Hprops; reflexivity|].
  split; [rewrite Hprops; reflexivity|].
  split; [exact Hdt|].
  rewrite averages_are_midpoints, <- Htable, Hdt. reflexivity.
Qed.

Lemma grouped_item_times_witness :
  exists item,
    Coherence.create_stac_item gset_order [] [coh36_asset] = Ok item /\
    Coherence.item_id item = "N00E005_FALL" /\
    Coherence.item_properties item !! "start_datetime" = Some (JStr "2020-09-01T00:00:00") /\
    Coherence.item_datetime item = Dt.date_h 2020 10 16 0.
Proof.
  destruct (Coherence.create_stac_item gset_order [] [coh36_asset]) as [item|] eqn:Hbuild.
  2:{ assert (Hok : is_ok (Coherence.create_stac_item gset_order [] [coh36_asset]) = true)
        by (vm_compute; reflexivity).
      rewrite Hbuild in Hok. discriminate Hok. }
  assert (Hparsed : Forall (fun x => exists u, Coherence.parse_url u = Ok x) [coh36_asset]).
  { constructor; [|constructor]. exists coh36_url. vm_compute. reflexivity. }
  destruct (grouped_item_times gset_order [] [coh36_asset] item Hbuild Hparsed)
    as (ex & seas & range & Hex & Hseas & Hrange & Hid & _ & Hstart & _ & _ & Havg).
  injection Hex as <-. injection Hseas as <-. injection Hrange as <-.
  change (Items.SEASON_DATETIME_AVERAGES !! "FALL")
    with (Some (Dt.date_h 2020 10 16 0)) in Havg.
  injection Havg as Havg.
  exists item. split; [reflexivity|]. split; [exact Hid|].
  split; [exact Hstart | symmetry; exact Havg].
Defined.

(** After the yearly loop, the entry under a key is the plain entry of the
    last yearly asset with that product, if there is one. *)
Lemma add_yearly_assets_lookup l : forall item k,
  (exists y,
     y ∈ l /\ Coherence.product y = k /\
     Coherence.item_assets (Coherence.add_yearly_assets l item) !! k =
       Some {| Coherence.href := Coherence.url y;
               Coherence.media_type := Coherence.GEOTIFF;
               Coherence.extra_fields := ∅ |}) \/
  ((forall y, y ∈ l -> Coherence.product y <> k) /\
   Coherence.item_assets (Coherence.add_yearly_assets l item) !! k =
     Coherence.item_assets item !! k).
Proof.
  unfold Coherence.add_yearly_assets.
  induction l as [|a l IH]; intros item k; simpl.
  - right. split; [|reflexivity]. intros y Hy. inversion Hy.
  - match goal with
    | |- context [fold_left ?f l ?it] => destruct (IH it k) as [(y & Hy & Hp & Hl) | [Hnone Hl]]
    end.
    + left. exists y. split; [right; exact Hy | auto].
    + destruct (decide (Coherence.product a = k)) as [Hk | Hk].
      * left. exists a. split; [left|]. split; [exact Hk|].
        rewrite Hl. simpl. rewrite Hk. apply lookup_insert_eq.
      * right. split.
        -- intros y Hy. apply elem_of_cons in Hy as [-> | Hy]; [exact Hk | exact (Hnone y Hy)].
        -- rewrite Hl. simpl. apply lookup_insert_ne. exact Hk.
Qed.

Lemma create_stac_item_stages set_list yearly seasonal item :
  Coherence.create_stac_item set_list yearly seasonal = Ok item ->
  exists base,
    Coherence.item_assets base = ∅ /\
    Coherence.add_seasonal_assets seasonal (Coherence.add_yearly_assets yearly base) = Ok item.
Proof.
  unfold Coherence.create_stac_item. intros H.
  destruct (head seasonal) as [ex|]; simpl in H; [|discriminate].
  destruct (Coherence.season ex) as [seas|]; simpl in H; [|discriminate].
  destruct (Coherence.date_range ex) as [range|]; simpl in H; [|discriminate].
  destruct (rmap _ seasonal) as [pols|]; simpl in H; [|discriminate].
  destruct (rmap Coherence.Polarization (set_list pols)) as [sar_pols|];
    simpl in H; [|discriminate].
  eexists. split; [|exact H]. reflexivity.
Qed.

Lemma seasonal_asset_href a k entry :
  Coherence.seasonal_asset a = Ok (k, entry) ->
  Coherence.href entry = Coherence.url a /\
  Coherence.media_type entry = Coherence.GEOTIFF.
Proof.
  unfold Coherence.seasonal_asset.
  destruct (Coherence.polarization a) as [pol|]; simpl; [|discriminate].
  destruct (Py.contains "COH" (Coherence.product a)).
  - destruct (Py.int _) as [days|]; simpl; [|discriminate].
    intros [= <- <-]. split; reflexivity.
  - simpl. intros [= <- <-]. split; reflexivity.
Qed.

(** The assets of an item are those of its group and no others: under a
    key there is a GeoTIFF entry exactly when the key is the product of a
    yearly asset or product_polarization of a seasonal asset; the entry
    points to the URL of such an asset, and a seasonal asset wins over a
    yearly one with the same key. *)
Theorem grouped_item_assets (set_list : set_order)
    (yearly seasonal : list Coherence.asset_dict) (item : Coherence.Item) (k : string) :
  Coherence.create_stac_item set_list yearly seasonal = Ok item ->
  match Coherence.item_assets item !! k with
  | Some entry =>
      Coherence.media_type entry = "image/tiff; application=geotiff" /\
      ((exists a pol,
          a ∈ seasonal /\ Coherence.polarization a = Some pol /\
          k = Coherence.product a +:+ "_" +:+ pol /\
          Coherence.href entry = Coherence.url a) \/
       ((forall a pol, a ∈ seasonal -> Coherence.polarization a = Some pol ->
           k <> Coherence.product a +:+ "_" +:+ pol) /\
        exists y,
          y ∈ yearly /\ Coherence.product y = k /\
          Coherence.href entry = Coherence.url y /\
          Coherence.extra_fields entry = ∅))
  | None =>
      (forall y, y ∈ yearly -> Coherence.product y <> k) /\
      (forall a pol, a ∈ seasonal -> Coherence.polarization a = Some pol ->
         k <> Coherence.product a +:+ "_" +:+ pol)
  end.
Proof.
  intros H. destruct (create_stac_item_stages _ _ _ _ H) as (base & Hbase & Hadd).
  assert (Hkeys : (forall b entry, b ∈ seasonal -> Coherence.seasonal_asset b <> Ok (k, entry)) ->
                  forall a pol, a ∈ seasonal -> Coherence.polarization a = Some pol ->
                    k <> Coherence.product a +:+ "_" +:+ pol).
  { intros Hnone a pol Ha Hpol ->.
    destruct (add_seasonal_assets_each _ _ _ _ Hadd Ha) as (k' & e & Hsa).
    destruct (seasonal_asset_inv _ _ _ Hsa) as (pol' & Hpol' & -> & _).
    rewrite Hpol in Hpol'. injection Hpol' as <-. exact (Hnone a e Ha Hsa). }
  destruct (add_seasonal_assets_lookup _ _ _ k Hadd)
    as [(b & entry & Hb & Hsb & ->) | [Hnone ->]].
  - destruct (seasonal_asset_href _ _ _ Hsb) as [Hhref Hmedia].
    destruct (seasonal_asset_inv _ _ _ Hsb) as (pol & Hpol & -> & _).
    split; [exact Hmedia|]. left. exists b, pol. auto.
  - destruct (add_yearly_assets_lookup yearly base k) as [(y & Hy & Hp & ->) | [Hnoy ->]].
    + split; [reflexivity|]. right. split; [exact (Hkeys Hnone)|].
      exists y. auto.
    + rewrite Hbase, lookup_empty. split; [exact Hnoy | exact (Hkeys Hnone)].
Qed.

Lemma grouped_item_assets_witness :
  exists item,
    Coherence.create_stac_item gset_order [] [coh36_asset] = Ok item /\
    Coherence.item_assets item !! "INC" = None /\
    exists entry,
      Coherence.item_assets item !! "COH36_VV" = Some entry /\
      Coherence.href entry = coh36_url.
Proof.
  destruct (Coherence.create_stac_item gset_order [] [coh36_asset]) as [item|] eqn:Hbuild.
  2:{ assert (Hok : is_ok (Coherence.create_stac_item gset_order [] [coh36_asset]) = true)
        by (vm_compute; reflexivity).
      rewrite Hbuild in Hok. discriminate Hok. }
  exists item. split; [reflexivity|].
  pose proof (grouped_item_assets gset_order [] [coh36_asset] item "INC" Hbuild) as Hinc.
  pose proof (grouped_item_assets gset_order [] [coh36_asset] item "COH36_VV" Hbuild) as Hcoh.
  split.
  - destruct (Coherence.item_assets item !! "INC") as [entry|]; [|reflexivity].
    exfalso. destruct Hinc as [_ [(a & pol & Ha & Hpol & Hk & _) | (_ & y & Hy & _)]].
    + apply list_elem_of_singleton in Ha as ->. injection Hpol as <-. discriminate Hk.
    + inversion Hy.
  - destruct (Coherence.item_assets item !! "COH36_VV") as [entry|].
    + exists entry. split; [reflexivity|].
      destruct Hcoh as [_ [(a & pol & Ha & _ & _ & Hhref) | (_ & y & Hy & _)]].
      * apply list_elem_of_singleton in Ha as ->. exact Hhref.
      * inversion Hy.
    + exfalso. destruct Hcoh as [_ Hno].
      exact (Hno coh36_asset "VV" ltac:(left) eq_refl eq_refl).
Defined.

(** ** More on collections *)

Lemma rmap_raise_kind {A B} (f : A -> res B) l x e0 :
  (forall y e, f y = Raise e -> e = e0) ->
  x ∈ l -> is_ok (f x) = false -> rmap f l = Raise e0.
Proof.
  intros Hkind Hx Hfx. induction l as [|y l IH]; [inversion Hx|].
  simpl. destruct (f y) as [fy|e] eqn:Hy; simpl.
  - apply elem_of_cons in Hx as [-> | Hx]; [rewrite Hy in Hfx; discriminate Hfx|].
    rewrite (IH Hx). reflexivity.
  - rewrite (Hkind _ _ Hy). reflexivity.
Qed.

Lemma as_list_nil (set_list : set_order) : set_list [] = [].
Proof.
  destruct (set_list []) as [|x l] eqn:H; [reflexivity|].
  assert (Hx : x ∈ set_list []) by (rewrite H; left).
  apply as_list_elem in Hx. inversion Hx.
Qed.

Lemma filter_all_false {A} (p : A -> bool) l :
  Forall (fun x => p x = false) l -> List.filter p l = [].
Proof.
  induction 1 as [|x l Hx _ IH]; [reflexivity|]. simpl. rewrite Hx. exact IH.
Qed.

(** The stages of a successful build. *)
Lemma create_tile_stac_collection_stages set_list s3 bucket prefix interval coll :
  Coherence.create_tile_stac_collection set_list s3 bucket prefix interval = Ok coll ->
  exists urls asset_dicts seasons first item0,
    Coherence.get_object_urls s3 bucket prefix true = Ok urls /\
    rmap Coherence.parse_url urls = Ok asset_dicts /\
    rmap (fun x => Coherence.getitem (Coherence.season x))
      (List.filter (fun x => negb (Coherence.is_yearly x)) asset_dicts) = Ok seasons /\
    rmap (fun s =>
            Coherence.create_stac_item set_list
              (List.filter Coherence.is_yearly asset_dicts)
              (List.filter (fun x => Py.contains (Py.lower s) (Coherence.url x)) asset_dicts))
      (set_list seasons) = Ok (Coherence.coll_items coll) /\
    head asset_dicts = Some first /\
    head (Coherence.coll_items coll) = Some item0 /\
    Coherence.coll_id coll = Coherence.tileid first /\
    Coherence.coll_description coll = "Sentinel-1 Coherence Tile " +:+ Coherence.tileid first /\
    Coherence.coll_spatial_extent coll = Coherence.item_bbox item0 /\
    Coherence.coll_temporal_extent coll = interval.
Proof.
  unfold Coherence.create_tile_stac_collection. intros H.
  destruct (Coherence.get_object_urls s3 bucket prefix true) as [urls|] eqn:Hurls;
    cbn [rbind] in H; [|discriminate].
  destruct (rmap Coherence.parse_url urls) as [asset_dicts|] eqn:Hassets;
    cbn [rbind] in H; [|discriminate].
  destruct (rmap _ (List.filter _ asset_dicts)) as [seasons|] eqn:Hseasons;
    cbn [rbind] in H; [|discriminate].
  destruct (rmap _ (set_list seasons)) as [items|] eqn:Hitems;
    cbn [rbind] in H; [|discriminate].
  destruct (head asset_dicts) as [first|] eqn:Hfirst;
    cbn [rbind from_option] in H; [|discriminate].
  destruct (head items) as [item0|] eqn:Hitem0; cbn [rbind from_option] in H; [|discriminate].
  injection H as <-. exists urls, asset_dicts, seasons, first, item0.
  cbn [Coherence.coll_id Coherence.coll_items Coherence.coll_temporal_extent
       Coherence.coll_description Coherence.coll_spatial_extent].
  split; [reflexivity|]. split; [exact Hassets|]. split; [exact Hseasons|].
  split; [exact Hitems|]. split; [exact Hfirst|]. split; [exact Hitem0|].
  repeat split.
Qed.



Lemma get_object_urls_no_contents s3 bucket prefix pays :
  list_objects_v2 s3 bucket prefix pays = Ok None ->
  Coherence.get_object_urls s3 bucket prefix pays = Raise KeyError.
Proof. unfold Coherence.get_object_urls. intros ->. reflexivity. Qed.

Lemma get_object_urls_empty s3 bucket prefix pays :
  list_objects_v2 s3 bucket prefix pays = Ok (Some []) ->
  Coherence.get_object_urls s3 bucket prefix pays = Ok [].
Proof. unfold Coherence.get_object_urls. intros ->. reflexivity. Qed.

(** How building a tile's collection fails on the listing itself: KeyError
    when the response has no Contents, IndexError when Contents is empty or
    when every listed file is an inc or lsmap file (no season, hence no
    item), KeyError when a listed file carries no season and is neither inc
    nor lsmap. *)
Theorem collection_failure_modes (set_list : set_order) (s3 : s3_client)
    (bucket prefix : string) (interval : Dt.datetime * Dt.datetime) :
  let build := Coherence.create_tile_stac_collection set_list s3 bucket prefix interval in
  (list_objects_v2 s3 bucket prefix true = Ok None -> build = Raise KeyError) /\
  (list_objects_v2 s3 bucket prefix true = Ok (Some []) -> build = Raise IndexError) /\
  (forall urls asset_dicts,
     Coherence.get_object_urls s3 bucket prefix true = Ok urls ->
     rmap Coherence.parse_url urls = Ok asset_dicts ->
     Forall (fun a => Coherence.is_yearly a = true) asset_dicts ->
     build = Raise IndexError) /\
  (forall urls asset_dicts a,
     Coherence.get_object_urls s3 bucket prefix true = Ok urls ->
     rmap Coherence.parse_url urls = Ok asset_dicts ->
     a ∈ asset_dicts -> Coherence.is_yearly a = false -> Coherence.season a = None ->
     build = Raise KeyError).
Proof.
  cbv zeta. unfold Coherence.create_tile_stac_collection.
  split; [|split; [|split]].
  - intros H. rewrite (get_object_urls_no_contents _ _ _ _ H). reflexivity.
  - intros H. rewrite (get_object_urls_empty _ _ _ _ H). cbn [rbind rmap List.filter].
    rewrite as_list_nil. reflexivity.
  - intros urls assets Hu Hp Hall. rewrite Hu. cbn [rbind]. rewrite Hp. cbn [rbind].
    rewrite (filter_all_false (fun x => negb (Coherence.is_yearly x)) assets).
    2:{ eapply Forall_impl; [exact Hall|]. intros a Ha. simpl. rewrite Ha. reflexivity. }
    cbn [rmap rbind]. rewrite as_list_nil. cbn [rmap rbind].
    destruct (head assets); reflexivity.
  - intros urls assets a Hu Hp Ha Hy Hs. rewrite Hu. cbn [rbind]. rewrite Hp. cbn [rbind].
    rewrite (rmap_raise_kind (fun x => Coherence.getitem (Coherence.season x)) _ a KeyError).
    + reflexivity.
    + intros y e. destruct (Coherence.season y); simpl; [discriminate | congruence].
    + apply list_elem_of_In, filter_In. split; [apply list_elem_of_In; exact Ha|].
      rewrite Hy. reflexivity.
    + rewrite Hs. reflexivity.
Qed.

Lemma collection_failure_modes_witness :
  Coherence.create_tile_stac_collection gset_order sample_bucket "bucket"
    "data/tiles/N99E999/" Coherence.default_date_interval = Raise KeyError /\
  Coherence.create_tile_stac_collection gset_order (fixed_bucket "us-west-2" []) "bucket"
    "data/tiles/N00E005/" Coherence.default_date_interval = Raise IndexError /\
  Coherence.create_tile_stac_collection gset_order yearly_only_bucket "bucket"
    "data/tiles/N00E005/" Coherence.default_date_interval = Raise IndexError /\
  Coherence.create_tile_stac_collection gset_order
    (fixed_bucket "us-west-2" ["data/tiles/N00E005/N00E005_124D_other.tif"]) "bucket"
    "data/tiles/N00E005/" Coherence.default_date_interval = Raise KeyError.
Proof.
  split; [|split; [|split]].
  - apply (proj1 (collection_failure_modes gset_order sample_bucket "bucket"
                    "data/tiles/N99E999/" Coherence.default_date_interval)).
    reflexivity.
  - apply (proj1 (proj2 (collection_failure_modes gset_order (fixed_bucket "us-west-2" [])
                           "bucket" "data/tiles/N00E005/" Coherence.default_date_interval))).
    reflexivity.
  - eapply (proj1 (proj2 (proj2 (collection_failure_modes gset_order yearly_only_bucket
                           "bucket" "data/tiles/N00E005/" Coherence.default_date_interval)))).
    + reflexivity.
    + vm_compute. reflexivity.
    + repeat constructor.
  - eapply (proj2 (proj2 (proj2 (collection_failure_modes gset_order
                           (fixed_bucket "us-west-2" ["data/tiles/N00E005/N00E005_124D_other.tif"])
                           "bucket" "data/tiles/N00E005/" Coherence.default_date_interval)))).
    + reflexivity.
    + vm_compute. reflexivity.
    + left.
    + reflexivity.
    + reflexivity.
Defined.

(** ** More on the publisher *)

Lemma get_endpoint_other_type (fmt : formatter) (stac_object : gmap string json) ty :
  stac_object !! "type" = Some ty ->
  ty <> JStr "Catalog" -> ty <> JStr "Collection" -> ty <> JStr "Feature" ->
  Ingest.get_endpoint fmt stac_object = Raise AssertionError.
Proof.
  unfold Ingest.get_endpoint. intros -> H1 H2 H3. cbn [from_option rbind].
  destruct ty as [| | | |s| |]; try reflexivity.
  assert (s <> "Catalog") by congruence.
  assert (s <> "Collection") by congruence.
  assert (s <> "Feature") by congruence.
  clear H1 H2 H3.
  repeat (try reflexivity; try congruence;
          match goal with
          | |- context [match ?x with EmptyString => _ | String _ _ => _ end] => destruct x
          | |- context [match ?x with Ascii _ _ _ _ _ _ _ _ => _ end] => destruct x
          | |- context [if ?b then _ else _] => is_var b; destruct b
          end).
Qed.

(** An object without id, without type, of a type other than Catalog,
    Collection and Feature, or a Feature without collection, raises before
    anything is sent: the server is left as it was. *)
Theorem invalid_object_sends_nothing (urljoin : string -> string -> res string)
    (fmt : formatter) (Server : Type)
    (respond : Ingest.request -> Server -> res Z * Server)
    (stac_object : gmap string json) (api_url : string) (w : Ingest.world Server) :
  let run := Ingest.add_stac_object urljoin fmt Server respond stac_object api_url w in
  (stac_object !! "type" = None -> Ingest.get_endpoint fmt stac_object = Raise KeyError) /\
  (forall ty,
     stac_object !! "type" = Some ty ->
     ty <> JStr "Catalog" -> ty <> JStr "Collection" -> ty <> JStr "Feature" ->
     Ingest.get_endpoint fmt stac_object = Raise AssertionError) /\
  (stac_object !! "type" = Some (JStr "Feature") ->
   stac_object !! "collection" = None ->
   Ingest.get_endpoint fmt stac_object = Raise KeyError) /\
  (stac_object !! "id" = None -> run = (Raise KeyError, w)) /\
  (forall id e,
     stac_object !! "id" = Some id ->
     Ingest.get_endpoint fmt stac_object = Raise e ->
     run.1 = Raise e /\
     Ingest.server run.2 = Ingest.server w /\
     Ingest.trace run.2 = (Ingest.trace w ++ [Ingest.Printed id])%list).
Proof.
  cbv zeta. split; [|split; [|split; [|split]]].
  - unfold Ingest.get_endpoint. intros ->. reflexivity.
  - intros ty. apply get_endpoint_other_type.
  - unfold Ingest.get_endpoint. intros -> ->. reflexivity.
  - unfold Ingest.add_stac_object, Ingest.io_bind, Ingest.lift. intros ->.
    destruct w. reflexivity.
  - intros id e Hid He.
    unfold Ingest.add_stac_object, Ingest.io_bind, Ingest.lift, Ingest.print.
    rewrite Hid, He. cbn. auto.
Qed.

Lemma invalid_object_sends_nothing_witness :
  Ingest.add_stac_object append_urljoin str_formatter unit (Ingest.constant_server 200)
    {[ "type" := JStr "Item"; "id" := JStr "x" ]} "http://stac" (Ingest.World tt []) =
  (Raise AssertionError, Ingest.World tt [Ingest.Printed (JStr "x")]).
Proof.
  pose proof (invalid_object_sends_nothing append_urljoin str_formatter unit
                (Ingest.constant_server 200)
                {[ "type" := JStr "Item"; "id" := JStr "x" ]} "http://stac"
                (Ingest.World tt [])) as (_ & Hty & _ & _ & Hrun).
  specialize (Hrun (JStr "x") AssertionError eq_refl
                (Hty (JStr "Item") eq_refl ltac:(discriminate) ltac:(discriminate)
                   ltac:(discriminate))).
  destruct Hrun as (Hr & Hs & Ht).
  destruct (Ingest.add_stac_object _ _ _ _ _ _ _) as [r [srv tr]].
  simpl in Hr, Hs, Ht. subst. reflexivity.
Defined.

Section PublisherRuns.

Variable urljoin : string -> string -> res string.
Variable fmt : formatter.
Variable Server : Type.
Variable respond : Ingest.request -> Server -> res Z * Server.
Variable api_url : string.

Let add := Ingest.add_stac_object urljoin fmt Server respond.
Let run := Ingest.main urljoin fmt Server respond api_url.

Let requests_of := requests_of_object urljoin fmt api_url.

Lemma sent_app evs1 evs2 : sent (evs1 ++ evs2) = (sent evs1 ++ sent evs2)%list.
Proof. unfold sent. apply omap_app. Qed.

Lemma posts_app rs1 rs2 : posts (rs1 ++ rs2) = (posts rs1 + posts rs2)%nat.
Proof. unfold posts. rewrite List.filter_app, length_app. reflexivity. Qed.

Lemma puts_app rs1 rs2 : puts (rs1 ++ rs2) = (puts rs1 + puts rs2)%nat.
Proof. unfold puts. rewrite List.filter_app, length_app. reflexivity. Qed.

Lemma requests_of_counts stac_object rs :
  requests_of stac_object rs -> posts rs = 1%nat /\ (puts rs <= 1)%nat.
Proof.
  intros (endpoint & url & _ & _ & [-> | ->]); unfold posts, puts; simpl; lia.
Qed.

(** What one object adds to the trace: nothing but its printed id when it
    raises before the POST, and otherwise its POST, with its PUT or alone. *)
Lemma add_stac_object_requests stac_object w :
  exists evs,
    Ingest.trace (add stac_object api_url w).2 = (Ingest.trace w ++ evs)%list /\
    ((sent evs = [] /\ (add stac_object api_url w).1 <> Ok tt) \/
     requests_of stac_object (sent evs)).
Proof.
  unfold add, Ingest.add_stac_object, Ingest.io_bind, Ingest.lift, Ingest.print,
    Ingest.send, Ingest.io_ret.
  destruct (stac_object !! "id") as [id|]; cbn [from_option].
  2:{ exists []. rewrite app_nil_r. split; [reflexivity|]. left.
      split; [reflexivity | discriminate]. }
  destruct (Ingest.get_endpoint fmt stac_object) as [endpoint|e] eqn:Hend;
    cbn [Ingest.server Ingest.trace].
  2:{ eexists. split; [reflexivity|]. left. split; [reflexivity | discriminate]. }
  destruct (urljoin api_url endpoint) as [url|e] eqn:Hurl;
    cbn [Ingest.server Ingest.trace].
  2:{ eexists. split; [reflexivity|]. left. split; [reflexivity | discriminate]. }
  assert (Hpost : requests_of stac_object [Ingest.Request Ingest.POST url stac_object]).
  { exists endpoint, url. auto. }
  assert (Hput : requests_of stac_object
                   [Ingest.Request Ingest.POST url stac_object;
                    Ingest.Request Ingest.PUT url stac_object]).
  { exists endpoint, url. auto. }
  destruct (respond _ (Ingest.server w)) as [[status|e] s1]; cbn [Ingest.server Ingest.trace].
  2:{ eexists. split; [rewrite <- app_assoc; reflexivity|]. right. exact Hpost. }
  destruct (status =? 409); cbn [Ingest.server Ingest.trace].
  - destruct (respond _ s1) as [[status2|e] s2]; cbn [Ingest.server Ingest.trace snd];
      (eexists; split; [rewrite <- !app_assoc; reflexivity|]); right; exact Hput.
  - eexists. split; [cbn [snd Ingest.trace]; rewrite <- app_assoc; reflexivity|].
    right. exact Hpost.
Qed.

(** The requests of a run are those of the objects of a first part of the
    batch, object by object. *)
Lemma main_requests objects : forall w,
  exists evs done groups rest,
    Ingest.trace (run objects w).2 = (Ingest.trace w ++ evs)%list /\
    objects = (done ++ rest)%list /\
    Forall2 requests_of done groups /\
    sent evs = concat groups /\
    ((run objects w).1 = Ok tt -> rest = []) /\
    posts (sent evs) = length done /\
    (puts (sent evs) <= posts (sent evs))%nat.
Proof.
  unfold run. induction objects as [|o objects IH]; intros w.
  - exists [], [], [], []. simpl. rewrite app_nil_r.
    repeat (split; [first [reflexivity | constructor]|]). unfold puts, posts; simpl; lia.
  - destruct (add_stac_object_requests o w) as (evs1 & Ht1 & Hcase).
    simpl. unfold Ingest.io_bind. fold add.
    destruct Hcase as [[Hnone Hfail] | Hreq].
    + destruct (add o api_url w) as [[[]|e] w1]; cbn [fst snd] in *; [congruence|].
      exists evs1, [], [], (o :: objects). rewrite Hnone.
      split; [exact Ht1|]. split; [reflexivity|]. split; [constructor|].
      split; [reflexivity|]. split; [discriminate|].
      unfold puts, posts; simpl; lia.
    + destruct (requests_of_counts _ _ Hreq) as [Hposts Hputs].
      destruct (add o api_url w) as [[[]|e] w1]; cbn [fst snd] in *.
      * destruct (IH w1) as (evs2 & done & groups & rest & Ht2 & Hobjs & Hall & Hs & Hok & Hp & Hq).
        exists (evs1 ++ evs2)%list, (o :: done), (sent evs1 :: groups), rest.
        split; [rewrite Ht2, Ht1, app_assoc; reflexivity|].
        split; [rewrite Hobjs; reflexivity|].
        split; [constructor; assumption|].
        split; [rewrite sent_app, Hs; reflexivity|].
        split; [exact Hok|].
        rewrite sent_app, posts_app, puts_app. simpl. lia.
      * exists evs1, [o], [sent evs1], objects.
        split; [exact Ht1|]. split; [reflexivity|].
        split; [repeat constructor; exact Hreq|].
        split; [simpl; rewrite app_nil_r; reflexivity|].
        split; [discriminate|]. simpl. lia.
Qed.

End PublisherRuns.

(** Whatever the server answers, the requests of a run are those of a first
    part of the batch, object by object in the order of the batch: for each
    of these objects one POST of the object to the URL joined from the API
    URL and the endpoint of its type, alone or followed by one PUT of the
    object to the same URL; nothing is sent for the remaining objects, and
    there are none when the run succeeds. So every object is POSTed at most
    once, and there are never more PUTs than POSTs. *)
Theorem run_sends_only_the_objects (urljoin : string -> string -> res string)
    (fmt : formatter) (Server : Type)
    (respond : Ingest.request -> Server -> res Z * Server)
    (api_url : string) (objects : list (gmap string json)) (w : Ingest.world Server) :
  exists evs done groups rest,
    Ingest.trace (Ingest.main urljoin fmt Server respond api_url objects w).2 =
      (Ingest.trace w ++ evs)%list /\
    objects = (done ++ rest)%list /\
    Forall2 (fun stac_object rs =>
               exists endpoint url,
                 Ingest.get_endpoint fmt stac_object = Ok endpoint /\
                 urljoin api_url endpoint = Ok url /\
                 (rs = [Ingest.Request Ingest.POST url stac_object] \/
                  rs = [Ingest.Request Ingest.POST url stac_object;
                        Ingest.Request Ingest.PUT url stac_object]))
      done groups /\
    sent evs = concat groups /\
    ((Ingest.main urljoin fmt Server respond api_url objects w).1 = Ok tt -> rest = []) /\
    posts (sent evs) = length done /\
    (puts (sent evs) <= posts (sent evs))%nat.
Proof. exact (main_requests urljoin fmt Server respond api_url objects w). Qed.

Lemma main_all_posted urljoin fmt Server respond api_url objects :
  (forall r s, exists status,
     (respond r s).1 = Ok status /\ ~ 400 <= status < 600) ->
  Forall (fun o => is_Some (o !! "id") /\
                   exists endpoint,
                     Ingest.get_endpoint fmt o = Ok endpoint /\
                     is_ok (urljoin api_url endpoint) = true) objects ->
  forall w,
  exists rs,
    (Ingest.main urljoin fmt Server respond api_url objects w).1 = Ok tt /\
    sent (Ingest.trace (Ingest.main urljoin fmt Server respond api_url objects w).2) =
      (sent (Ingest.trace w) ++ rs)%list /\
    Forall2 (fun o r =>
               Ingest.req_method r = Ingest.POST /\ Ingest.req_json r = o /\
               exists endpoint,
                 Ingest.get_endpoint fmt o = Ok endpoint /\
                 urljoin api_url endpoint = Ok (Ingest.req_url r))
      objects rs.
Proof.
  intros Hserver Hobjs.
  induction Hobjs as [|o objects [[id Hid] (endpoint & Hend & Hjoin)] _ IH]; intros w.
  - exists []. simpl. rewrite app_nil_r. split; [reflexivity|]. split; [reflexivity | constructor].
  - destruct (urljoin api_url endpoint) as [url|] eqn:Hurl; [|discriminate Hjoin].
    pose proof (add_stac_object_run urljoin fmt Server respond o api_url w id endpoint url
                  Hid Hend Hurl) as Hadd. cbv zeta in Hadd.
    destruct (Hserver (Ingest.Request Ingest.POST url o) (Ingest.server w))
      as (status & Hst & Hrange).
    destruct (respond _ (Ingest.server w)) as [r s1]. simpl in Hst. subst r.
    assert (H409 : (status =? 409) = false) by (apply Z.eqb_neq; lia).
    rewrite H409, (proj2 (raise_for_status_spec status) Hrange) in Hadd.
    rewrite (main_continues _ _ _ _ _ _ _ _ _ Hadd).
    match goal with
    | |- context [Ingest.main _ _ _ _ _ _ ?w1] => destruct (IH w1) as (rs & Hr & Hs & Hall)
    end.
    exists (Ingest.Request Ingest.POST url o :: rs).
    split; [exact Hr|]. split.
    + rewrite Hs. cbn [Ingest.trace]. rewrite !sent_app. simpl.
      rewrite app_nil_r, <- app_assoc. reflexivity.
    + constructor; [|exact Hall]. simpl. split; [reflexivity|]. split; [reflexivity|].
      exists endpoint. auto.
Qed.

(** When every answer is a status outside 400 to 599, a batch of objects
    that each have an id and an endpoint whose URL under the API URL can be
    joined succeeds, and its requests are exactly one POST per object, in
    the order of the batch, each with the object as body at the joined URL
    of the endpoint of its type; no PUT is sent. *)
Theorem successful_batch_posts_each_object (urljoin : string -> string -> res string)
    (fmt : formatter) (Server : Type)
    (respond : Ingest.request -> Server -> res Z * Server)
    (api_url : string) (objects : list (gmap string json)) (w : Ingest.world Server) :
  (forall r s, exists status,
     (respond r s).1 = Ok status /\ ~ 400 <= status < 600) ->
  Forall (fun o => is_Some (o !! "id") /\
                   exists endpoint,
                     Ingest.get_endpoint fmt o = Ok endpoint /\
                     is_ok (urljoin api_url endpoint) = true) objects ->
  exists rs,
    (Ingest.main urljoin fmt Server respond api_url objects w).1 = Ok tt /\
    sent (Ingest.trace (Ingest.main urljoin fmt Server respond api_url objects w).2) =
      (sent (Ingest.trace w) ++ rs)%list /\
    Forall2 (fun o r =>
               Ingest.req_method r = Ingest.POST /\ Ingest.req_json r = o /\
               exists endpoint,
                 Ingest.get_endpoint fmt o = Ok endpoint /\
                 urljoin api_url endpoint = Ok (Ingest.req_url r))
      objects rs.
Proof.
  intros Hserver Hobjs.
  exact (main_all_posted urljoin fmt Server respond api_url objects Hserver Hobjs w).
Qed.

Lemma successful_batch_posts_each_object_witness :
  exists rs,
    (Ingest.main bracket_urljoin str_formatter unit (Ingest.constant_server 201)
       "http://stac" [collection_b; feature_a] (Ingest.World tt [])).1 = Ok tt /\
    sent (Ingest.trace (Ingest.main bracket_urljoin str_formatter unit
                          (Ingest.constant_server 201) "http://stac"
                          [collection_b; feature_a] (Ingest.World tt [])).2) = rs /\
    length rs = 2%nat.
Proof.
  destruct (successful_batch_posts_each_object bracket_urljoin str_formatter unit
              (Ingest.constant_server 201) "http://stac" [collection_b; feature_a]
              (Ingest.World tt []))
    as (rs & Hr & Hs & Hall).
  - intros r s. exists 201. split; [reflexivity | lia].
  - repeat constructor; try (eexists; reflexivity).
    + exists "/collections". split; reflexivity.
    + exists "/collections/c1/items". split; reflexivity.
  - exists rs. split; [exact Hr|]. split; [exact Hs|].
    apply Forall2_length in Hall. symmetry. exact Hall.
Defined.

(** ** Tile prefixes and tile lists *)






Lemma parse_url_empty : Coherence.parse_url "" = Raise ValueError.
Proof. reflexivity. Qed.

(** The tiles that [parse_france_list] returns are, each once, the tile
    tokens of the stripped lines. It returns at all only if every stripped
    line parses as a URL: one blank line makes the whole call raise. *)
Theorem parse_france_list_tiles (set_list : set_order) (lines tiles : list string) :
  Coherence.parse_france_list set_list lines = Ok tiles ->
  NoDup tiles /\
  (forall t, t ∈ tiles <->
     exists line a,
       line ∈ lines /\ Coherence.parse_url (Coherence.strip line) = Ok a /\
       Coherence.tileid a = t) /\
  Forall (fun line => is_ok (Coherence.parse_url (Coherence.strip line)) = true /\
                      Coherence.strip line <> "") lines.
Proof.
  unfold Coherence.parse_france_list. intros H.
  destruct (rmap _ (List.map Coherence.strip lines)) as [ids|] eqn:Hids; simpl in H;
    [|discriminate].
  injection H as <-. split; [apply as_list_NoDup|]. split.
  - intros t. rewrite as_list_elem. split.
    + intros Ht. destruct (rmap_elem_of _ _ _ _ Hids Ht) as (u & Hu & Hpu).
      apply list_elem_of_In, in_map_iff in Hu as (line & <- & Hline).
      destruct (Coherence.parse_url (Coherence.strip line)) as [a|] eqn:Ha;
        simpl in Hpu; [|discriminate].
      injection Hpu as <-. exists line, a. split; [apply list_elem_of_In; exact Hline | auto].
    + intros (line & a & Hline & Ha & <-).
      assert (Hu : Coherence.strip line ∈ List.map Coherence.strip lines).
      { apply list_elem_of_In, in_map, list_elem_of_In, Hline. }
      destruct (rmap_elem_of_l _ _ _ _ Hids Hu) as (t & Ht & Hpu).
      rewrite Ha in Hpu. simpl in Hpu. injection Hpu as <-. exact Ht.
  - apply Forall_forall. intros line Hline.
    assert (Hu : Coherence.strip line ∈ List.map Coherence.strip lines).
    { apply list_elem_of_In, in_map, list_elem_of_In, Hline. }
    destruct (rmap_elem_of_l _ _ _ _ Hids Hu) as (t & _ & Hpu).
    destruct (Coherence.parse_url (Coherence.strip line)) as [a|] eqn:Ha;
      simpl in Hpu; [|discriminate].
    split; [reflexivity|]. intros Hblank. rewrite Hblank, parse_url_empty in Ha.
    discriminate Ha.
Qed.

Lemma parse_france_list_tiles_witness :
  Coherence.parse_france_list gset_order
    ["https://b/N00E005_124D_inc.tif "; " https://b/N00E005_fall_vv_AMP.tif"] =
    Ok ["N00E005"] /\
  NoDup ["N00E005"].
Proof.
  split; [vm_compute; reflexivity|].
  apply (parse_france_list_tiles gset_order
           ["https://b/N00E005_124D_inc.tif "; " https://b/N00E005_fall_vv_AMP.tif"]
           ["N00E005"]).
  vm_compute. reflexivity.
Defined.

(** ** The batch, the listing, and seasons in URLs *)

Lemma main_split_results set_list s3 bucket prefixes :
  let ok := fun p =>
    is_ok (Coherence.create_tile_stac_collection set_list s3 bucket p
             Coherence.default_date_interval) in
  let results := Coherence.main_results set_list s3 bucket prefixes in
  (Coherence.main_split results).2 = List.filter (fun p => negb (ok p)) prefixes /\
  length (Coherence.main_split results).1 = length (List.filter ok prefixes).
Proof.
  cbv zeta. unfold Coherence.main_results, Coherence.safe_create_tile_stac_collection.
  induction prefixes as [|p prefixes [IH1 IH2]]; [split; reflexivity|].
  simpl.
  destruct (Coherence.create_tile_stac_collection set_list s3 bucket p
              Coherence.default_date_interval); simpl;
    destruct (Coherence.main_split _) as [cs bad] eqn:Hsplit; simpl in *;
    rewrite <- IH1, <- IH2; split; reflexivity.
Qed.

(** In the batch of [__main__] the invalid tiles are exactly the prefixes
    whose collection fails to build, in the order of the prefixes, and the
    catalog gets one child for every other prefix: no prefix is lost and none
    is counted twice. *)
Theorem batch_partition (set_list : set_order) (s3 : s3_client) (bucket : string)
    (prefixes : list string) :
  let ok := fun p =>
    is_ok (Coherence.create_tile_stac_collection set_list s3 bucket p
             Coherence.default_date_interval) in
  let results := Coherence.main_results set_list s3 bucket prefixes in
  (Coherence.main_split results).2 = List.filter (fun p => negb (ok p)) prefixes /\
  length (Coherence.main_split results).1 = length (List.filter ok prefixes) /\
  (length (Coherence.main_split results).1 + length (Coherence.main_split results).2
   = length prefixes)%nat.
Proof.
  cbv zeta. destruct (main_split_results set_list s3 bucket prefixes) as [H2 H1].
  cbv zeta in H1, H2. split; [exact H2|]. split; [exact H1|].
  rewrite H1, H2. clear H1 H2.
  induction prefixes as [|p prefixes IH]; [reflexivity|].
  simpl. destruct (is_ok _); simpl; lia.
Qed.

Lemma rmap_total {A B} (f : A -> B) (l : list A) :
  rmap (fun x => Ok (f x)) l = Ok (List.map f l).
Proof. induction l as [|x l IH]; [reflexivity|]. simpl. rewrite IH. reflexivity. Qed.

(** [get_object_urls] fails with KeyError when the response has no
    Contents; otherwise it returns one URL per listed key, in order, each of
    the form https://{bucket}.s3.{location}.amazonaws.com/{key}; the bucket
    location is asked for once per key, so an empty listing gives the empty
    list even when that call would fail, and any other listing fails with
    it. *)
Theorem get_object_urls_cases (s3 : s3_client) (bucket prefix : string)
    (requester_pays : bool) :
  match list_objects_v2 s3 bucket prefix requester_pays with
  | Raise e => Coherence.get_object_urls s3 bucket prefix requester_pays = Raise e
  | Ok None => Coherence.get_object_urls s3 bucket prefix requester_pays = Raise KeyError
  | Ok (Some keys) =>
      match get_bucket_location s3 bucket with
      | Ok location =>
          Coherence.get_object_urls s3 bucket prefix requester_pays =
            Ok (List.map (fun key => "https://" +:+ bucket +:+ ".s3." +:+ location +:+
                                     ".amazonaws.com/" +:+ key) keys)
      | Raise e =>
          Coherence.get_object_urls s3 bucket prefix requester_pays =
            match keys with [] => Ok [] | _ :: _ => Raise e end
      end
  end.
Proof.
  unfold Coherence.get_object_urls.
  destruct (list_objects_v2 s3 bucket prefix requester_pays) as [[keys|]|e];
    try reflexivity.
  cbn [rbind Coherence.getitem from_option]. unfold Coherence.construct_url.
  destruct (get_bucket_location s3 bucket) as [location|e]; cbn [rbind].
  - apply rmap_total.
  - destruct keys; reflexivity.
Qed.

(** A season is matched in lower case against the whole URL: when a file
    that is neither inc nor lsmap has a season that no listed URL spells in
    lower case, no collection is built for the tile. *)
Theorem season_must_appear_in_lower_case (set_list : set_order) (s3 : s3_client)
    (bucket prefix : string) (interval : Dt.datetime * Dt.datetime)
    (urls : list string) (asset_dicts : list Coherence.asset_dict)
    (a : Coherence.asset_dict) (s : string) :
  Coherence.get_object_urls s3 bucket prefix true = Ok urls ->
  rmap Coherence.parse_url urls = Ok asset_dicts ->
  a ∈ asset_dicts -> Coherence.is_yearly a = false -> Coherence.season a = Some s ->
  Forall (fun x => Py.contains (Py.lower s) (Coherence.url x) = false) asset_dicts ->
  is_ok (Coherence.create_tile_stac_collection set_list s3 bucket prefix interval) = false.
Proof.
  intros Hu Hp Ha Hy Hs Hnone.
  destruct (Coherence.create_tile_stac_collection set_list s3 bucket prefix interval)
    as [coll|] eqn:Hbuild; [|reflexivity].
  exfalso.
  destruct (create_tile_stac_collection_stages _ _ _ _ _ _ Hbuild)
    as (urls' & assets' & seasons & first & item0 & Hu' & Hp' & Hseasons & Hitems & _).
  rewrite Hu in Hu'. injection Hu' as <-. rewrite Hp in Hp'. injection Hp' as <-.
  assert (Hin : a ∈ List.filter (fun x => negb (Coherence.is_yearly x)) asset_dicts).
  { apply list_elem_of_In, filter_In. split; [apply list_elem_of_In; exact Ha|].
    rewrite Hy. reflexivity. }
  destruct (rmap_elem_of_l _ _ _ _ Hseasons Hin) as (s' & Hs' & Hsa).
  rewrite Hs in Hsa. simpl in Hsa. injection Hsa as <-.
  apply (as_list_elem set_list) in Hs'.
  destruct (rmap_elem_of_l _ _ _ _ Hitems Hs') as (item & _ & Hitem).
  rewrite (filter_all_false _ _ Hnone) in Hitem.
  unfold Coherence.create_stac_item in Hitem. simpl in Hitem. discriminate Hitem.
Qed.

Lemma season_must_appear_in_lower_case_witness :
  is_ok (Coherence.create_tile_stac_collection gset_order
           (fixed_bucket "us-west-2" ["data/tiles/N00E005/N00E005_FALL_vv_AMP.tif"])
           "bucket" "data/tiles/N00E005/" Coherence.default_date_interval) = false.
Proof.
  eapply (season_must_appear_in_lower_case gset_order
            (fixed_bucket "us-west-2" ["data/tiles/N00E005/N00E005_FALL_vv_AMP.tif"])
            "bucket" "data/tiles/N00E005/" Coherence.default_date_interval _ _ _ "FALL").
  - reflexivity.
  - vm_compute. reflexivity.
  - left.
  - reflexivity.
  - reflexivity.
  - repeat constructor.
Defined.

(** ** The item id within its key *)

(** The last piece of a key split at its slashes follows a prefix that is
    empty or ends with a slash. *)
Lemma split_slash_last s :
  exists dir,
    s = dir +:+ List.last (Py.split "/" s) "" /\
    ((Py.split "/" s = [s] /\ dir = "") \/
     ((2 <= length (Py.split "/" s))%nat /\ Items.ends_with_slash dir = true)).
Proof.
  induction s as [|c s (dir & Hs & Hcase)].
  - exists "". split; [reflexivity | left; auto].
  - pose proof (split_nonempty "/" s) as Hne. simpl.
    destruct (Ascii.eqb c "/") eqn:Hc.
    + apply Ascii.eqb_eq in Hc as ->. exists (String "/" dir). split.
      * rewrite sapp_cons. f_equal.
        destruct (Py.split "/" s) as [|w ws]; [congruence | exact Hs].
      * right. split.
        -- destruct (Py.split "/" s); [congruence | simpl; lia].
        -- destruct Hcase as [[_ ->] | [_ Hd]]; [reflexivity|].
           destruct dir; [discriminate Hd | exact Hd].
    + destruct Hcase as [[Hone ->] | [Hlen Hd]].
      * exists "". rewrite Hone. split; [reflexivity | left; auto].
      * destruct (Py.split "/" s) as [|w [|w1 ws]] eqn:Hsp; [congruence | simpl in Hlen; lia |].
        exists (String c dir). split.
        -- rewrite sapp_cons. f_equal. exact Hs.
        -- right. split; [simpl; lia|].
           destruct dir; [discriminate Hd | exact Hd].
Qed.

(** The first piece of a name split at its dots is followed by nothing or
    by a dot. *)
Lemma split_dot_first s :
  exists rest,
    s = List.hd "" (Py.split "." s) +:+ rest /\
    (rest = "" \/ exists r, rest = String "." r).
Proof.
  induction s as [|c s (rest & Hs & Hrest)].
  - exists "". split; [reflexivity | left; reflexivity].
  - simpl. destruct (Ascii.eqb c ".") eqn:Hc.
    + apply Ascii.eqb_eq in Hc as ->. exists (String "." s).
      split; [reflexivity | right; eauto].
    + pose proof (split_nonempty "." s) as Hne.
      destruct (Py.split "." s) as [|w ws]; [congruence|].
      exists rest. split; [|exact Hrest].
      simpl in Hs. simpl. rewrite sapp_cons. f_equal. exact Hs.
Qed.

(** The id of an item is the part of the key after its last slash, cut at
    its first dot: the key is a prefix that is empty or ends with a slash,
    then the id, which holds neither a slash nor a dot, then a rest without
    slash that is empty or starts with a dot. *)
Theorem item_id_has_no_separator (s3_key : string) :
  has_char "/" (Items.item_id_from_s3_key s3_key) = false /\
  has_char "." (Items.item_id_from_s3_key s3_key) = false /\
  exists dir rest,
    s3_key = dir +:+ Items.item_id_from_s3_key s3_key +:+ rest /\
    (dir = "" \/ Items.ends_with_slash dir = true) /\
    has_char "/" rest = false /\
    (rest = "" \/ exists r, rest = String "." r).
Proof.
  destruct (item_id_has_no_separator_aux s3_key) as [Hslash Hdot].
  split; [exact Hslash|]. split; [exact Hdot|].
  unfold Items.item_id_from_s3_key in *.
  destruct (split_slash_last s3_key) as (dir & Hkey & Hdir).
  pose proof (last_elem_of (Py.split "/" s3_key) "" (split_nonempty _ _)) as Hbase.
  apply split_no_sep in Hbase.
  set (basename := List.last (Py.split "/" s3_key) "") in *.
  destruct (split_dot_first basename) as (rest & Hname & Hrest).
  exists dir, rest. split; [rewrite <- Hname; exact Hkey|].
  split; [destruct Hdir as [[_ ->] | [_ Hd]]; auto|].
  split; [|exact Hrest].
  rewrite Hname, has_char_app in Hbase. apply orb_false_iff in Hbase as [_ H]. exact H.
Qed.

(** ** The two builders date a season alike *)



